(** * local-repo-manager: reconciliation and discovery, verified against the code

    A shallow embedding of [local_repo_manager/{util,envrc,project,update,main}.py],
    with [get_projects] of [config.py] and the namespace of [cli.py].

    - Python strings are [string]; [str.strip], [str.splitlines], [in] and
      [repr] are written out for the ASCII range (bytes above 127 are kept
      as they are).
    - [pathlib.Path] is a record of an absolute flag and the list of
      components; [resolve] is the lexical resolution of a tree without
      symbolic links.
    - The filesystem and the external tools (git, direnv, uv) are an
      interface, [System], over a world type; every theorem about the
      reconciler holds for any implementation of it.  [Fake] is one
      implementation, used for concrete runs.
    - Effects are a small monad: a computation takes the world and returns
      a result ([Ok], [Exit code] for [exit(code)], [Raise e] for an
      uncaught exception), the new world and the list of events it caused.
    - Every call of [subprocess.run] completes with a status: a tool that
      cannot be started at all (the [OSError] of [subprocess.run]) is
      outside the model, and so is the debug log.
    - Progress printing inside [Project] and [update_config] is not
      modelled; the report lines printed by [main.run] are. *)

From Stdlib Require Import String Ascii List ZArith Bool Lia.
Import ListNotations.
Open Scope string_scope.
Open Scope nat_scope.

Set Implicit Arguments.

(* ################################################################# *)
(** * Python strings *)

Module PyStr.

(** The whitespace of [str.strip()] in the ASCII range: TAB, LF, VT, FF, CR,
    FS, GS, RS, US and the space. *)
Definition is_space (c : ascii) : bool :=
  let n := nat_of_ascii c in
  ((9 <=? n) && (n <=? 13)) || ((28 <=? n) && (n <=? 32)).

Fixpoint lstrip (s : string) : string :=
  match s with
  | String c r => if is_space c then lstrip r else s
  | EmptyString => EmptyString
  end.

(** [rstrip]: a character is kept when something that is not whitespace
    follows it or it is not whitespace itself. *)
Fixpoint rstrip (s : string) : string :=
  match s with
  | EmptyString => EmptyString
  | String c r =>
      match rstrip r with
      | EmptyString => if is_space c then EmptyString else String c EmptyString
      | r' => String c r'
      end
  end.

Definition strip (s : string) : string := rstrip (lstrip s).

Fixpoint starts_with (p s : string) : bool :=
  match p, s with
  | EmptyString, _ => true
  | String a p', String b s' => Ascii.eqb a b && starts_with p' s'
  | String _ _, EmptyString => false
  end.

(** [needle in hay] *)
Fixpoint contains (needle hay : string) : bool :=
  starts_with needle hay ||
  match hay with
  | EmptyString => false
  | String _ r => contains needle r
  end.

Fixpoint mem (x : string) (l : list string) : bool :=
  match l with
  | [] => false
  | y :: r => String.eqb x y || mem x r
  end.

(** [sep.join(l)] on a list of strings *)
Fixpoint join (sep : string) (l : list string) : string :=
  match l with
  | [] => ""
  | [x] => x
  | x :: r => x ++ sep ++ join sep r
  end.

(** Line boundaries of [str.splitlines()] in the ASCII range:
    LF, VT, FF, CR, FS, GS, RS (and CR LF as one boundary). *)
Definition is_linebreak (c : ascii) : bool :=
  let n := nat_of_ascii c in
  ((10 <=? n) && (n <=? 13)) || ((28 <=? n) && (n <=? 30)).

Definition is_cr (c : ascii) : bool := nat_of_ascii c =? 13.
Definition is_lf (c : ascii) : bool := nat_of_ascii c =? 10.

(** [splitlines_from cur s]: [cur] is the line being read, reversed. *)
Fixpoint rev_string (acc s : string) : string :=
  match s with
  | EmptyString => acc
  | String c r => rev_string (String c acc) r
  end.

Fixpoint splitlines_from (cur : string) (s : string) : list string :=
  match s with
  | EmptyString =>
      match cur with EmptyString => [] | _ => [rev_string "" cur] end
  | String c r =>
      if is_linebreak c then
        let rest :=
          match r with
          | String d r' => if is_cr c && is_lf d then r' else r
          | EmptyString => r
          end in
        rev_string "" cur :: splitlines_from "" rest
      else splitlines_from (String c cur) r
  end.

(** [repr(s)] for a [str], as in [f"{s!r}"]: single quotes unless the string
    has a single quote and no double quote; the quote and the backslash are
    escaped, TAB, LF and CR are written as escapes and the other control
    characters in hexadecimal. This is [repr] on ASCII strings; the
    characters outside ASCII that Python writes as escapes (those that
    are not printable) are outside the model. *)
Definition hex_digit (n : nat) : ascii :=
  if n <? 10 then ascii_of_nat (48 + n) else ascii_of_nat (87 + n).

Definition squote : ascii := ascii_of_nat 39.
Definition dquote : ascii := ascii_of_nat 34.
Definition backslash : ascii := ascii_of_nat 92.

Fixpoint has_char (c : ascii) (s : string) : bool :=
  match s with
  | EmptyString => false
  | String d r => Ascii.eqb c d || has_char c r
  end.

Definition repr_char (quote c : ascii) : string :=
  let n := nat_of_ascii c in
  if Ascii.eqb c quote || Ascii.eqb c backslash then String backslash (String c "")
  else if n =? 9 then String backslash "t"
  else if n =? 10 then String backslash "n"
  else if n =? 13 then String backslash "r"
  else if (n <? 32) || (n =? 127) then
    String backslash (String "x" (String (hex_digit (n / 16)) (String (hex_digit (n mod 16)) "")))
  else String c "".

Fixpoint repr_body (quote : ascii) (s : string) : string :=
  match s with
  | EmptyString => ""
  | String c r => repr_char quote c ++ repr_body quote r
  end.

Definition repr (s : string) : string :=
  let quote := if has_char squote s && negb (has_char dquote s) then dquote else squote in
  String quote (repr_body quote s ++ String quote "").

End PyStr.

(* ################################################################# *)
(** * Python dictionaries: insertion-ordered, one entry per key *)

Module PyDict.

Section Dict.
Variable V : Type.

Definition dict := list (string * V).

Fixpoint get (k : string) (d : dict) : option V :=
  match d with
  | [] => None
  | (k', v) :: r => if String.eqb k k' then Some v else get k r
  end.

Definition mem (k : string) (d : dict) : bool :=
  match get k d with Some _ => true | None => false end.

(** [d[k] = v]: the value is replaced where the key stands, or the entry
    is added at the end. *)
Fixpoint set (k : string) (v : V) (d : dict) : dict :=
  match d with
  | [] => [(k, v)]
  | (k', v') :: r =>
      if String.eqb k k' then (k', v) :: r else (k', v') :: set k v r
  end.

Definition keys (d : dict) : list string := map fst d.
End Dict.

End PyDict.

(* ################################################################# *)
(** * pathlib *)

Module PurePath.

Record Path := mk { absolute : bool; parts : list string }.

(** Components of a string between slashes. *)
Fixpoint split_slash (cur : string) (s : string) : list string :=
  match s with
  | EmptyString => [PyStr.rev_string "" cur]
  | String c r =>
      if Ascii.eqb c "/" then PyStr.rev_string "" cur :: split_slash "" r
      else split_slash (String c cur) r
  end.

Definition keep_part (s : string) : bool :=
  negb (String.eqb s "" || String.eqb s ".").

(** [Path(s)]: empty components and [.] are dropped, [..] is kept. A path
    written with exactly two leading slashes, which POSIX keeps as a root
    of its own, is outside the model: it is read as a path with one. *)
Definition parse (s : string) : Path :=
  mk (PyStr.starts_with "/" s) (filter keep_part (split_slash "" s)).

(** [p / q]: an absolute right operand replaces the left one. *)
Definition join (p q : Path) : Path :=
  if absolute q then q else mk (absolute p) (parts p ++ parts q)%list.

Definition joins (p : Path) (s : string) : Path := join p (parse s).

(** [p.name] *)
Definition name (p : Path) : string := last (parts p) "".

(** [p.parent] *)
Definition parent (p : Path) : Path := mk (absolute p) (removelast (parts p)).

(** [str(p)] *)
Definition to_str (p : Path) : string :=
  if absolute p then "/" ++ PyStr.join "/" (parts p)
  else match parts p with [] => "." | l => PyStr.join "/" l end.

(** One step of the resolution, on the reversed list of the components
    resolved so far: [..] removes the last one and is dropped at the root. *)
Definition resolve_step (acc : list string) (c : string) : list string :=
  if String.eqb c ".." then tl acc else c :: acc.

(** [p.resolve()] from the working directory [cwd] (absolute), in a tree
    without symbolic links. *)
Definition resolve (cwd p : Path) : Path :=
  let all := if absolute p then parts p else (parts cwd ++ parts p)%list in
  mk true (rev (fold_left resolve_step all [])).

Definition eqb (p q : Path) : bool :=
  Bool.eqb (absolute p) (absolute q) &&
  if list_eq_dec string_dec (parts p) (parts q) then true else false.

End PurePath.
Abbreviation Path := PurePath.Path.
Infix "//" := PurePath.joins (at level 40, left associativity).

(* ################################################################# *)
(** * Results, events and the effect monad *)

(** Exit statuses of [os]: [EX_USAGE], [EX_DATAERR], [EX_NOINPUT], [EX_OSERR]. *)
Definition EX_USAGE : Z := 64.
Definition EX_DATAERR : Z := 65.
Definition EX_NOINPUT : Z := 66.
Definition EX_OSERR : Z := 71.

Inductive Exn : Type :=
| TypeError
| KeyError
| CalledProcessError
| NotADirectoryError
| OSError
| AttributeError.

(** How a call ends: it returns, the process exits ([exit(code)]) or an
    exception leaves it. *)
Inductive Res (A : Type) : Type :=
| Ok (a : A)
| Exit (code : Z)
| Raise (e : Exn).
Arguments Ok {A} a.
Arguments Exit {A} code.
Arguments Raise {A} e.

(** [subprocess.CompletedProcess], with the captured output. *)
Record Completed := { returncode : Z; stdout : string; stderr : string }.

(** What a run does to the outside, in order. [Ran] is one call of
    [subprocess.run] made by [run_command] with that [raise_err]. *)
Inductive Event : Type :=
| Ran (argv : list string) (raise_err : bool) (cwd : option Path) (rc : Z)
| MadeDirs (p : Path)
| Wrote (p : Path) (text : string)
| Printed (line : string).

(** The filesystem and the external tools. [read_text] and [iterdir] give
    [None] where Python raises. *)
Class System (W : Type) : Type := {
  getcwd : W -> Path;
  is_dir : Path -> W -> bool;
  path_exists : Path -> W -> bool;
  read_text : Path -> W -> option string;
  iterdir : Path -> W -> option (list Path);
  mkdir_parents : Path -> W -> W;
  write_text : Path -> string -> W -> W;
  subprocess_run : list string -> option Path -> W -> Completed * W
}.

Definition M (W A : Type) : Type := W -> Res A * W * list Event.

Definition ret {W A} (a : A) : M W A := fun w => (Ok a, w, []).

Definition bind {W A B} (m : M W A) (f : A -> M W B) : M W B :=
  fun w =>
    match m w with
    | (Ok a, w1, t1) => let '(r, w2, t2) := f a w1 in (r, w2, (t1 ++ t2)%list)
    | (Exit c, w1, t1) => (Exit c, w1, t1)
    | (Raise e, w1, t1) => (Raise e, w1, t1)
    end.

(** The outcome of a continuation, after the events [t1]. *)
Definition after {W A} (t1 : list Event) (x : Res A * W * list Event)
    : Res A * W * list Event :=
  let '(r, w, t2) := x in (r, w, (t1 ++ t2)%list).

Definition exit {W A} (code : Z) : M W A := fun w => (Exit code, w, []).
Definition raise {W A} (e : Exn) : M W A := fun w => (Raise e, w, []).

(** [try: m  except e: h] *)
Definition try_except {W A} (m : M W A) (e : Exn) (h : M W A) : M W A :=
  fun w =>
    match m w with
    | (Raise e', w1, t1) =>
        if match e, e' with
           | TypeError, TypeError | KeyError, KeyError
           | CalledProcessError, CalledProcessError
           | NotADirectoryError, NotADirectoryError | OSError, OSError
           | AttributeError, AttributeError => true
           | _, _ => false
           end
        then let '(r, w2, t2) := h w1 in (r, w2, (t1 ++ t2)%list)
        else (Raise e', w1, t1)
    | other => other
    end.

Definition observe {W A} (f : W -> A) : M W A := fun w => (Ok (f w), w, []).
Definition emit {W} (e : Event) : M W unit := fun w => (Ok tt, w, [e]).
Definition act {W} (f : W -> W) (e : Event) : M W unit := fun w => (Ok tt, f w, [e]).

Declare Scope monad_scope.
Delimit Scope monad_scope with monad.
Notation "x <- m ;; k" := (bind m (fun x => k))
  (at level 61, m at next level, right associativity) : monad_scope.
Notation "m ;; k" := (bind m (fun _ => k))
  (at level 61, right associativity) : monad_scope.
Open Scope monad_scope.

(** [for x in l: self = body(self, x)] *)
Fixpoint for_each {W S X} (l : list X) (body : S -> X -> M W S) (s : S) : M W S :=
  match l with
  | [] => ret s
  | x :: r => s' <- body s x ;; for_each r body s'
  end.

(* ################################################################# *)
(** * util.py *)

Module util.
Section Util.
Context {W : Type} `{System W}.

(** [" ".join(command)] of the debug line: a [None] in the list is a
    [TypeError]. *)
Fixpoint all_str (command : list (option string)) : option (list string) :=
  match command with
  | [] => Some []
  | Some a :: r => option_map (cons a) (all_str r)
  | None :: _ => None
  end.

Definition run_command (command : list (option string)) (raise_err : bool)
    (cwd : option Path) : M W string :=
  match all_str command with
  | None => raise TypeError
  | Some argv =>
      fun w =>
        let '(c, w') := subprocess_run argv cwd w in
        let ev := [Ran argv raise_err cwd (returncode c)] in
        if (returncode c =? 0)%Z then (Ok (PyStr.strip (stdout c)), w', ev)
        else if raise_err then (Raise CalledProcessError, w', ev)
        else (Exit EX_OSERR, w', ev)
  end.

Definition is_inited (directory : Path) : M W bool :=
  observe (is_dir (directory // ".git")).

Definition create_parent_dir (directory : Path) : M W unit :=
  let parent_dir := PurePath.parent directory in
  act (mkdir_parents parent_dir) (MadeDirs parent_dir).

Definition dir_exists (directory : Path) : M W bool :=
  observe (is_dir directory).
End Util.
End util.

(* ################################################################# *)
(** * envrc.py *)

Module envrc.
Section Envrc.
Context {W : Type} `{System W}.

Definition has_envrc (directory : Path) : M W bool :=
  let envrc_path := directory // ".envrc" in
  e <- observe (path_exists envrc_path) ;;
  if e then
    c <- observe (read_text envrc_path) ;;
    match c with
    | None => raise OSError
    | Some content => ret (PyStr.contains "source .venv/bin/activate" content)
    end
  else ret false.

Definition is_envrc_setup (directory : Path) : M W bool :=
  output <- util.run_command [Some "direnv"; Some "status"] false (Some directory) ;;
  ret (PyStr.contains "Found RC allowed true" output).
End Envrc.
End envrc.

(* ################################################################# *)
(** * project.py *)

(** One entry of the declaration, [data] in [Project.__init__]: a table
    whose keys may be missing. *)
Record ProjectData := {
  d_name : option string;
  d_group : option string;
  d_envrc : option bool;
  d_remotes : option (PyDict.dict string)
}.

Module Project.

Record t := mk {
  name : string;
  group : string;
  envrc : bool;
  remotes : PyDict.dict string;
  dir : Path;
  skip_fetch : bool;
  apply : bool;
  plan : list string
}.

(** [self.plan.append(line)] *)
Definition plan_append (self : t) (line : string) : t :=
  mk (name self) (group self) (envrc self) (remotes self) (dir self)
     (skip_fetch self) (apply self) (plan self ++ [line])%list.

(** [Project(data, repo_dir, action, skip_fetch)], run in the working
    directory [cwd]. [data["name"]] and [data["group"]] raise [KeyError]
    when the key is missing. *)
Definition init (cwd : Path) (data : ProjectData) (repo_dir : Path)
    (action : string) (skip_fetch : bool) : Res t :=
  match d_name data with
  | None => Raise KeyError
  | Some name =>
      match d_group data with
      | None => Raise KeyError
      | Some group =>
          Ok (mk name group
                (match d_envrc data with Some b => b | None => false end)
                (match d_remotes data with Some r => r | None => [] end)
                (PurePath.resolve cwd (repo_dir // group // name))
                skip_fetch
                (String.eqb action "apply")
                [])
      end
  end.

(** The lines of the plan, as the f-strings build them. *)
Definition line_clone_new (name : string) : string :=
  "[bold yellow]   will clone " ++ PyStr.repr name ++ " in a new directory[/bold yellow]".
Definition line_clone_existing (name : string) : string :=
  "[bold yellow]   will clone " ++ PyStr.repr name ++ " in an existing dir[/bold yellow]".
Definition line_create_envrc (name : string) : string :=
  "[bold yellow]   will create .envrc in " ++ PyStr.repr name ++ "[/bold yellow]".
Definition line_allow_envrc (name : string) : string :=
  "[bold yellow]   will allow .envrc in " ++ PyStr.repr name ++ "[/bold yellow]".
Definition line_create_venv (name : string) : string :=
  "[bold yellow]   will create venv in " ++ PyStr.repr name ++ "[/bold yellow]".
Definition line_add_remote (name url : string) : string :=
  "[bold yellow]   will add remote " ++ PyStr.repr name ++ " at " ++ url ++ "[/bold yellow]".
Definition line_update_remote (name : string) : string :=
  "[bold yellow]   will update url for existing remote " ++ PyStr.repr name ++ "[/bold yellow]".
Definition line_from (actual_url : string) : string :=
  "[yellow italic]    from " ++ actual_url ++ " [/yellow italic]".
Definition line_to (url : string) : string :=
  "[yellow italic]    to   " ++ url ++ "[/yellow italic]".

(** The command lines. *)
Definition git_C (dir : Path) (rest : list (option string)) : list (option string) :=
  (Some "git" :: Some "-C" :: Some (PurePath.to_str dir) :: rest)%list.

Section Methods.
Context {W : Type} `{System W}.

Definition get_remote_url (self : t) (remote : string) : M W (option string) :=
  try_except
    (r <- util.run_command
            (git_C (dir self) [Some "remote"; Some "get-url"; Some remote]) true None ;;
     ret (Some r))
    CalledProcessError
    (ret None).

Definition init_repo (self : t) : M W unit :=
  util.run_command [Some "git"; Some "init"; Some (PurePath.to_str (dir self))] false None ;;
  ret tt.

Definition clone_repo (self : t) : M W unit :=
  let url := PyDict.get "origin" (remotes self) in
  util.run_command [Some "git"; Some "clone"; url; Some (PurePath.to_str (dir self))] false None ;;
  ret tt.

Definition add_remote (self : t) (name url : string) : M W unit :=
  util.run_command (git_C (dir self) [Some "remote"; Some "add"; Some name; Some url]) false None ;;
  ret tt.

Definition update_remote (self : t) (name old_url new_url : string) : M W unit :=
  util.run_command (git_C (dir self) [Some "remote"; Some "set-url"; Some name; Some new_url]) false None ;;
  ret tt.

Definition set_up_remote (self : t) (name url : string) : M W t :=
  actual_url <- get_remote_url self name ;;
  match actual_url with
  | None =>
      if apply self then add_remote self name url ;; ret self
      else ret (plan_append self (line_add_remote name url))
  | Some actual_url =>
      if String.eqb actual_url url then ret self
      else if apply self then update_remote self name actual_url url ;; ret self
      else ret (plan_append
                  (plan_append
                     (plan_append self (line_update_remote name))
                     (line_from actual_url))
                  (line_to url))
  end.

Definition setup_origin (self : t) : M W unit :=
  if PyDict.mem "origin" (remotes self) then
    util.run_command (git_C (dir self) [Some "fetch"; Some "origin"]) false None ;;
    util.run_command
      (git_C (dir self) [Some "submodule"; Some "update"; Some "--init"; Some "--recursive"])
      false None ;;
    ret tt
  else ret tt.

Definition setup_envrc (self : t) : M W t :=
  let envrc_file := dir self // ".envrc" in
  e <- observe (path_exists envrc_file) ;;
  (** [created] is [None] after the early [return] of plan mode. *)
  created <-
    (if negb e then
       if apply self then
         act (write_text envrc_file "source .venv/bin/activate")
             (Wrote envrc_file "source .venv/bin/activate") ;;
         ret (Some self)
       else ret None
     else ret (Some self)) ;;
  match created with
  | None => ret (plan_append self (line_create_envrc (name self)))
  | Some self =>
      ok <- envrc.is_envrc_setup (dir self) ;;
      if ok then ret self
      else if apply self then
        util.run_command [Some "direnv"; Some "allow"; Some (PurePath.to_str (dir self))] false None ;;
        ret self
      else ret (plan_append self (line_allow_envrc (name self)))
  end.

Definition setup_venv (self : t) : M W t :=
  let venv_dir := dir self // ".venv" in
  e <- observe (path_exists venv_dir) ;;
  if negb e then
    if apply self then
      util.run_command [Some "uv"; Some "venv"; Some ".venv"] false (Some (dir self)) ;;
      ret self
    else ret (plan_append self (line_create_venv (name self)))
  else ret self.

(** [for remote_name, remote_url in self.remotes.items(): ...] *)
Definition set_up_remotes (self : t) : M W t :=
  for_each (remotes self)
    (fun self '(remote_name, remote_url) => set_up_remote self remote_name remote_url)
    self.

(** The part of [run] after the two gates. *)
Definition run_steps (self : t) : M W (list string) :=
  self <- (if envrc self then
             self <- setup_envrc self ;; setup_venv self
           else ret self) ;;
  self <- set_up_remotes self ;;
  (if apply self && negb (skip_fetch self) then setup_origin self else ret tt) ;;
  ret (plan self).

(** From the initialization gate on. *)
Definition run_inited (self : t) : M W (list string) :=
  inited <- util.is_inited (dir self) ;;
  if negb inited then
    if apply self then init_repo self ;; run_steps self
    else ret (plan (plan_append self (line_clone_existing (name self))))
  else run_steps self.

Definition run (self : t) : M W (list string) :=
  e <- util.dir_exists (dir self) ;;
  if negb e then
    if apply self then
      util.create_parent_dir (dir self) ;;
      clone_repo self ;;
      run_inited self
    else ret (plan (plan_append self (line_clone_new (name self))))
  else run_inited self.
End Methods.

End Project.

(* ################################################################# *)
(** * The declaration document *)

(** The parsed TOML document: the [repo-dir] table and the [project] table,
    each possibly missing. *)
Record Config := {
  cfg_repo_dir : option string;
  cfg_project : option (PyDict.dict ProjectData)
}.

(** Truth value of [config] for [config : TOMLDocument | None]: a missing or
    an empty document is false. *)
Definition truthy (config : option Config) : bool :=
  match config with
  | None => false
  | Some c =>
      match cfg_repo_dir c, cfg_project c with
      | None, None => false
      | _, _ => true
      end
  end.

(* ################################################################# *)
(** * update.py *)

Module update.
Section Update.
Context {W : Type} `{System W}.

Definition get_remotes (directory : Path) : M W (PyDict.dict string) :=
  out <- util.run_command (Project.git_C directory [Some "remote"]) false None ;;
  let remote_names := PyStr.splitlines_from "" out in
  for_each remote_names
    (fun remotes remote =>
       remote_url <- util.run_command
                       (Project.git_C directory [Some "remote"; Some "get-url"; Some remote])
                       false None ;;
       ret (PyDict.set remote remote_url remotes))
    [].

Definition get_project_info (project_dir group_dir : Path)
    : M W (string * option ProjectData) :=
  let config_name := PurePath.name group_dir ++ "." ++ PurePath.name project_dir in
  remotes <- get_remotes project_dir ;;
  match remotes with
  | [] => ret (config_name, None)
  | _ =>
      e <- envrc.has_envrc project_dir ;;
      ret (config_name,
           Some {| d_name := Some (PurePath.name project_dir);
                   d_group := Some (PurePath.name group_dir);
                   d_envrc := if e then Some true else None;
                   d_remotes := Some remotes |})
  end.

(** [config["project"][name] = project] *)
Definition set_project (config : Config) (name : string) (project : ProjectData)
    : Res Config :=
  match cfg_project config with
  | None => Raise KeyError
  | Some table =>
      Ok {| cfg_repo_dir := cfg_repo_dir config;
            cfg_project := Some (PyDict.set name project table) |}
  end.

Definition visit_project (group_dir : Path) (config : Config) (project_dir : Path)
    : M W Config :=
  inited <- util.is_inited project_dir ;;
  if inited then
    info <- get_project_info project_dir group_dir ;;
    let '(name, project) := info in
    match project with
    | Some project =>
        match set_project config name project with
        | Ok config' => ret config'
        | Exit c => exit c
        | Raise e => raise e
        end
    | None => ret config
    end
  else ret config.

Definition visit_group (config : Config) (group_dir : Path) : M W Config :=
  children <- observe (iterdir group_dir) ;;
  match children with
  | None => raise NotADirectoryError
  | Some project_dirs => for_each project_dirs (visit_project group_dir) config
  end.

(** [if not config: config = tomlkit.document(); config["project"] = tomlkit.table()] *)
Definition or_new_document (config : option Config) : Config :=
  match config with
  | Some c => if truthy config then c else {| cfg_repo_dir := None; cfg_project := Some [] |}
  | None => {| cfg_repo_dir := None; cfg_project := Some [] |}
  end.

Definition update_config (config : option Config) (repo_dir : Path) : M W Config :=
  let config := or_new_document config in
  d <- observe (is_dir repo_dir) ;;
  if negb d then exit EX_NOINPUT
  else
    children <- observe (iterdir repo_dir) ;;
    match children with
    | None => raise NotADirectoryError
    | Some group_dirs => for_each group_dirs visit_group config
    end.
End Update.
End update.

(* ################################################################# *)
(** * main.py *)

Module main.
Section Main.
Context {W : Type} `{System W}.

Definition line_applying (name : string) : string :=
  "[bold underline]Applying plan for " ++ name ++ ":[/bold underline]".
Definition line_plan_for (name : string) : string :=
  "[bold yellow]🚧 Plan for " ++ name ++ ":[/bold yellow]".
Definition line_no_changes (name : string) : string :=
  "[bold green]✅ no changes to " ++ name ++ "[/bold green]".

(** The body of the loop of [run], for one item of [projects]. *)
Definition run_one (repo_dir : Path) (action : string) (skip_fetch : bool)
    (_ : unit) (item : string * ProjectData) : M W unit :=
  let '(name, prj) := item in
  cwd <- observe getcwd ;;
  match Project.init cwd prj repo_dir action skip_fetch with
  | Exit c => exit c
  | Raise e => raise e
  | Ok prj =>
      (if String.eqb action "apply" then emit (Printed (line_applying name)) else ret tt) ;;
      plan <- Project.run prj ;;
      if String.eqb action "plan" && negb (match plan with [] => true | _ => false end) then
        emit (Printed (line_plan_for name)) ;;
        for_each plan (fun _ item => emit (Printed item)) tt
      else emit (Printed (line_no_changes name))
  end.

Definition run (projects : PyDict.dict ProjectData) (repo_dir : Path)
    (action : string) (skip_fetch : bool) : M W unit :=
  for_each projects (run_one repo_dir action skip_fetch) tt.
End Main.
End main.

(* ################################################################# *)
(** * config.py *)

Module config.
Section Cfg.
Context {W : Type} `{System W}.

(** [get_projects]: the [project] table; the process exits when it is
    missing or empty. *)
Definition get_projects (config : Config) : M W (PyDict.dict ProjectData) :=
  match cfg_project config with
  | Some (e :: r) => ret (e :: r)
  | _ => emit (Printed "No projects found in config.") ;; exit EX_DATAERR
  end.

End Cfg.
End config.

(* ################################################################# *)
(** * cli.py: the parsed arguments *)

Module cli.

(** The attributes of the namespace of [parse_args] that the branch of
    [main()] for [plan] and [apply] reads. An attribute that the
    sub-parser of the command does not define is absent ([None]). *)
Record Namespace := { command : string; skip_fetch : option bool }.

(** [setup_parser]: [--skip-fetch] is an argument of the sub-parser of
    [apply] alone ([store_true]: present, [False] without the flag); the
    sub-parsers of [plan] and [update] have the common arguments only. *)
Definition namespace (command : string) (skip_fetch_flag : bool) : Namespace :=
  {| command := command;
     skip_fetch := if (command =? "apply")%string then Some skip_fetch_flag else None |}.
End cli.

(* ################################################################# *)
(** * main(): the commands plan and apply *)

Module app.
Section App.
Context {W : Type} `{System W}.

Definition line_no_config : string := "[bold red]  ❌ no config found[/bold red]".

(** The branch of [main()] for [plan] and [apply], from the loaded
    declaration [cfg], the value [repo_dir] of [get_repo_dir] and the
    parsed arguments on. The arguments of the call of [run] are evaluated
    in order; reading an attribute that the namespace does not have is an
    [AttributeError]. *)
Definition reconcile (args : cli.Namespace) (cfg : option Config) (repo_dir : Path)
    : M W unit :=
  match cfg with
  | Some c =>
      if truthy cfg then
        projects <- config.get_projects c ;;
        match cli.skip_fetch args with
        | Some skip_fetch => main.run projects repo_dir (cli.command args) skip_fetch
        | None => raise AttributeError
        end
      else emit (Printed line_no_config) ;; exit EX_DATAERR
  | None => emit (Printed line_no_config) ;; exit EX_DATAERR
  end.
End App.
End app.

(* ################################################################# *)
(** * A fake system

    A small implementation of [System], after the tool contracts the
    program relies on: directories, files, the remotes of each repository
    and the directories direnv allows. [faulty] lists command lines that
    fail whatever the state, to exercise the failure paths. *)

Module Fake.

Record World := {
  cwd : Path;
  dirs : list Path;
  files : list (Path * string);
  git_remotes : list (Path * PyDict.dict string);
  allowed : list Path;
  faulty : list (list string)
}.

Definition nl : string := String (ascii_of_nat 10) "".

Definition has_dir (p : Path) (w : World) : bool := existsb (PurePath.eqb p) (dirs w).

Fixpoint file_content (p : Path) (l : list (Path * string)) : option string :=
  match l with
  | [] => None
  | (q, c) :: r => if PurePath.eqb p q then Some c else file_content p r
  end.

Definition child_of (p q : Path) : bool :=
  PurePath.eqb (PurePath.parent q) p && negb (PurePath.eqb q p).

Definition list_dir (p : Path) (w : World) : option (list Path) :=
  if has_dir p w then
    Some (filter (child_of p) (dirs w) ++ filter (child_of p) (map fst (files w)))%list
  else None.

Definition add_dir (p : Path) (w : World) : World :=
  if has_dir p w then w
  else {| cwd := cwd w; dirs := (dirs w ++ [p])%list; files := files w;
          git_remotes := git_remotes w; allowed := allowed w; faulty := faulty w |}.

(** [mkdir(parents=True, exist_ok=True)]: the directory and the ones above it. *)
Fixpoint ancestors (abs : bool) (pre : list string) (rest : list string) : list Path :=
  match rest with
  | [] => []
  | c :: r => PurePath.mk abs (pre ++ [c])%list :: ancestors abs (pre ++ [c])%list r
  end.

Definition make_dirs (p : Path) (w : World) : World :=
  fold_left (fun w q => add_dir q w) (ancestors (PurePath.absolute p) [] (PurePath.parts p)) w.

Definition put_file (p : Path) (text : string) (w : World) : World :=
  {| cwd := cwd w; dirs := dirs w;
     files := (p, text) :: filter (fun e => negb (PurePath.eqb p (fst e))) (files w);
     git_remotes := git_remotes w; allowed := allowed w; faulty := faulty w |}.

Fixpoint remotes_of (repo : Path) (l : list (Path * PyDict.dict string)) : PyDict.dict string :=
  match l with
  | [] => []
  | (q, r) :: rest => if PurePath.eqb repo q then r else remotes_of repo rest
  end.

Definition set_remotes (repo : Path) (r : PyDict.dict string) (w : World) : World :=
  {| cwd := cwd w; dirs := dirs w; files := files w;
     git_remotes := (repo, r) :: filter (fun e => negb (PurePath.eqb repo (fst e))) (git_remotes w);
     allowed := allowed w; faulty := faulty w |}.

Definition allow (d : Path) (w : World) : World :=
  {| cwd := cwd w; dirs := dirs w; files := files w; git_remotes := git_remotes w;
     allowed := d :: allowed w; faulty := faulty w |}.

Definition done (out : string) : Completed :=
  {| returncode := 0; stdout := out; stderr := "" |}.
Definition failed (rc : Z) (err : string) : Completed :=
  {| returncode := rc; stdout := ""; stderr := err |}.

(** [git -C repo remote ...] *)
Definition git_remote (repo : Path) (args : list string) (w : World) : Completed * World :=
  let rs := remotes_of repo (git_remotes w) in
  match args with
  | [] => (done (PyStr.join nl (PyDict.keys rs) ++ nl), w)
  | [sub; n] =>
      if String.eqb sub "get-url" then
        match PyDict.get n rs with
        | Some u => (done (u ++ nl), w)
        | None => (failed 2 "error: No such remote", w)
        end
      else (failed 129 "usage", w)
  | [sub; n; u] =>
      if String.eqb sub "add" then
        if PyDict.mem n rs then (failed 3 "error: remote already exists", w)
        else (done "", set_remotes repo (PyDict.set n u rs) w)
      else if String.eqb sub "set-url" then
        if PyDict.mem n rs then (done "", set_remotes repo (PyDict.set n u rs) w)
        else (failed 2 "error: No such remote", w)
      else (failed 129 "usage", w)
  | _ => (failed 129 "usage", w)
  end.

Definition git_in (repo : Path) (args : list string) (w : World) : Completed * World :=
  if negb (has_dir (repo // ".git") w) then (failed 128 "fatal: not a git repository", w)
  else
    match args with
    | sub :: rest =>
        if String.eqb sub "remote" then git_remote repo rest w
        else if String.eqb sub "fetch" then
          match rest with
          | [n] => if PyDict.mem n (remotes_of repo (git_remotes w)) then (done "", w)
                   else (failed 128 "fatal: no such remote", w)
          | _ => (failed 129 "usage", w)
          end
        else if String.eqb sub "submodule" then (done "", w)
        else (failed 129 "usage", w)
    | [] => (failed 129 "usage", w)
    end.

Definition git (args : list string) (w : World) : Completed * World :=
  match args with
  | a :: rest =>
      if String.eqb a "-C" then
        match rest with
        | d :: rest' => git_in (PurePath.resolve (cwd w) (PurePath.parse d)) rest' w
        | [] => (failed 129 "usage", w)
        end
      else if String.eqb a "clone" then
        match rest with
        | [url; d] =>
            let repo := PurePath.resolve (cwd w) (PurePath.parse d) in
            if has_dir repo w then (failed 128 "fatal: destination path already exists", w)
            else (done "", set_remotes repo [("origin", url)]
                             (make_dirs (repo // ".git") w))
        | _ => (failed 129 "usage", w)
        end
      else if String.eqb a "init" then
        match rest with
        | [d] => (done "", make_dirs (PurePath.resolve (cwd w) (PurePath.parse d) // ".git") w)
        | _ => (failed 129 "usage", w)
        end
      else (failed 129 "usage", w)
  | [] => (failed 129 "usage", w)
  end.

Definition direnv (args : list string) (dir : Path) (w : World) : Completed * World :=
  match args with
  | [sub] =>
      if String.eqb sub "status" then
        if existsb (PurePath.eqb dir) (allowed w)
        then (done ("Found RC allowed true" ++ nl), w)
        else (done ("Found RC allowed false" ++ nl), w)
      else (failed 1 "usage", w)
  | [sub; d] =>
      if String.eqb sub "allow" then
        (done "", allow (PurePath.resolve (cwd w) (PurePath.parse d)) w)
      else (failed 1 "usage", w)
  | _ => (failed 1 "usage", w)
  end.

Definition uv (args : list string) (dir : Path) (w : World) : Completed * World :=
  match args with
  | [sub; d] =>
      if String.eqb sub "venv" then (done "", make_dirs (PurePath.join dir (PurePath.parse d)) w)
      else (failed 2 "usage", w)
  | _ => (failed 2 "usage", w)
  end.

Definition argv_eqb (a b : list string) : bool :=
  if list_eq_dec string_dec a b then true else false.

Definition run_tool (argv : list string) (dir : option Path) (w : World) : Completed * World :=
  if existsb (argv_eqb argv) (faulty w) then (failed 1 "injected failure", w)
  else
    let here := match dir with Some d => d | None => cwd w end in
    match argv with
    | tool :: args =>
        if String.eqb tool "git" then git args w
        else if String.eqb tool "direnv" then direnv args here w
        else if String.eqb tool "uv" then uv args here w
        else (failed 127 "command not found", w)
    | [] => (failed 127 "command not found", w)
    end.

#[global] Instance system : System World := {
  getcwd := cwd;
  is_dir := has_dir;
  path_exists := fun p w => has_dir p w || match file_content p (files w) with Some _ => true | None => false end;
  read_text := fun p w => file_content p (files w);
  iterdir := list_dir;
  mkdir_parents := make_dirs;
  write_text := put_file;
  subprocess_run := run_tool
}.

End Fake.

(* ################################################################# *)
(** * Vocabulary of the properties *)

Module Spec.

(** The command line of the remote-URL lookup. *)
Definition get_url_argv (dir : Path) (remote : string) : list string :=
  ["git"; "-C"; PurePath.to_str dir; "remote"; "get-url"; remote].

Definition list_remotes_argv (dir : Path) : list string :=
  ["git"; "-C"; PurePath.to_str dir; "remote"].

Definition fetch_argv (dir : Path) : list string :=
  ["git"; "-C"; PurePath.to_str dir; "fetch"; "origin"].

Definition submodule_argv (dir : Path) : list string :=
  ["git"; "-C"; PurePath.to_str dir; "submodule"; "update"; "--init"; "--recursive"].

Definition status_argv : list string := ["direnv"; "status"].

(** What a lookup answers: the trimmed output, or nothing when the tool
    fails. *)
Definition answer (c : Completed) : option string :=
  if (returncode c =? 0)%Z then Some (PyStr.strip (stdout c)) else None.

(** The plan with some lines added at its end. *)
Definition append_lines (self : Project.t) (lines : list string) : Project.t :=
  Project.mk (Project.name self) (Project.group self) (Project.envrc self)
    (Project.remotes self) (Project.dir self) (Project.skip_fetch self)
    (Project.apply self) (Project.plan self ++ lines)%list.

(** The actions of the remote comparator, in the words of the
    specification. *)
Inductive RemoteAction : Type :=
| AddRemote (name url : string)
| UpdateRemoteUrl (name old new : string).

(** Absent: add. Present with another URL: update. Present with the same
    string: nothing. *)
Definition remote_action (name url : string) (observed : option string)
    : list RemoteAction :=
  match observed with
  | None => [AddRemote name url]
  | Some actual =>
      if String.eqb actual url then [] else [UpdateRemoteUrl name actual url]
  end.

(** Every declared remote on its own, in the order of the declaration. *)
Definition compare_remotes (declared observed : PyDict.dict string) : list RemoteAction :=
  flat_map (fun '(name, url) => remote_action name url (PyDict.get name observed)) declared.

(** The lines of the plan that show an action. *)
Definition show_action (a : RemoteAction) : list string :=
  match a with
  | AddRemote name url => [Project.line_add_remote name url]
  | UpdateRemoteUrl name old new =>
      [Project.line_update_remote name; Project.line_from old; Project.line_to new]
  end.

(** The command that carries out an action. *)
Definition action_argv (dir : Path) (a : RemoteAction) : list string :=
  match a with
  | AddRemote name url => ["git"; "-C"; PurePath.to_str dir; "remote"; "add"; name; url]
  | UpdateRemoteUrl name _ new =>
      ["git"; "-C"; PurePath.to_str dir; "remote"; "set-url"; name; new]
  end.

(** Commands that only read. *)
Definition is_get_url (argv : list string) : bool :=
  match argv with
  | [a; b; _; c; d; _] =>
      String.eqb a "git" && String.eqb b "-C" && String.eqb c "remote" && String.eqb d "get-url"
  | _ => false
  end.

Definition is_list_remotes (argv : list string) : bool :=
  match argv with
  | [a; b; _; c] => String.eqb a "git" && String.eqb b "-C" && String.eqb c "remote"
  | _ => false
  end.

Definition is_status (argv : list string) : bool :=
  match argv with
  | [a; b] => String.eqb a "direnv" && String.eqb b "status"
  | _ => false
  end.

Definition is_query (argv : list string) : bool :=
  is_get_url argv || is_list_remotes argv || is_status argv.

(** An event that changes nothing outside: a query or a printed line. *)
Definition read_only (e : Event) : bool :=
  match e with
  | Ran argv _ _ _ => is_query argv
  | Printed _ => true
  | MadeDirs _ | Wrote _ _ => false
  end.

(** A call of an external tool that is not a query. *)
Definition mutating_call (e : Event) : bool :=
  match e with
  | Ran argv _ _ _ => negb (is_query argv)
  | _ => false
  end.

(** The two commands of the sync step. *)
Definition is_sync (dir : Path) (e : Event) : bool :=
  match e with
  | Ran argv _ _ _ =>
      if list_eq_dec string_dec argv (fetch_argv dir) then true
      else if list_eq_dec string_dec argv (submodule_argv dir) then true else false
  | _ => false
  end.

(** A call that ended with a non-zero status. *)
Definition failed (e : Event) : bool :=
  match e with
  | Ran _ _ _ rc => negb (rc =? 0)%Z
  | _ => false
  end.

(** The failed call the program lives with: a remote-URL lookup made with
    [raise_err=True]. *)
Definition tolerated (e : Event) : bool :=
  match e with
  | Ran argv true _ rc => negb (rc =? 0)%Z && is_get_url argv
  | _ => false
  end.

(** A failed call made with [raise_err=False]. *)
Definition fatal (e : Event) : bool :=
  match e with
  | Ran _ false _ rc => negb (rc =? 0)%Z
  | _ => false
  end.

(** The command lines of the remote-URL lookups of a trace, in order. *)
Definition lookups (t : list Event) : list (list string) :=
  flat_map (fun e => match e with
                     | Ran argv _ _ _ => if is_get_url argv then [argv] else []
                     | _ => []
                     end) t.

(** An event that is no remote-URL lookup. *)
Definition no_lookup (e : Event) : bool :=
  match e with
  | Ran argv _ _ _ => negb (is_get_url argv)
  | _ => true
  end.

(** Two calls of the same command line. *)
Definition same_command (e e' : Event) : bool :=
  match e, e' with
  | Ran argv _ _ _, Ran argv' _ _ _ =>
      if list_eq_dec string_dec argv argv' then true else false
  | _, _ => false
  end.

(** An event after which the run goes on; [tol] says whether tolerated
    lookups may occur. *)
Definition benign (tol : bool) (e : Event) : bool :=
  negb (failed e) || (tol && tolerated e).

(** The trace ends with a fatal call and is benign before it. *)
Definition ends_fatal (tol : bool) (t : list Event) : Prop :=
  exists pre e, t = (pre ++ [e])%list /\ forallb (benign tol) pre = true /\ fatal e = true.

(** Fail-stop discipline of a result and its trace: the process exits
    with [EX_OSERR] exactly at a fatal call, which is then the last event;
    otherwise every event is benign. *)
Definition fail_stop {A} (tol : bool) (r : Res A) (t : list Event) : Prop :=
  match r with
  | Exit c => if (c =? EX_OSERR)%Z then ends_fatal tol t else forallb (benign tol) t = true
  | _ => forallb (benign tol) t = true
  end.

(** The lines printed, in order. *)
Definition printed (t : list Event) : list string :=
  flat_map (fun e => match e with Printed line => [line] | _ => [] end) t.

(** [p] is [base] or below it. *)
Fixpoint is_prefix (a b : list string) : bool :=
  match a, b with
  | [], _ => true
  | x :: a', y :: b' => String.eqb x y && is_prefix a' b'
  | _ :: _, [] => false
  end.

Definition inside (base p : Path) : bool :=
  Bool.eqb (PurePath.absolute base) (PurePath.absolute p)
  && is_prefix (PurePath.parts base) (PurePath.parts p).

(** A string that [pathlib] reads as a relative path without [..]. *)
Definition plain (s : string) : Prop :=
  PurePath.absolute (PurePath.parse s) = false
  /\ ~ In ".." (PurePath.parts (PurePath.parse s)).

(** A fold that stops at the first step that does not return. *)
Fixpoint fold_res {S X} (f : S -> X -> Res S) (l : list X) (s : S) : Res S :=
  match l with
  | [] => Ok s
  | x :: r =>
      match f s x with
      | Ok s' => fold_res f r s'
      | Exit c => Exit c
      | Raise e => Raise e
      end
  end.

(** All the readings of a list, when each succeeds. *)
Fixpoint collect {X E} (rd : X -> option (list E)) (l : list X) : option (list E) :=
  match l with
  | [] => Some []
  | x :: r =>
      match rd x, collect rd r with
      | Some es, Some rest => Some (es ++ rest)%list
      | _, _ => None
      end
  end.

Definition ok_value {A} (r : Res A) : option A :=
  match r with Ok a => Some a | _ => None end.

(** [config["project"][k] = v] for each entry in turn. *)
Definition merge (entries : list (string * ProjectData)) (config : Config) : Res Config :=
  fold_res (fun c '(k, v) => update.set_project c k v) entries config.

(** A remote-URL lookup of the reconciler. *)
Definition is_lookup (e : Event) : bool :=
  match e with
  | Ran argv true None _ => is_get_url argv
  | _ => false
  end.

Section WithSystem.
Context {W : Type} `{System W}.

(** The event of the lookup of [remote] in the world [w]. *)
Definition lookup_event (dir : Path) (w : W) (remote : string) : Event :=
  Ran (get_url_argv dir remote) true None
      (returncode (fst (subprocess_run (get_url_argv dir remote) None w))).

(** One declared remote in apply mode, in the words of the specification:
    the lookup, then the command of the comparator's action, if any; a
    command that fails stops the process. *)
Definition apply_remote (self : Project.t) (name url : string) (w : W)
    : Res Project.t * W * list Event :=
  let dir := Project.dir self in
  let look := subprocess_run (get_url_argv dir name) None w in
  after [lookup_event dir w name]
    match remote_action name url (answer (fst look)) with
    | [] => (Ok self, snd look, [])
    | action :: _ =>
        let c := subprocess_run (action_argv dir action) None (snd look) in
        (if (returncode (fst c) =? 0)%Z then Ok self else Exit EX_OSERR,
         snd c,
         [Ran (action_argv dir action) false None (returncode (fst c))])
    end.

(** The declared remotes in apply mode: one after the other, each in the
    world the commands before it left, up to the first command that
    fails. *)
Fixpoint apply_remotes (self : Project.t) (declared : PyDict.dict string) (w : W)
    : Res Project.t * W * list Event :=
  match declared with
  | [] => (Ok self, w, [])
  | (name, url) :: rest =>
      match apply_remote self name url w with
      | (Ok _, w1, t1) => after t1 (apply_remotes self rest w1)
      | stopped => stopped
      end
  end.

(** Queries leave the world as it is. *)
Definition queries_read_only : Prop :=
  forall argv cwd w, is_query argv = true -> snd (subprocess_run argv cwd w) = w.

(** The lookup of [remote] in [dir] answers [observed]. *)
Definition lookup_is (dir : Path) (w : W) (remote : string) (observed : option string) : Prop :=
  answer (fst (subprocess_run (get_url_argv dir remote) None w)) = observed.

(** [observed] is what the lookups of the declared remotes answer. *)
Definition observes (self : Project.t) (w : W) (observed : PyDict.dict string) : Prop :=
  forall name url, In (name, url) (Project.remotes self) ->
    lookup_is (Project.dir self) w name (PyDict.get name observed).

(** The key and the entry the discovery makes of a repository. *)
Definition config_name (group_dir project_dir : Path) : string :=
  PurePath.name group_dir ++ "." ++ PurePath.name project_dir.

Definition entry (group_dir project_dir : Path) (remotes : PyDict.dict string)
    (marker : bool) : ProjectData :=
  {| d_name := Some (PurePath.name project_dir);
     d_group := Some (PurePath.name group_dir);
     d_envrc := if marker then Some true else None;
     d_remotes := Some remotes |}.

(** What the discovery reads of one directory in the world [w]: the
    entries it has to store (none or one), or how the reading fails. *)
Definition scan (w : W) (group_dir project_dir : Path)
    : Res (list (string * ProjectData)) :=
  if is_dir (project_dir // ".git") w then
    match fst (fst (update.get_remotes project_dir w)) with
    | Ok [] => Ok []
    | Ok remotes =>
        match fst (fst (envrc.has_envrc project_dir w)) with
        | Ok marker =>
            Ok [(config_name group_dir project_dir,
                 entry group_dir project_dir remotes marker)]
        | Exit c => Exit c
        | Raise e => Raise e
        end
    | Exit c => Exit c
    | Raise e => Raise e
    end
  else Ok [].

(** The entries of a directory whose reading succeeds. *)
Definition discovered (w : W) (group_dir project_dir : Path)
    : list (string * ProjectData) :=
  match scan w group_dir project_dir with
  | Ok entries => entries
  | _ => []
  end.

(** The directories two levels below [repo_dir], with their group. *)
Definition candidates (w : W) (repo_dir : Path) : list (Path * Path) :=
  match iterdir repo_dir w with
  | Some groups =>
      flat_map (fun g => match iterdir g w with
                         | Some projects => map (pair g) projects
                         | None => []
                         end) groups
  | None => []
  end.

(** All the entries of a walk, in the order of the walk. *)
Definition discoveries (w : W) (repo_dir : Path) : list (string * ProjectData) :=
  flat_map (fun '(g, p) => discovered w g p) (candidates w repo_dir).

(** [table[k] = v] for each entry in turn. *)
Definition store_all (entries : list (string * ProjectData))
    (table : PyDict.dict ProjectData) : PyDict.dict ProjectData :=
  fold_left (fun t '(k, v) => PyDict.set k v t) entries table.

(** The observed state matches the declaration. *)
Definition converged (self : Project.t) (w : W) : Prop :=
  is_dir (Project.dir self) w = true /\
  is_dir (Project.dir self // ".git") w = true /\
  (forall name url, In (name, url) (Project.remotes self) ->
     lookup_is (Project.dir self) w name (Some url)) /\
  (Project.envrc self = true ->
     path_exists (Project.dir self // ".envrc") w = true /\
     (let c := fst (subprocess_run status_argv (Some (Project.dir self)) w) in
      returncode c = 0%Z /\
      PyStr.contains "Found RC allowed true" (PyStr.strip (stdout c)) = true) /\
     path_exists (Project.dir self // ".venv") w = true).
End WithSystem.

End Spec.

(* ################################################################# *)
(** * Concrete scenarios on the fake system *)

Module Scenario.

Definition root : Path := PurePath.parse "/".
Definition base : Path := PurePath.parse "/base".
Definition repo : Path := PurePath.parse "/base/g/p".

Definition world (dirs : list Path) (files : list (Path * string))
    (remotes : PyDict.dict string) (allowed : list Path) (faulty : list (list string))
    : Fake.World :=
  {| Fake.cwd := root; Fake.dirs := dirs; Fake.files := files;
     Fake.git_remotes := [(repo, remotes)]; Fake.allowed := allowed; Fake.faulty := faulty |}.

(** Only the base directory. *)
Definition w_absent : Fake.World := world [root; base] [] [] [] [].

(** The directory is there, not initialized. *)
Definition w_plain_dir : Fake.World :=
  world [root; base; PurePath.parse "/base/g"; repo] [] [] [] [].

(** Initialized, no remote, no environment. *)
Definition w_bare : Fake.World :=
  world [root; base; PurePath.parse "/base/g"; repo; repo // ".git"] [] [] [] [].

(** Initialized with [origin], environment file allowed, venv present. *)
Definition w_converged : Fake.World :=
  world [root; base; PurePath.parse "/base/g"; repo; repo // ".git"; repo // ".venv"]
        [(repo // ".envrc", "source .venv/bin/activate")]
        [("origin", "https://x/p.git")] [repo] [].

(** As [w_converged], with the lookup of [origin] made to fail. *)
Definition w_faulty : Fake.World :=
  world [root; base; PurePath.parse "/base/g"; repo; repo // ".git"; repo // ".venv"]
        [(repo // ".envrc", "source .venv/bin/activate")]
        [("origin", "https://x/p.git")] [repo]
        [Spec.get_url_argv repo "origin"].

Definition data (envrc : bool) (remotes : PyDict.dict string) : ProjectData :=
  {| d_name := Some "p"; d_group := Some "g"; d_envrc := Some envrc;
     d_remotes := Some remotes |}.

Definition group : Path := PurePath.parse "/base/g".

(** A plain file next to the groups. *)
Definition w_stray : Fake.World :=
  {| Fake.cwd := root; Fake.dirs := [root; base];
     Fake.files := [(PurePath.parse "/base/README", "notes")];
     Fake.git_remotes := []; Fake.allowed := []; Fake.faulty := [] |}.

(** A declaration with the [repo-dir] table only. *)
Definition only_repo_dir : Config :=
  {| cfg_repo_dir := Some "/base"; cfg_project := None |}.

(** A declaration with an entry whose repository is gone and a stale
    entry for the repository on disk. *)
Definition gone : ProjectData :=
  {| d_name := Some "old"; d_group := Some "attic"; d_envrc := None;
     d_remotes := Some [("origin", "https://x/old.git")] |}.

Definition declared : Config :=
  {| cfg_repo_dir := None;
     cfg_project := Some [("attic.old", gone); ("g.p", data false [])] |}.

(** Two repositories whose group and name give the same key, [a.b.c]. *)
Definition w_collide : Fake.World :=
  {| Fake.cwd := root;
     Fake.dirs := [root; base;
                   PurePath.parse "/base/a.b"; PurePath.parse "/base/a.b/c";
                   PurePath.parse "/base/a.b/c/.git";
                   PurePath.parse "/base/a"; PurePath.parse "/base/a/b.c";
                   PurePath.parse "/base/a/b.c/.git"];
     Fake.files := [];
     Fake.git_remotes := [(PurePath.parse "/base/a.b/c", [("origin", "u1")]);
                          (PurePath.parse "/base/a/b.c", [("origin", "u2")])];
     Fake.allowed := []; Fake.faulty := [] |}.

Definition project (action : string) (skip_fetch envrc : bool)
    (remotes : PyDict.dict string) : Project.t :=
  Project.mk "p" "g" envrc remotes repo skip_fetch (String.eqb action "apply") [].

End Scenario.

(* ################################################################# *)
(** * Checks of the embedding on concrete inputs *)

Example repr_plain : PyStr.repr "my-repo" = "'my-repo'".
Proof. reflexivity. Qed.

Example repr_quote : PyStr.repr "it's" = String PyStr.dquote ("it's" ++ String PyStr.dquote "").
Proof. reflexivity. Qed.

Example resolve_dotdot :
  PurePath.to_str (PurePath.resolve (PurePath.parse "/") (PurePath.parse "/home/u/dev" // ".." // "..")) = "/home".
Proof. reflexivity. Qed.

Example splitlines_ex :
  PyStr.splitlines_from "" ("origin" ++ Fake.nl ++ "upstream") = ["origin"; "upstream"].
Proof. reflexivity. Qed.

Example init_scenario :
  Project.init Scenario.root (Scenario.data true []) Scenario.base "plan" false
  = Ok (Scenario.project "plan" false true []).
Proof. reflexivity. Qed.

(* ################################################################# *)
(** * Equations of the monad *)

Section MonadLaws.
Context {W : Type}.

Lemma bind_ret {A B} (a : A) (k : A -> M W B) w : bind (ret a) k w = k a w.
Proof. unfold bind, ret. destruct (k a w) as [[r w2] t2]. reflexivity. Qed.

Lemma bind_observe {A B} (f : W -> A) (k : A -> M W B) w :
  bind (observe f) k w = k (f w) w.
Proof. unfold bind, observe. destruct (k (f w) w) as [[r w2] t2]. reflexivity. Qed.

Lemma bind_exit {A B} c (k : A -> M W B) w : bind (exit c) k w = (Exit c, w, []).
Proof. reflexivity. Qed.

Lemma bind_raise {A B} e (k : A -> M W B) w : bind (raise e) k w = (Raise e, w, []).
Proof. reflexivity. Qed.

(** The three ways a sequence ends. *)
Lemma bind_ok {A B} (m : M W A) (k : A -> M W B) w a w1 t1 :
  m w = (Ok a, w1, t1) -> bind m k w = after t1 (k a w1).
Proof. intros E. unfold bind, after. rewrite E. reflexivity. Qed.

Lemma after_nil {A} (x : Res A * W * list Event) : after [] x = x.
Proof. destruct x as [[r w] t]. reflexivity. Qed.

Lemma after_after {A} t1 t2 (x : Res A * W * list Event) :
  after t1 (after t2 x) = after (t1 ++ t2) x.
Proof. destruct x as [[r w] t]. cbn. rewrite app_assoc. reflexivity. Qed.

Lemma bind_stop_exit {A B} (m : M W A) (k : A -> M W B) w c w1 t1 :
  m w = (Exit c, w1, t1) -> bind m k w = (Exit c, w1, t1).
Proof. intros E. unfold bind. rewrite E. reflexivity. Qed.

Lemma bind_stop_raise {A B} (m : M W A) (k : A -> M W B) w e w1 t1 :
  m w = (Raise e, w1, t1) -> bind m k w = (Raise e, w1, t1).
Proof. intros E. unfold bind. rewrite E. reflexivity. Qed.

Lemma bind_assoc {A B C} (m : M W A) (f : A -> M W B) (g : B -> M W C) w :
  bind (bind m f) g w = bind m (fun a => bind (f a) g) w.
Proof.
  unfold bind. destruct (m w) as [[[a| |] w1] t1]; try reflexivity.
  destruct (f a w1) as [[[b| |] w2] t2]; try reflexivity.
  destruct (g b w2) as [[r w3] t3]. rewrite app_assoc. reflexivity.
Qed.
End MonadLaws.

(* ################################################################# *)
(** * The fail-stop discipline *)

Section Discipline.
Context {W : Type} `{System W}.

(** [m] keeps the fail-stop discipline and its results satisfy [Q]. *)
Definition triple {A} (tol : bool) (m : M W A) (Q : Res A -> Prop) : Prop :=
  forall w r w' t, m w = (r, w', t) -> Spec.fail_stop tol r t /\ Q r.

(** How a step ends when it can only return [a] or stop the process at a
    fatal call. *)
Definition keeps {A} (a : A) (r : Res A) : Prop :=
  match r with
  | Ok a' => a' = a
  | Exit c => c = EX_OSERR
  | Raise _ => False
  end.

(** No condition on the result. *)
Definition any {A} (_ : Res A) : Prop := True.

(** It returns a value that satisfies [I] or stops at a fatal call. *)
Definition stops_with {A} (I : A -> Prop) (r : Res A) : Prop :=
  match r with
  | Ok a => I a
  | Exit c => c = EX_OSERR
  | Raise _ => False
  end.

Lemma fail_stop_ok_benign {A} tol (a : A) t :
  Spec.fail_stop tol (Ok a) t -> forallb (Spec.benign tol) t = true.
Proof. exact (fun x => x). Qed.

Lemma fail_stop_after {A} tol (r : Res A) t1 t2 :
  forallb (Spec.benign tol) t1 = true ->
  Spec.fail_stop tol r t2 -> Spec.fail_stop tol r (t1 ++ t2).
Proof.
  intros H1 H2.
  assert (Hb : forallb (Spec.benign tol) t2 = true ->
               forallb (Spec.benign tol) (t1 ++ t2) = true).
  { intros Hb. rewrite forallb_app, H1, Hb. reflexivity. }
  destruct r as [a|c|e]; cbn in *; try (apply Hb; exact H2).
  destruct (c =? EX_OSERR)%Z; [|apply Hb; exact H2].
  destruct H2 as (pre & e & -> & Hpre & He).
  exists (t1 ++ pre)%list, e. rewrite app_assoc, forallb_app, H1, Hpre. auto.
Qed.

Lemma triple_weaken {A} tol (m : M W A) (Q Q' : Res A -> Prop) :
  triple tol m Q -> (forall r, Q r -> Q' r) -> triple tol m Q'.
Proof. intros Hm HQ w r w' t E. destruct (Hm _ _ _ _ E). auto. Qed.

Lemma triple_ret {A} tol (a : A) (Q : Res A -> Prop) :
  Q (Ok a) -> triple tol (ret a) Q.
Proof. intros HQ w r w' t E. injection E as <- <- <-. split; [reflexivity | exact HQ]. Qed.

Lemma triple_observe {A} tol (f : W -> A) (Q : Res A -> Prop) :
  (forall a, Q (Ok a)) -> triple tol (observe f) Q.
Proof. intros HQ w r w' t E. injection E as <- <- <-. split; [reflexivity | apply HQ]. Qed.

Lemma triple_raise {A} tol e (Q : Res A -> Prop) :
  Q (Raise e) -> triple tol (raise e) Q.
Proof. intros HQ w r w' t E. injection E as <- <- <-. split; [reflexivity | exact HQ]. Qed.

Lemma triple_exit {A} tol c (Q : Res A -> Prop) :
  (c =? EX_OSERR)%Z = false -> Q (Exit c) -> triple tol (exit c) Q.
Proof.
  intros Hc HQ w r w' t E. injection E as <- <- <-. split; [|exact HQ].
  cbn. rewrite Hc. reflexivity.
Qed.

Lemma triple_act tol f e (Q : Res unit -> Prop) :
  Spec.failed e = false -> Q (Ok tt) -> triple tol (act f e) Q.
Proof.
  intros He HQ w r w' t E. injection E as <- <- <-. split; [|exact HQ].
  cbn. unfold Spec.benign. rewrite He. reflexivity.
Qed.

Lemma triple_emit tol e (Q : Res unit -> Prop) :
  Spec.failed e = false -> Q (Ok tt) -> triple tol (emit e) Q.
Proof.
  intros He HQ w r w' t E. injection E as <- <- <-. split; [|exact HQ].
  cbn. unfold Spec.benign. rewrite He. reflexivity.
Qed.

Lemma triple_bind {A B} tol (m : M W A) (k : A -> M W B)
    (Q1 : Res A -> Prop) (Q2 : Res B -> Prop) :
  triple tol m Q1 ->
  (forall a, Q1 (Ok a) -> triple tol (k a) Q2) ->
  (forall c, Q1 (Exit c) -> Q2 (Exit c)) ->
  (forall e, Q1 (Raise e) -> Q2 (Raise e)) ->
  triple tol (bind m k) Q2.
Proof.
  intros Hm Hk Hx Hr w r w' t E. unfold bind in E.
  destruct (m w) as [[r1 w1] t1] eqn:Em.
  destruct (Hm _ _ _ _ Em) as [Hf HQ].
  destruct r1 as [a|c|e].
  - destruct (k a w1) as [[r2 w2] t2] eqn:Ek. injection E as <- <- <-.
    destruct (Hk a HQ _ _ _ _ Ek) as [Hf2 HQ2].
    split; [|exact HQ2]. apply fail_stop_after; assumption.
  - injection E as <- <- <-. split; [exact Hf | apply Hx; exact HQ].
  - injection E as <- <- <-. split; [exact Hf | apply Hr; exact HQ].
Qed.

(** A loop whose body returns the accumulator unchanged or stops. *)
Lemma triple_for_each_keeps {S X} tol (l : list X) (body : S -> X -> M W S) (s : S) :
  (forall x, triple tol (body s x) (keeps s)) ->
  triple tol (for_each l body s) (keeps s).
Proof.
  intros Hb. induction l as [|x l IH]; cbn [for_each].
  - apply triple_ret. reflexivity.
  - eapply triple_bind; [apply Hb | | |].
    + intros a Ha. cbn in Ha. subst a. exact IH.
    + intros c Hc. exact Hc.
    + intros e He. exact He.
Qed.

(** A loop whose body keeps an invariant of the accumulator. *)
Lemma triple_for_each_inv {S X} tol (l : list X) (body : S -> X -> M W S)
    (I : S -> Prop) :
  (forall s x, I s -> triple tol (body s x) (stops_with I)) ->
  forall s, I s -> triple tol (for_each l body s) (stops_with I).
Proof.
  intros Hb. induction l as [|x l IH]; intros s Hs; cbn [for_each].
  - apply triple_ret. exact Hs.
  - eapply triple_bind; [apply Hb; exact Hs | | |].
    + intros a Ha. apply IH. exact Ha.
    + intros c Hc. exact Hc.
    + intros e He. exact He.
Qed.

(** A loop whose body keeps the discipline. *)
Lemma triple_for_each_any {S X} tol (l : list X) (body : S -> X -> M W S)
    (E : Exn -> Prop) :
  (forall s x, triple tol (body s x)
                 (fun r => match r with Raise e => E e | _ => True end)) ->
  forall s, triple tol (for_each l body s)
              (fun r => match r with Raise e => E e | _ => True end).
Proof.
  intros Hb. induction l as [|x l IH]; intros s; cbn [for_each].
  - apply triple_ret. exact I.
  - eapply triple_bind; [apply Hb | | |].
    + intros a _. apply IH.
    + intros c _. exact I.
    + intros e He. exact He.
Qed.

(** [run_command] with [raise_err=False]: the output, or the process
    stops at the failed call. *)
Lemma triple_run_command tol command cwd :
  triple tol (util.run_command command false cwd)
    (fun r => match r with
              | Ok _ => True
              | Exit c => c = EX_OSERR
              | Raise e => e = TypeError /\ util.all_str command = None
              end).
Proof.
  intros w r w' t E. unfold util.run_command in E.
  destruct (util.all_str command) as [argv|] eqn:Ec.
  - destruct (subprocess_run argv cwd w) as [c w1].
    destruct (returncode c =? 0)%Z eqn:Erc; injection E as <- <- <-.
    + split; [|exact I]. cbn. unfold Spec.benign. cbn. rewrite Erc. reflexivity.
    + split; [|reflexivity]. cbn. exists [], (Ran argv false cwd (returncode c)).
      cbn. rewrite Erc. auto.
  - injection E as <- <- <-. split; [reflexivity | auto].
Qed.

(** The command lines that are all strings never raise. *)
Lemma triple_run_command_str tol command argv cwd :
  util.all_str command = Some argv ->
  triple tol (util.run_command command false cwd) (stops_with (fun _ => True)).
Proof.
  intros Ec. eapply triple_weaken; [apply triple_run_command|].
  intros [a|c|e]; cbn; auto. intros [_ He]. rewrite Ec in He. discriminate.
Qed.

(** A command, then a fixed value. *)
Lemma triple_run_then {A} tol command argv cwd (a : A) (I : A -> Prop) :
  util.all_str command = Some argv ->
  I a ->
  triple tol (util.run_command command false cwd ;; ret a) (stops_with I).
Proof.
  intros Ec Ha. eapply triple_bind; [eapply triple_run_command_str; exact Ec | | |].
  - intros x _. apply triple_ret. exact Ha.
  - intros c Hc. exact Hc.
  - intros e [].
Qed.

Lemma triple_then {A B} tol (m : M W A) (b : B) (I : B -> Prop) :
  triple tol m (stops_with (fun _ => True)) ->
  I b ->
  triple tol (m ;; ret b) (stops_with I).
Proof.
  intros Hm Hb. eapply triple_bind; [exact Hm | | |].
  - intros x _. apply triple_ret. exact Hb.
  - intros c Hc. exact Hc.
  - intros e [].
Qed.

(** Sequencing of steps that return or stop. *)
Lemma triple_seq {A B} tol (m : M W A) (k : A -> M W B)
    (I : A -> Prop) (J : B -> Prop) :
  triple tol m (stops_with I) ->
  (forall a, I a -> triple tol (k a) (stops_with J)) ->
  triple tol (bind m k) (stops_with J).
Proof.
  intros Hm Hk. eapply triple_bind; [exact Hm | exact Hk | |].
  - intros c Hc. exact Hc.
  - intros e [].
Qed.

(** Sequencing when only the discipline matters. *)
Lemma sound_bind {A B} tol (m : M W A) (k : A -> M W B) :
  triple tol m any -> (forall a, triple tol (k a) any) -> triple tol (bind m k) any.
Proof.
  intros Hm Hk. eapply triple_bind; [exact Hm | intros a _; apply Hk | |];
    intros; exact I.
Qed.

Lemma sound_of {A} tol (m : M W A) (Q : Res A -> Prop) : triple tol m Q -> triple tol m any.
Proof. intros Hm. eapply triple_weaken; [exact Hm|]. intros; exact I. Qed.

Lemma sound_for_each {S X} tol (l : list X) (body : S -> X -> M W S) :
  (forall s x, triple tol (body s x) any) -> forall s, triple tol (for_each l body s) any.
Proof.
  intros Hb. induction l as [|x l IH]; intros s; cbn [for_each].
  - apply triple_ret. exact I.
  - apply sound_bind; [apply Hb | intros a; apply IH].
Qed.

(** ** Computations that print nothing *)

Definition quiet {A} (m : M W A) : Prop :=
  forall w, Spec.printed (snd (m w)) = [].

Lemma printed_app t1 t2 :
  Spec.printed (t1 ++ t2) = (Spec.printed t1 ++ Spec.printed t2)%list.
Proof. apply flat_map_app. Qed.

Lemma quiet_ret {A} (a : A) : quiet (ret a).
Proof. intros w. reflexivity. Qed.

Lemma quiet_observe {A} (f : W -> A) : quiet (observe f).
Proof. intros w. reflexivity. Qed.

Lemma quiet_raise {A} e : quiet (raise (A := A) e).
Proof. intros w. reflexivity. Qed.

Lemma quiet_exit {A} c : quiet (exit (A := A) c).
Proof. intros w. reflexivity. Qed.

Lemma quiet_act f e : Spec.printed [e] = [] -> quiet (act f e).
Proof. intros He w. exact He. Qed.

Lemma quiet_bind {A B} (m : M W A) (k : A -> M W B) :
  quiet m -> (forall a, quiet (k a)) -> quiet (bind m k).
Proof.
  intros Hm Hk w. unfold bind. specialize (Hm w).
  destruct (m w) as [[[a|c|e] w1] t1]; cbn [snd] in *; try exact Hm.
  specialize (Hk a w1). destruct (k a w1) as [[r w2] t2]. cbn [snd] in *.
  rewrite printed_app, Hm, Hk. reflexivity.
Qed.

Lemma quiet_try_except {A} (m h : M W A) e : quiet m -> quiet h -> quiet (try_except m e h).
Proof.
  intros Hm Hh w. unfold try_except. specialize (Hm w).
  destruct (m w) as [[[a|c|e'] w1] t1]; cbn [snd] in *; try exact Hm.
  destruct (match e with TypeError => _ | _ => _ end); [|exact Hm].
  specialize (Hh w1). destruct (h w1) as [[r w2] t2]. cbn [snd] in *.
  rewrite printed_app, Hm, Hh. reflexivity.
Qed.

Lemma quiet_run_command command raise_err cwd :
  quiet (util.run_command command raise_err cwd).
Proof.
  intros w. unfold util.run_command.
  destruct (util.all_str command) as [argv|]; [|reflexivity].
  destruct (subprocess_run argv cwd w) as [c w1].
  destruct (returncode c =? 0)%Z; [reflexivity|]. destruct raise_err; reflexivity.
Qed.

Lemma quiet_for_each {S X} (l : list X) (body : S -> X -> M W S) :
  (forall s x, quiet (body s x)) -> forall s, quiet (for_each l body s).
Proof.
  intros Hb. induction l as [|x l IH]; intros s; cbn [for_each].
  - apply quiet_ret.
  - apply quiet_bind; [apply Hb | intros a; apply IH].
Qed.

(** What the discipline says of a failed call in the trace: it is a
    tolerated lookup, or it is the last event and the process exits with
    [EX_OSERR]. *)
Lemma fail_stop_failed_event {A} tol (r : Res A) t pre e post :
  Spec.fail_stop tol r t ->
  t = (pre ++ e :: post)%list ->
  Spec.failed e = true ->
  (tol = true /\ Spec.tolerated e = true)
  \/ (post = [] /\ Spec.fatal e = true /\ r = Exit EX_OSERR).
Proof.
  intros Hf -> He.
  assert (Hben : forall l, forallb (Spec.benign tol) l = true -> In e l ->
                 tol = true /\ Spec.tolerated e = true).
  { intros l Hl Hin. rewrite forallb_forall in Hl. specialize (Hl e Hin).
    unfold Spec.benign in Hl. rewrite He in Hl. cbn in Hl.
    apply andb_prop in Hl. exact Hl. }
  assert (Hin : In e (pre ++ e :: post)) by (apply in_or_app; right; left; reflexivity).
  destruct r as [a|c|x]; cbn in Hf; try (left; apply (Hben _ Hf Hin)).
  destruct (c =? EX_OSERR)%Z eqn:Ec; [|left; apply (Hben _ Hf Hin)].
  apply Z.eqb_eq in Ec. subst c.
  destruct Hf as (pre' & e' & Et & Hpre & Hfat).
  destruct post as [|x post] using rev_ind.
  - apply app_inj_tail in Et as [-> ->]. right. auto.
  - clear IHpost. rewrite app_comm_cons, app_assoc in Et.
    apply app_inj_tail in Et as [<- ->].
    left. apply (Hben _ Hpre). apply in_or_app. right. left. reflexivity.
Qed.
End Discipline.

(* ################################################################# *)
(** * The reconciler *)

Section Reconciler.
Context {W : Type} `{System W}.

Lemma init_ok cwd data repo_dir action skip_fetch self :
  Project.init cwd data repo_dir action skip_fetch = Ok self ->
  exists name group,
    d_name data = Some name /\ d_group data = Some group /\
    self = Project.mk name group
             (match d_envrc data with Some b => b | None => false end)
             (match d_remotes data with Some r => r | None => [] end)
             (PurePath.resolve cwd (repo_dir // group // name))
             skip_fetch (String.eqb action "apply") [].
Proof.
  unfold Project.init.
  destruct (d_name data) as [n|]; [|discriminate].
  destruct (d_group data) as [g|]; [|discriminate].
  intros E. injection E as <-. eauto.
Qed.

Lemma init_plan_mode cwd data repo_dir skip_fetch self :
  Project.init cwd data repo_dir "plan" skip_fetch = Ok self ->
  Project.apply self = false /\ Project.plan self = [].
Proof.
  intros E. apply init_ok in E as (n & g & _ & _ & ->). split; reflexivity.
Qed.

Lemma init_apply_mode cwd data repo_dir skip_fetch self :
  Project.init cwd data repo_dir "apply" skip_fetch = Ok self ->
  Project.apply self = true /\ Project.plan self = [].
Proof.
  intros E. apply init_ok in E as (n & g & _ & _ & ->). split; reflexivity.
Qed.

Lemma all_str_map (argv : list string) : util.all_str (map Some argv) = Some argv.
Proof. induction argv as [|a l IH]; cbn; [reflexivity | rewrite IH; reflexivity]. Qed.

Lemma run_command_eq command argv raise_err cwd w :
  util.all_str command = Some argv ->
  util.run_command command raise_err cwd w
  = ((let c := fst (subprocess_run argv cwd w) in
      if (returncode c =? 0)%Z then Ok (PyStr.strip (stdout c))
      else if raise_err then Raise CalledProcessError else Exit EX_OSERR),
     snd (subprocess_run argv cwd w),
     [Ran argv raise_err cwd (returncode (fst (subprocess_run argv cwd w)))]).
Proof.
  intros E. unfold util.run_command. rewrite E.
  destruct (subprocess_run argv cwd w) as [c w']. cbn [fst snd].
  destruct (returncode c =? 0)%Z; [reflexivity|]. destruct raise_err; reflexivity.
Qed.

Lemma get_remote_url_eq self remote w :
  Project.get_remote_url self remote w
  = (Ok (Spec.answer (fst (subprocess_run (Spec.get_url_argv (Project.dir self) remote) None w))),
     snd (subprocess_run (Spec.get_url_argv (Project.dir self) remote) None w),
     [Spec.lookup_event (Project.dir self) w remote]).
Proof.
  unfold Project.get_remote_url, try_except, bind.
  rewrite run_command_eq with (argv := Spec.get_url_argv (Project.dir self) remote)
    by reflexivity.
  unfold Spec.answer, Spec.lookup_event. cbv zeta.
  destruct (returncode _ =? 0)%Z; reflexivity.
Qed.

Lemma append_lines_nil self : Spec.append_lines self [] = self.
Proof. destruct self. unfold Spec.append_lines. cbn. rewrite app_nil_r. reflexivity. Qed.

Lemma append_lines_app self a b :
  Spec.append_lines (Spec.append_lines self a) b = Spec.append_lines self (a ++ b).
Proof. unfold Spec.append_lines. cbn. rewrite app_assoc. reflexivity. Qed.

Lemma plan_append_lines self line :
  Project.plan_append self line = Spec.append_lines self [line].
Proof. reflexivity. Qed.

(** One remote in plan mode: the lookup, then the lines of the action. *)
Lemma set_up_remote_plan self name url w :
  Project.apply self = false ->
  Project.set_up_remote self name url w
  = (Ok (Spec.append_lines self
           (flat_map Spec.show_action
              (Spec.remote_action name url
                 (Spec.answer (fst (subprocess_run (Spec.get_url_argv (Project.dir self) name) None w)))))),
     snd (subprocess_run (Spec.get_url_argv (Project.dir self) name) None w),
     [Spec.lookup_event (Project.dir self) w name]).
Proof.
  intros Ha. unfold Project.set_up_remote.
  erewrite bind_ok by apply get_remote_url_eq.
  destruct (Spec.answer _) as [actual|]; cbn [Spec.remote_action].
  - destruct (String.eqb actual url).
    + cbn. rewrite append_lines_nil. reflexivity.
    + rewrite Ha. cbn. rewrite !plan_append_lines, !append_lines_app. reflexivity.
  - rewrite Ha. cbn. rewrite plan_append_lines. reflexivity.
Qed.

(** The loop over the declared remotes in plan mode, when the lookups
    leave the world as it is: the lines of each remote's action, in the
    order of the declaration. *)
Lemma remotes_loop_plan observed w (l : PyDict.dict string) : forall self,
  Project.apply self = false ->
  (forall name url, In (name, url) l ->
     snd (subprocess_run (Spec.get_url_argv (Project.dir self) name) None w) = w /\
     Spec.lookup_is (Project.dir self) w name (PyDict.get name observed)) ->
  for_each l (fun self '(n, u) => Project.set_up_remote self n u) self w
  = (Ok (Spec.append_lines self (flat_map Spec.show_action (Spec.compare_remotes l observed))),
     w, map (fun '(n, _) => Spec.lookup_event (Project.dir self) w n) l).
Proof.
  induction l as [|[n u] l IH]; intros self Ha Hl.
  - cbn. rewrite append_lines_nil. reflexivity.
  - cbn [for_each].
    destruct (Hl n u) as [Hw Hans]; [left; reflexivity|].
    unfold Spec.lookup_is in Hans.
    erewrite bind_ok by (apply set_up_remote_plan; exact Ha).
    rewrite Hw, Hans.
    rewrite IH; [| exact Ha | intros n' u' Hin; apply (Hl n' u'); right; exact Hin].
    cbn [after map flat_map Spec.compare_remotes app].
    rewrite append_lines_app, <- flat_map_app. reflexivity.
Qed.

Lemma get_url_is_query dir remote : Spec.is_query (Spec.get_url_argv dir remote) = true.
Proof. reflexivity. Qed.

Lemma length_append (a b : string) :
  String.length (a ++ b) = String.length a + String.length b.
Proof. induction a as [|c a IH]; cbn; [reflexivity | rewrite IH; reflexivity]. Qed.

Lemma append_slash_differs (u : string) : String.eqb (u ++ "/") u = false.
Proof.
  apply String.eqb_neq. intros E.
  apply (f_equal String.length) in E. rewrite length_append in E. cbn in E. lia.
Qed.

(** One remote in apply mode: the lookup, then the command of the action. *)
Lemma set_up_remote_apply self name url w :
  Project.apply self = true ->
  Project.set_up_remote self name url w = Spec.apply_remote self name url w.
Proof.
  intros Ha. unfold Project.set_up_remote, Spec.apply_remote. cbv zeta.
  erewrite bind_ok by apply get_remote_url_eq. f_equal.
  destruct (Spec.answer _) as [actual|]; cbn [Spec.remote_action].
  - destruct (String.eqb actual url); [reflexivity|]. rewrite Ha.
    unfold Project.update_remote. rewrite !bind_assoc. unfold bind.
    rewrite run_command_eq
      with (argv := Spec.action_argv (Project.dir self) (Spec.UpdateRemoteUrl name actual url))
      by reflexivity.
    cbv zeta. destruct (returncode _ =? 0)%Z; reflexivity.
  - rewrite Ha. unfold Project.add_remote. rewrite !bind_assoc. unfold bind.
    rewrite run_command_eq
      with (argv := Spec.action_argv (Project.dir self) (Spec.AddRemote name url))
      by reflexivity.
    cbv zeta. destruct (returncode _ =? 0)%Z; reflexivity.
Qed.

Lemma apply_remote_same self name url w s w1 t1 :
  Spec.apply_remote self name url w = (Ok s, w1, t1) -> s = self.
Proof.
  unfold Spec.apply_remote. cbv zeta.
  destruct (Spec.remote_action _ _ _) as [|a l]; cbn [after].
  - intros E. injection E as <- _ _. reflexivity.
  - destruct (returncode _ =? 0)%Z; intros E; [|discriminate].
    injection E as <- _ _. reflexivity.
Qed.

Lemma remotes_loop_apply (l : PyDict.dict string) : forall self w,
  Project.apply self = true ->
  for_each l (fun self '(n, u) => Project.set_up_remote self n u) self w
  = Spec.apply_remotes self l w.
Proof.
  induction l as [|[n u] l IH]; intros self w Ha; [reflexivity|].
  cbn [for_each Spec.apply_remotes]. unfold bind.
  rewrite (set_up_remote_apply self n u w Ha).
  destruct (Spec.apply_remote self n u w) as [[[s|c|e] w1] t1] eqn:E; [|reflexivity..].
  apply apply_remote_same in E. subst s. rewrite (IH self w1 Ha).
  destruct (Spec.apply_remotes self l w1) as [[r2 w2] t2]. reflexivity.
Qed.

(** C3: every declared remote is compared on its own with what its lookup
    answers, by equality of the strings: absent gives an add, another
    string (a trailing slash is enough) gives an update with the old and
    the new URL, the same string gives nothing. In plan mode the loop
    adds the lines of these actions to the plan, for every declared
    remote, and changes nothing. In apply mode it runs the command of
    each action right after the lookup, one remote after the other; a
    command that fails stops the process before the remotes after it are
    looked up. *)
Theorem remotes_compared_one_by_one self w observed :
  (Project.apply self = false ->
   Spec.queries_read_only ->
   Spec.observes self w observed ->
   Project.set_up_remotes self w
   = (Ok (Spec.append_lines self
            (flat_map Spec.show_action
               (Spec.compare_remotes (Project.remotes self) observed))),
      w,
      map (fun '(n, _) => Spec.lookup_event (Project.dir self) w n) (Project.remotes self)))
  /\ (Project.apply self = true ->
      Project.set_up_remotes self w = Spec.apply_remotes self (Project.remotes self) w)
  /\ (forall name url rest action others,
        Project.apply self = true ->
        Project.remotes self = (name, url) :: rest ->
        let dir := Project.dir self in
        let look := subprocess_run (Spec.get_url_argv dir name) None w in
        let c := subprocess_run (Spec.action_argv dir action) None (snd look) in
        Spec.remote_action name url (Spec.answer (fst look)) = action :: others ->
        returncode (fst c) <> 0%Z ->
        Project.set_up_remotes self w
        = (Exit EX_OSERR, snd c,
           [Spec.lookup_event dir w name;
            Ran (Spec.action_argv dir action) false None (returncode (fst c))]))
  /\ (forall l1 l2,
        Spec.compare_remotes (l1 ++ l2)%list observed
        = (Spec.compare_remotes l1 observed ++ Spec.compare_remotes l2 observed)%list)
  /\ (forall name url, PyDict.get name observed = None ->
        Spec.compare_remotes [(name, url)] observed = [Spec.AddRemote name url])
  /\ (forall name url actual, PyDict.get name observed = Some actual -> actual <> url ->
        Spec.compare_remotes [(name, url)] observed = [Spec.UpdateRemoteUrl name actual url])
  /\ (forall name url, PyDict.get name observed = Some (url ++ "/") ->
        Spec.compare_remotes [(name, url)] observed
        = [Spec.UpdateRemoteUrl name (url ++ "/") url])
  /\ (forall name url, PyDict.get name observed = Some url ->
        Spec.compare_remotes [(name, url)] observed = []).
Proof.
  split; [|split; [|split]]; [| | |repeat split].
  - intros Ha Hq Hobs.
    unfold Project.set_up_remotes. apply remotes_loop_plan; [exact Ha|].
    intros n u Hin. split.
    + apply Hq, get_url_is_query.
    + apply (Hobs n u Hin).
  - intros Ha. unfold Project.set_up_remotes. apply remotes_loop_apply. exact Ha.
  - intros name url rest action others Ha Hr. cbv zeta. intros Hact Hrc.
    unfold Project.set_up_remotes. rewrite (remotes_loop_apply _ self w Ha), Hr.
    cbn [Spec.apply_remotes]. unfold Spec.apply_remote. cbv zeta. rewrite Hact.
    apply Z.eqb_neq in Hrc. rewrite Hrc. reflexivity.
  - intros l1 l2. unfold Spec.compare_remotes. apply flat_map_app.
  - intros n u E. unfold Spec.compare_remotes. cbn. rewrite E. reflexivity.
  - intros n u a E Hne. unfold Spec.compare_remotes. cbn. rewrite E. cbn.
    apply String.eqb_neq in Hne. rewrite Hne. reflexivity.
  - intros n u E. unfold Spec.compare_remotes. cbn. rewrite E. cbn.
    rewrite append_slash_differs. reflexivity.
  - intros n u E. unfold Spec.compare_remotes. cbn. rewrite E. cbn.
    rewrite String.eqb_refl. reflexivity.
Qed.

(** The loop in plan mode in any world: it returns, adds the lines of
    some actions and runs lookups only. *)
Lemma remotes_loop_plan_any (l : PyDict.dict string) : forall self w,
  Project.apply self = false ->
  exists actions w' t,
    for_each l (fun self '(n, u) => Project.set_up_remote self n u) self w
    = (Ok (Spec.append_lines self (flat_map Spec.show_action actions)), w', t)
    /\ forallb Spec.is_lookup t = true.
Proof.
  induction l as [|[n u] l IH]; intros self w Ha.
  - exists [], w, []. cbn. rewrite append_lines_nil. split; reflexivity.
  - cbn [for_each].
    erewrite bind_ok by (apply set_up_remote_plan; exact Ha).
    set (acts := Spec.remote_action n u _).
    set (w1 := snd (subprocess_run _ None w)).
    destruct (IH (Spec.append_lines self (flat_map Spec.show_action acts)) w1 Ha)
      as (actions & w' & t & E & Ht).
    exists (acts ++ actions)%list, w', (Spec.lookup_event (Project.dir self) w n :: t).
    rewrite E. cbn [after app]. rewrite append_lines_app, <- flat_map_app.
    split; [reflexivity|]. cbn. exact Ht.
Qed.

Lemma allow_line_is_no_action name a :
  ~ In (Project.line_allow_envrc name) (Spec.show_action a).
Proof.
  destruct a as [n u | n old new]; cbn; intros Hin;
    repeat (destruct Hin as [Hin | Hin]; [discriminate Hin|]); exact Hin.
Qed.

Lemma allow_line_not_in_actions name actions :
  ~ In (Project.line_allow_envrc name) (flat_map Spec.show_action actions).
Proof.
  intros Hin. apply in_flat_map in Hin as (a & _ & Hin).
  exact (allow_line_is_no_action _ _ Hin).
Qed.

(** Past the two gates. *)
Lemma run_past_gates self w :
  is_dir (Project.dir self) w = true ->
  is_dir (Project.dir self // ".git") w = true ->
  Project.run self w = Project.run_steps self w.
Proof.
  intros Hd Hg.
  unfold Project.run, Project.run_inited, util.dir_exists, util.is_inited.
  rewrite bind_observe, Hd. cbn [negb].
  rewrite bind_observe, Hg. reflexivity.
Qed.

Lemma setup_envrc_plan_missing self w :
  Project.apply self = false ->
  path_exists (Project.dir self // ".envrc") w = false ->
  Project.setup_envrc self w
  = (Ok (Spec.append_lines self [Project.line_create_envrc (Project.name self)]), w, []).
Proof.
  intros Ha Hf. unfold Project.setup_envrc.
  rewrite bind_observe, Hf. cbn [negb]. rewrite Ha, bind_ret. reflexivity.
Qed.

Lemma setup_venv_plan self w :
  Project.apply self = false ->
  Project.setup_venv self w
  = (Ok (Spec.append_lines self
           (if path_exists (Project.dir self // ".venv") w then []
            else [Project.line_create_venv (Project.name self)])), w, []).
Proof.
  intros Ha. unfold Project.setup_venv. rewrite bind_observe.
  destruct (path_exists _ w); cbn [negb].
  - rewrite append_lines_nil. reflexivity.
  - rewrite Ha. reflexivity.
Qed.

(** C4, as the code has it: in plan mode with the activation file
    missing, its creation is recorded and the allow check is neither run
    nor recorded; the check of the virtual environment still runs and
    records its line when [.venv] is missing. *)
Theorem plan_missing_envrc_skips_allow_only self w :
  Project.apply self = false ->
  Project.plan self = [] ->
  Project.envrc self = true ->
  is_dir (Project.dir self) w = true ->
  is_dir (Project.dir self // ".git") w = true ->
  path_exists (Project.dir self // ".envrc") w = false ->
  exists actions w' t,
    let lines :=
      (Project.line_create_envrc (Project.name self)
       :: (if path_exists (Project.dir self // ".venv") w then []
           else [Project.line_create_venv (Project.name self)])
       ++ flat_map Spec.show_action actions)%list in
    Project.run self w = (Ok lines, w', t)
    /\ forallb Spec.is_lookup t = true
    /\ ~ In (Project.line_allow_envrc (Project.name self)) lines.
Proof.
  intros Ha Hp He Hd Hg Hf.
  rewrite (run_past_gates _ _ Hd Hg).
  unfold Project.run_steps. rewrite He.
  set (venv := if path_exists (Project.dir self // ".venv") w then []
               else [Project.line_create_venv (Project.name self)]).
  set (self2 := Spec.append_lines self (Project.line_create_envrc (Project.name self) :: venv)).
  assert (E1 : (self0 <- Project.setup_envrc self;; Project.setup_venv self0) w
               = (Ok self2, w, [])).
  { erewrite bind_ok by (apply setup_envrc_plan_missing; assumption).
    rewrite setup_venv_plan by exact Ha. cbn [after app].
    rewrite append_lines_app. reflexivity. }
  erewrite bind_ok by exact E1. clear E1. rewrite after_nil.
  destruct (remotes_loop_plan_any (Project.remotes self2) self2 w Ha)
    as (actions & w' & t & E & Ht).
  exists actions, w', t. cbv zeta.
  unfold Project.set_up_remotes.
  erewrite bind_ok by exact E.
  change (Project.apply (Spec.append_lines self2 (flat_map Spec.show_action actions)))
    with (Project.apply self).
  rewrite Ha. cbn [andb]. rewrite bind_ret. unfold ret, self2.
  cbn [after Project.plan Spec.append_lines app].
  rewrite Hp, app_nil_r. cbn [app].
  split; [reflexivity|]. split; [exact Ht|].
  intros [Hin | Hin]; [discriminate Hin|].
  apply in_app_or in Hin as [Hin | Hin].
  - subst venv. destruct (path_exists (Project.dir self // ".venv") w); [exact Hin|].
    destruct Hin as [Hin | []]. discriminate Hin.
  - exact (allow_line_not_in_actions _ _ Hin).
Qed.

(** C2: in apply mode, with the directory missing and no [origin]
    declared, the run stops at the clone step with a [TypeError]: the
    URL is [None] and joining the command line for the debug message
    fails before any tool is started. No dedicated error is raised. *)
Theorem apply_without_origin_raises_type_error self w :
  Project.apply self = true ->
  is_dir (Project.dir self) w = false ->
  PyDict.get "origin" (Project.remotes self) = None ->
  Project.run self w
  = (Raise TypeError,
     mkdir_parents (PurePath.parent (Project.dir self)) w,
     [MadeDirs (PurePath.parent (Project.dir self))]).
Proof.
  intros Ha Hd Ho. unfold Project.run, util.dir_exists.
  rewrite bind_observe, Hd. cbn [negb]. rewrite Ha.
  unfold util.create_parent_dir.
  erewrite bind_ok by reflexivity.
  unfold Project.clone_repo. rewrite Ho.
  unfold util.run_command. cbn [util.all_str option_map].
  rewrite bind_assoc, bind_raise. reflexivity.
Qed.

(** ** Every mode: the discipline; apply mode: the object is not changed *)

(** What a method leaves of [self] in apply mode. *)
Definition unchanged_in_apply (self : Project.t) : Project.t -> Prop :=
  fun s => Project.apply self = true -> s = self.

(** What [run] returns in apply mode is the plan it started with. *)
Definition plan_kept (self : Project.t) : list string -> Prop :=
  fun p => Project.apply self = true -> p = Project.plan self.

Lemma triple_get_remote_url self remote :
  triple true (Project.get_remote_url self remote) (stops_with (fun _ => True)).
Proof.
  intros w r w' t E. rewrite get_remote_url_eq in E. injection E as <- <- <-.
  split; [|exact I]. cbn. unfold Spec.benign, Spec.lookup_event. cbn.
  destruct (returncode _ =? 0)%Z; reflexivity.
Qed.

Lemma triple_add_remote self name url :
  triple true (Project.add_remote self name url) (stops_with (fun _ => True)).
Proof. eapply triple_run_then; [reflexivity | exact I]. Qed.

Lemma triple_update_remote self name old new :
  triple true (Project.update_remote self name old new) (stops_with (fun _ => True)).
Proof. eapply triple_run_then; [reflexivity | exact I]. Qed.

Lemma triple_init_repo self :
  triple true (Project.init_repo self) (stops_with (fun _ => True)).
Proof. eapply triple_run_then; [reflexivity | exact I]. Qed.

Lemma triple_set_up_remote self name url :
  triple true (Project.set_up_remote self name url)
    (stops_with (unchanged_in_apply self)).
Proof.
  unfold Project.set_up_remote.
  eapply triple_seq; [apply triple_get_remote_url|].
  intros [actual|] _.
  - destruct (String.eqb actual url); [apply triple_ret; intros _; reflexivity|].
    destruct (Project.apply self) eqn:Ha.
    + apply triple_then; [apply triple_update_remote | intros _; reflexivity].
    + apply triple_ret. intros Ht. congruence.
  - destruct (Project.apply self) eqn:Ha.
    + apply triple_then; [apply triple_add_remote | intros _; reflexivity].
    + apply triple_ret. intros Ht. congruence.
Qed.

Lemma triple_set_up_remotes self :
  triple true (Project.set_up_remotes self) (stops_with (unchanged_in_apply self)).
Proof.
  unfold Project.set_up_remotes.
  apply triple_for_each_inv with (I := unchanged_in_apply self).
  - intros s [n u] Hs.
    eapply triple_weaken; [apply triple_set_up_remote|].
    intros [s'|c|e]; cbn; auto.
    intros Hs' Ha. unfold unchanged_in_apply in *.
    rewrite <- (Hs Ha). apply Hs'. rewrite (Hs Ha). exact Ha.
  - intros _. reflexivity.
Qed.

Lemma triple_setup_origin self :
  triple true (Project.setup_origin self) (stops_with (fun _ => True)).
Proof.
  unfold Project.setup_origin. destruct (PyDict.mem _ _); [|apply triple_ret; exact I].
  eapply triple_seq; [eapply triple_run_command_str; reflexivity|].
  intros _ _. eapply triple_run_then; [reflexivity | exact I].
Qed.

Lemma triple_is_envrc_setup dir :
  triple true (envrc.is_envrc_setup dir) (stops_with (fun _ => True)).
Proof.
  unfold envrc.is_envrc_setup.
  eapply triple_seq; [eapply triple_run_command_str; reflexivity|].
  intros out _. apply triple_ret. exact I.
Qed.

Lemma triple_setup_envrc self :
  triple true (Project.setup_envrc self) (stops_with (unchanged_in_apply self)).
Proof.
  unfold Project.setup_envrc.
  eapply triple_seq; [apply triple_observe with (Q := stops_with (fun _ => True)); intros; exact I|].
  intros e _.
  eapply triple_seq with (I := fun c => Project.apply self = true -> c = Some self).
  - destruct (negb e); [|apply triple_ret; intros _; reflexivity].
    destruct (Project.apply self) eqn:Ha.
    + eapply triple_seq; [apply triple_act with (Q := stops_with (fun _ => True)); [reflexivity | exact I]|].
      intros _ _. apply triple_ret. intros _. reflexivity.
    + apply triple_ret. intros Ht. unfold unchanged_in_apply, plan_kept in *; congruence.
  - intros [self0|] Hc.
    + eapply triple_seq; [apply triple_is_envrc_setup|].
      intros ok _.
      assert (Hs : unchanged_in_apply self self0).
      { intros Ha. specialize (Hc Ha). congruence. }
      destruct ok; [apply triple_ret; exact Hs|].
      destruct (Project.apply self0) eqn:Ha0.
      * eapply triple_run_then; [reflexivity | exact Hs].
      * apply triple_ret. intros Ha. rewrite (Hs Ha) in Ha0. congruence.
    + apply triple_ret. intros Ha. specialize (Hc Ha). discriminate.
Qed.

Lemma triple_setup_venv self :
  triple true (Project.setup_venv self) (stops_with (unchanged_in_apply self)).
Proof.
  unfold Project.setup_venv.
  eapply triple_seq; [apply triple_observe with (Q := stops_with (fun _ => True)); intros; exact I|].
  intros e _. destruct (negb e); [|apply triple_ret; intros _; reflexivity].
  destruct (Project.apply self) eqn:Ha.
  - eapply triple_run_then; [reflexivity | intros _; reflexivity].
  - apply triple_ret. intros Ht. unfold unchanged_in_apply, plan_kept in *; congruence.
Qed.

Lemma triple_run_steps self :
  triple true (Project.run_steps self) (stops_with (plan_kept self)).
Proof.
  unfold Project.run_steps.
  eapply triple_seq with (I := unchanged_in_apply self).
  - destruct (Project.envrc self); [|apply triple_ret; intros _; reflexivity].
    eapply triple_seq; [apply triple_setup_envrc|].
    intros s1 H1. eapply triple_weaken; [apply triple_setup_venv|].
    intros [s2|c|e]; cbn; auto. intros H2 Ha.
    rewrite <- (H1 Ha). apply H2. rewrite (H1 Ha). exact Ha.
  - intros s1 H1.
    eapply triple_seq with (I := unchanged_in_apply self).
    + eapply triple_weaken; [apply triple_set_up_remotes|].
      intros [s2|c|e]; cbn; auto. intros H2 Ha.
      rewrite <- (H1 Ha). apply H2. rewrite (H1 Ha). exact Ha.
    + intros s2 H2.
      apply triple_then.
      * destruct (_ && _); [apply triple_setup_origin | apply triple_ret; exact I].
      * intros Ha. rewrite (H2 Ha). reflexivity.
Qed.

Lemma triple_run_inited self :
  triple true (Project.run_inited self) (stops_with (plan_kept self)).
Proof.
  unfold Project.run_inited, util.is_inited.
  eapply triple_seq; [apply triple_observe with (Q := stops_with (fun _ => True)); intros; exact I|].
  intros inited _. destruct (negb inited); [|apply triple_run_steps].
  destruct (Project.apply self) eqn:Ha.
  - eapply triple_seq; [apply triple_init_repo|]. intros _ _. apply triple_run_steps.
  - apply triple_ret. intros Ht. unfold unchanged_in_apply, plan_kept in *; congruence.
Qed.

(** The whole of [run]: it returns, stops at a fatal call, or raises the
    [TypeError] of a clone without [origin]. *)
Lemma triple_run self :
  triple true (Project.run self)
    (fun r => match r with
              | Ok p => plan_kept self p
              | Exit c => c = EX_OSERR
              | Raise e => e = TypeError /\ Project.apply self = true /\
                           PyDict.get "origin" (Project.remotes self) = None
              end).
Proof.
  unfold Project.run, util.dir_exists.
  eapply triple_bind;
    [apply triple_observe with (Q := stops_with (fun _ => True)); intros; exact I
    | | intros c Hc; exact Hc | intros e []].
  intros e _.
  assert (Hi : triple true (Project.run_inited self)
                 (fun r => match r with
                           | Ok p => plan_kept self p
                           | Exit c => c = EX_OSERR
                           | Raise e => e = TypeError /\ Project.apply self = true /\
                                        PyDict.get "origin" (Project.remotes self) = None
                           end)).
  { eapply triple_weaken; [apply triple_run_inited|]. intros [p|c|x]; cbn; auto. intros []. }
  destruct (negb e); [|exact Hi].
  destruct (Project.apply self) eqn:Ha.
  - eapply triple_bind;
      [apply triple_act with (Q := stops_with (fun _ => True)); [reflexivity | exact I]
      | | intros c Hc; exact Hc | intros x []].
    intros _ _. unfold Project.clone_repo.
    eapply triple_bind with
      (Q1 := fun r => match r with
                      | Ok _ => True
                      | Exit c => c = EX_OSERR
                      | Raise e => e = TypeError /\
                                   PyDict.get "origin" (Project.remotes self) = None
                      end).
    + eapply triple_bind; [apply triple_run_command | | |].
      * intros x _. apply triple_ret. exact I.
      * intros c Hc. exact Hc.
      * intros x [-> Hx]. split; [reflexivity|].
        cbn in Hx. destruct (PyDict.get "origin" (Project.remotes self)); [discriminate|reflexivity].
    + intros _ _. exact Hi.
    + intros c Hc. exact Hc.
    + intros x [-> Hx]. auto.
  - apply triple_ret. intros Ht. unfold unchanged_in_apply, plan_kept in *; congruence.
Qed.

(** ** [Project.run] prints no report line *)

Ltac quiet_step :=
  first
    [ apply quiet_ret | apply quiet_observe | apply quiet_run_command
    | apply quiet_act; reflexivity
    | apply quiet_try_except
    | apply quiet_bind; [|intros ?]
    | match goal with
      | |- quiet (if ?b then _ else _) => destruct b
      | |- quiet (match ?x with Some _ => _ | None => _ end) => destruct x
      end ].

Lemma quiet_set_up_remote self name url : quiet (Project.set_up_remote self name url).
Proof.
  unfold Project.set_up_remote, Project.get_remote_url, Project.add_remote,
    Project.update_remote.
  repeat quiet_step.
Qed.

Lemma quiet_run_steps self : quiet (Project.run_steps self).
Proof.
  unfold Project.run_steps.
  apply quiet_bind.
  - destruct (Project.envrc self); [|apply quiet_ret].
    unfold Project.setup_envrc, Project.setup_venv, envrc.is_envrc_setup.
    repeat quiet_step.
  - intros s1. apply quiet_bind.
    + unfold Project.set_up_remotes. apply quiet_for_each.
      intros s [n u]. apply quiet_set_up_remote.
    + intros s2. unfold Project.setup_origin. repeat quiet_step.
Qed.

Lemma quiet_run self : quiet (Project.run self).
Proof.
  assert (Hi : quiet (Project.run_inited self)).
  { unfold Project.run_inited, util.is_inited, Project.init_repo.
    apply quiet_bind; [apply quiet_observe|]. intros i.
    destruct (negb i); [|apply quiet_run_steps].
    destruct (Project.apply self); [|apply quiet_ret].
    apply quiet_bind; [repeat quiet_step|]. intros _. apply quiet_run_steps. }
  unfold Project.run, util.dir_exists, util.create_parent_dir, Project.clone_repo.
  apply quiet_bind; [apply quiet_observe|]. intros e.
  destruct (negb e); [|exact Hi].
  destruct (Project.apply self); [|apply quiet_ret].
  apply quiet_bind; [apply quiet_act; reflexivity|]. intros _.
  apply quiet_bind; [repeat quiet_step|]. intros _. exact Hi.
Qed.

Lemma run_dir_exists self w :
  is_dir (Project.dir self) w = true ->
  Project.run self w = Project.run_inited self w.
Proof.
  intros Hd. unfold Project.run, util.dir_exists.
  rewrite bind_observe, Hd. reflexivity.
Qed.

(** One project of [main.run] in apply mode, when it is done: the two
    report lines. *)
Lemma run_one_apply repo_dir skip_fetch name data w w' t :
  main.run_one repo_dir "apply" skip_fetch tt (name, data) w = (Ok tt, w', t) ->
  Spec.printed t = [main.line_applying name; main.line_no_changes name].
Proof.
  unfold main.run_one. rewrite bind_observe.
  destruct (Project.init _ _ _ _ _) as [prj|c|e]; [|discriminate|discriminate].
  cbn [String.eqb Ascii.eqb Bool.eqb andb].
  erewrite bind_ok by reflexivity.
  pose proof (quiet_run prj w) as Hq.
  unfold bind. destruct (Project.run prj w) as [[[plan|c|e] w1] t1];
    cbn [after snd] in *; try discriminate.
  unfold emit. intros E. injection E as <- <-.
  change (Spec.printed (Printed (main.line_applying name)
                        :: t1 ++ [Printed (main.line_no_changes name)]))
    with (main.line_applying name
          :: Spec.printed (t1 ++ [Printed (main.line_no_changes name)]))%list.
  rewrite printed_app, Hq. reflexivity.
Qed.

Lemma main_run_apply_report projects : forall repo_dir skip_fetch w w' t,
  main.run projects repo_dir "apply" skip_fetch w = (Ok tt, w', t) ->
  Spec.printed t
  = flat_map (fun '(name, _) => [main.line_applying name; main.line_no_changes name])
      projects.
Proof.
  unfold main.run.
  induction projects as [|[name data] l IH]; intros repo_dir skip_fetch w w' t E.
  - injection E as <- <-. reflexivity.
  - cbn [for_each] in E. unfold bind in E.
    destruct (main.run_one _ _ _ _ _ w) as [[[[]|c|e] w1] t1] eqn:E1; try discriminate.
    destruct (for_each l _ tt w1) as [[r2 w2] t2] eqn:E2.
    injection E as -> <- <-.
    rewrite printed_app, (run_one_apply _ _ _ _ _ E1), (IH _ _ _ _ _ E2).
    reflexivity.
Qed.

(** C10: in apply mode [run] never returns anything but the empty plan
    it started with: it returns [[]], or the process stops at a failed
    command, or the clone without [origin] raises. The caller then
    prints [no changes] for every project it went through. *)
Theorem apply_returns_empty_plan :
  (forall self w r w' t,
      Project.apply self = true ->
      Project.plan self = [] ->
      Project.run self w = (r, w', t) ->
      (r = Ok [] /\ forallb (Spec.benign true) t = true)
      \/ (r = Exit EX_OSERR /\ Spec.ends_fatal true t)
      \/ (r = Raise TypeError /\ is_dir (Project.dir self) w = false /\
          PyDict.get "origin" (Project.remotes self) = None))
  /\ (forall projects repo_dir skip_fetch w w' t,
        main.run projects repo_dir "apply" skip_fetch w = (Ok tt, w', t) ->
        Spec.printed t
        = flat_map (fun '(name, _) => [main.line_applying name; main.line_no_changes name])
            projects).
Proof.
  split; [|intros; eapply main_run_apply_report; eassumption].
  intros self w r w' t Ha Hp E.
  destruct (triple_run self w E) as [Hf HQ].
  destruct r as [p|c|e].
  - left. cbn in HQ. rewrite (HQ Ha), Hp. split; [reflexivity | exact Hf].
  - right. left. cbn in HQ. subst c. split; [reflexivity | exact Hf].
  - right. right. destruct HQ as (-> & _ & Ho).
    split; [reflexivity|]. split; [|exact Ho].
    destruct (is_dir (Project.dir self) w) eqn:Hd; [|reflexivity].
    rewrite (run_dir_exists _ _ Hd) in E.
    destruct (triple_run_inited self w E) as [_ []].
Qed.

(** ** The discovery keeps the discipline without any tolerated call *)

Ltac sound_step :=
  first
    [ apply triple_ret; exact I
    | apply triple_observe; intros; exact I
    | apply triple_raise; exact I
    | apply triple_exit; [reflexivity | exact I]
    | eapply sound_of; apply triple_run_command
    | apply sound_bind; [|intros ?]
    | match goal with
      | |- triple _ (if ?b then _ else _) _ => destruct b
      | |- triple _ (match ?x with Some _ => _ | None => _ end) _ => destruct x
      | |- triple _ (match ?x with Ok _ => _ | Exit _ => _ | Raise _ => _ end) _ => destruct x
      | |- triple _ (match ?x with nil => _ | cons _ _ => _ end) _ => destruct x
      | |- triple _ (let '(_, _) := ?x in _) _ => destruct x
      end ].

Lemma sound_get_remotes directory : triple false (update.get_remotes directory) any.
Proof.
  unfold update.get_remotes. apply sound_bind; [sound_step|]. intros out.
  apply sound_for_each. intros s x. repeat sound_step.
Qed.

Lemma sound_visit_project group_dir config project_dir :
  triple false (update.visit_project group_dir config project_dir) any.
Proof.
  unfold update.visit_project, util.is_inited.
  apply sound_bind; [sound_step|]. intros inited. destruct inited; [|sound_step].
  apply sound_bind.
  - unfold update.get_project_info.
    apply sound_bind; [apply sound_get_remotes|]. intros remotes.
    unfold envrc.has_envrc. repeat sound_step.
  - intros [name [project|]]; [|sound_step].
    unfold update.set_project. destruct (cfg_project config); sound_step.
Qed.

Lemma sound_update_config config repo_dir :
  triple false (update.update_config config repo_dir) any.
Proof.
  unfold update.update_config.
  apply sound_bind; [sound_step|]. intros d. destruct (negb d); [sound_step|].
  apply sound_bind; [sound_step|]. intros [groups|]; [|sound_step].
  apply sound_for_each. intros cfg g. unfold update.visit_group.
  apply sound_bind; [sound_step|]. intros [projects|]; [|sound_step].
  apply sound_for_each. intros cfg' p. apply sound_visit_project.
Qed.

(** ** A converged project *)

(** A remote whose lookup answers the declared URL: nothing to do, in
    both modes. *)
Lemma set_up_remote_equal self name url w :
  Spec.lookup_is (Project.dir self) w name (Some url) ->
  Project.set_up_remote self name url w
  = (Ok self, snd (subprocess_run (Spec.get_url_argv (Project.dir self) name) None w),
     [Spec.lookup_event (Project.dir self) w name]).
Proof.
  intros Hl. unfold Spec.lookup_is in Hl. unfold Project.set_up_remote.
  erewrite bind_ok by apply get_remote_url_eq.
  rewrite Hl, String.eqb_refl. reflexivity.
Qed.

Lemma remotes_loop_equal self w (l : PyDict.dict string) :
  Spec.queries_read_only ->
  (forall name url, In (name, url) l -> Spec.lookup_is (Project.dir self) w name (Some url)) ->
  for_each l (fun self '(n, u) => Project.set_up_remote self n u) self w
  = (Ok self, w, map (fun '(n, _) => Spec.lookup_event (Project.dir self) w n) l).
Proof.
  intros Hq. induction l as [|[n u] l IH]; intros Hl; [reflexivity|].
  cbn [for_each].
  erewrite bind_ok by (apply set_up_remote_equal; apply (Hl n u); left; reflexivity).
  rewrite (Hq _ None w (get_url_is_query _ _)).
  rewrite IH by (intros n' u' Hin; apply (Hl n' u'); right; exact Hin).
  reflexivity.
Qed.

Lemma lookups_read_only dir w (l : PyDict.dict string) :
  forallb Spec.read_only (map (fun '(n, _) => Spec.lookup_event dir w n) l) = true.
Proof. induction l as [|[n u] l IH]; [reflexivity | exact IH]. Qed.

(** The environment steps when the file is there and allowed and the
    virtual environment exists: one status query. *)
Lemma env_steps_converged self w :
  Spec.queries_read_only ->
  Spec.converged self w ->
  Project.envrc self = true ->
  (self0 <- Project.setup_envrc self;; Project.setup_venv self0) w
  = (Ok self, w,
     [Ran Spec.status_argv false (Some (Project.dir self))
          (returncode (fst (subprocess_run Spec.status_argv (Some (Project.dir self)) w)))]).
Proof.
  intros Hq (_ & _ & _ & Henv) He. destruct (Henv He) as (Hf & (Hrc & Hallowed) & Hv).
  assert (E1 : Project.setup_envrc self w
               = (Ok self, w,
                  [Ran Spec.status_argv false (Some (Project.dir self))
                       (returncode (fst (subprocess_run Spec.status_argv
                                           (Some (Project.dir self)) w)))])).
  { unfold Project.setup_envrc. rewrite bind_observe, Hf. cbn [negb].
    rewrite bind_ret. unfold envrc.is_envrc_setup. rewrite bind_assoc.
    cbv zeta in Hrc, Hallowed.
    assert (Erc : util.run_command [Some "direnv"; Some "status"] false
                    (Some (Project.dir self)) w
                  = (Ok (PyStr.strip (stdout (fst (subprocess_run Spec.status_argv
                                                     (Some (Project.dir self)) w)))),
                     w,
                     [Ran Spec.status_argv false (Some (Project.dir self))
                          (returncode (fst (subprocess_run Spec.status_argv
                                              (Some (Project.dir self)) w)))])).
    { rewrite run_command_eq with (argv := Spec.status_argv) by reflexivity.
      cbv zeta. rewrite (Hq Spec.status_argv (Some (Project.dir self)) w eq_refl).
      apply Z.eqb_eq in Hrc. rewrite Hrc. reflexivity. }
    erewrite bind_ok by exact Erc.
    rewrite bind_ret, Hallowed. cbn. reflexivity. }
  erewrite bind_ok by exact E1.
  unfold Project.setup_venv. rewrite bind_observe, Hv. cbn. reflexivity.
Qed.

(** The sync step runs its two commands and nothing else. *)
Lemma setup_origin_events self w r w' t :
  Project.setup_origin self w = (r, w', t) ->
  forallb (Spec.is_sync (Project.dir self)) t = true
  /\ (r = Ok tt \/ r = Exit EX_OSERR)
  /\ (PyDict.mem "origin" (Project.remotes self) = false -> r = Ok tt /\ w' = w /\ t = []).
Proof.
  unfold Project.setup_origin. destruct (PyDict.mem _ _).
  - unfold bind.
    rewrite run_command_eq with (argv := Spec.fetch_argv (Project.dir self)) by reflexivity.
    cbv zeta.
    assert (Hs1 : forall raise cwd rc,
               Spec.is_sync (Project.dir self)
                 (Ran (Spec.fetch_argv (Project.dir self)) raise cwd rc) = true).
    { intros. unfold Spec.is_sync.
      destruct (list_eq_dec string_dec (Spec.fetch_argv (Project.dir self))
                  (Spec.fetch_argv (Project.dir self))) as [_|n];
        [reflexivity | contradiction n; reflexivity]. }
    assert (Hs2 : forall raise cwd rc,
               Spec.is_sync (Project.dir self)
                 (Ran (Spec.submodule_argv (Project.dir self)) raise cwd rc) = true).
    { intros. unfold Spec.is_sync.
      destruct (list_eq_dec string_dec (Spec.submodule_argv (Project.dir self))
                  (Spec.fetch_argv (Project.dir self))) as [_|_]; [reflexivity|].
      destruct (list_eq_dec string_dec (Spec.submodule_argv (Project.dir self))
                  (Spec.submodule_argv (Project.dir self))) as [_|n];
        [reflexivity | contradiction n; reflexivity]. }
    destruct (returncode _ =? 0)%Z.
    + rewrite run_command_eq with (argv := Spec.submodule_argv (Project.dir self))
        by reflexivity.
      cbv zeta. destruct (returncode _ =? 0)%Z; intros E; injection E as <- <- <-;
        (split; [cbn [forallb app]; rewrite Hs1, Hs2; reflexivity|]);
        (split; [auto | discriminate]).
    + intros E; injection E as <- <- <-.
      split; [cbn [forallb]; rewrite Hs1; reflexivity|]. split; [auto | discriminate].
  - intros E. injection E as <- <- <-. split; [reflexivity|]. split; auto.
Qed.

(** The sync step with [origin] declared: [git fetch origin], then, when
    it succeeded, the update of the submodules; the first failure stops
    the process. *)
Lemma setup_origin_eq self w :
  PyDict.mem "origin" (Project.remotes self) = true ->
  let dir := Project.dir self in
  let fetch := subprocess_run (Spec.fetch_argv dir) None w in
  let update := subprocess_run (Spec.submodule_argv dir) None (snd fetch) in
  Project.setup_origin self w
  = if (returncode (fst fetch) =? 0)%Z
    then (if (returncode (fst update) =? 0)%Z then Ok tt else Exit EX_OSERR,
          snd update,
          [Ran (Spec.fetch_argv dir) false None (returncode (fst fetch));
           Ran (Spec.submodule_argv dir) false None (returncode (fst update))])
    else (Exit EX_OSERR, snd fetch,
          [Ran (Spec.fetch_argv dir) false None (returncode (fst fetch))]).
Proof.
  intros Ho. cbv zeta. unfold Project.setup_origin. rewrite Ho. unfold bind.
  rewrite run_command_eq with (argv := Spec.fetch_argv (Project.dir self)) by reflexivity.
  cbv zeta. destruct (returncode _ =? 0)%Z; [|reflexivity].
  rewrite run_command_eq with (argv := Spec.submodule_argv (Project.dir self))
    by reflexivity.
  cbv zeta. destruct (returncode _ =? 0)%Z; reflexivity.
Qed.

(** C1, as the code has it: on a converged project the run first asks: one
    [direnv status] when the environment is declared, then one lookup per
    declared remote, in order; these change nothing. In plan mode, with
    fetching skipped or without a declared [origin] that is the whole
    run: the plan is empty and the world as before. In apply mode with
    fetching on and [origin] declared the run then starts
    [git fetch origin] and, when it succeeded, the update of the
    submodules, in this order and nothing else; the plan is empty when
    both succeed, and the process exits with [EX_OSERR] at the first that
    fails. *)
Theorem converged_run_only_syncs self w r w' t :
  Spec.queries_read_only ->
  Spec.converged self w ->
  Project.plan self = [] ->
  Project.run self w = (r, w', t) ->
  let dir := Project.dir self in
  let queries :=
    ((if Project.envrc self then [Ran Spec.status_argv false (Some dir) 0%Z] else [])
     ++ map (fun '(n, _) => Spec.lookup_event dir w n) (Project.remotes self))%list in
  let fetch := subprocess_run (Spec.fetch_argv dir) None w in
  let update := subprocess_run (Spec.submodule_argv dir) None (snd fetch) in
  let rc1 := returncode (fst fetch) in
  let rc2 := returncode (fst update) in
  forallb Spec.read_only queries = true
  /\ Spec.mutating_call (Ran (Spec.fetch_argv dir) false None rc1) = true
  /\ Spec.mutating_call (Ran (Spec.submodule_argv dir) false None rc2) = true
  /\ if Project.apply self && negb (Project.skip_fetch self)
        && PyDict.mem "origin" (Project.remotes self)
     then
       if (rc1 =? 0)%Z
       then t = (queries ++ [Ran (Spec.fetch_argv dir) false None rc1;
                             Ran (Spec.submodule_argv dir) false None rc2])%list
            /\ w' = snd update
            /\ r = (if (rc2 =? 0)%Z then Ok [] else Exit EX_OSERR)
       else t = (queries ++ [Ran (Spec.fetch_argv dir) false None rc1])%list
            /\ w' = snd fetch
            /\ r = Exit EX_OSERR
     else t = queries /\ w' = w /\ r = Ok [].
Proof.
  intros Hq Hc Hp. cbv zeta.
  pose proof Hc as (Hd & Hg & Hrem & Henv).
  rewrite (run_past_gates _ _ Hd Hg). unfold Project.run_steps.
  set (E0 := if Project.envrc self
             then [Ran Spec.status_argv false (Some (Project.dir self)) 0%Z]
             else []).
  assert (E1 : (if Project.envrc self
                then self0 <- Project.setup_envrc self;; Project.setup_venv self0
                else ret self) w = (Ok self, w, E0)).
  { subst E0. destruct (Project.envrc self) eqn:He; [|reflexivity].
    rewrite env_steps_converged by assumption.
    destruct (Henv eq_refl) as (_ & (Hrc & _) & _). cbv zeta in Hrc. rewrite Hrc. reflexivity. }
  erewrite bind_ok by exact E1.
  unfold Project.set_up_remotes.
  erewrite bind_ok by (apply remotes_loop_equal; assumption).
  rewrite after_after. rewrite Hp.
  set (E := (E0 ++ _)%list).
  assert (HE : forallb Spec.read_only E = true).
  { subst E E0. rewrite forallb_app, lookups_read_only.
    destruct (Project.envrc self); reflexivity. }
  intros X. split; [exact HE|]. split; [reflexivity|]. split; [reflexivity|].
  revert X.
  destruct (Project.apply self && negb (Project.skip_fetch self)) eqn:Hs; cbn [andb].
  - destruct (PyDict.mem "origin" (Project.remotes self)) eqn:Ho.
    + unfold bind. rewrite (setup_origin_eq self w Ho). cbv zeta.
      destruct (returncode (fst (subprocess_run (Spec.fetch_argv _) None w)) =? 0)%Z.
      * destruct (returncode (fst (subprocess_run (Spec.submodule_argv _) None _)) =? 0)%Z;
          cbn [after ret]; intros X; injection X as <- <- <-;
          rewrite ?app_nil_r; auto.
      * cbn [after]. intros X; injection X as <- <- <-. auto.
    + unfold bind, Project.setup_origin. rewrite Ho. cbn [after ret].
      intros X; injection X as <- <- <-. rewrite !app_nil_r. auto.
  - rewrite bind_ret. unfold ret. cbn [after]. intros X; injection X as <- <- <-.
    rewrite app_nil_r. auto.
Qed.

(** C5: the directory exists and is not initialized; the plan is the one
    line of the initialization step, whatever the remotes and the
    environment flag, and nothing is run or changed. *)
Theorem plan_uninitialized_is_one_entry cwd data repo_dir skip_fetch self w :
  Project.init cwd data repo_dir "plan" skip_fetch = Ok self ->
  is_dir (Project.dir self) w = true ->
  is_dir (Project.dir self // ".git") w = false ->
  Project.run self w
  = (Ok [Project.line_clone_existing (Project.name self)], w, []).
Proof.
  intros E Hd Hg. apply init_plan_mode in E as [Ha Hp].
  unfold Project.run, Project.run_inited, util.dir_exists, util.is_inited.
  rewrite bind_observe, Hd. cbn [negb].
  rewrite bind_observe, Hg. cbn [negb].
  rewrite Ha. unfold ret, Project.plan_append. cbn [Project.plan]. rewrite Hp. reflexivity.
Qed.
End Reconciler.

(* ################################################################# *)
(** * Paths of projects *)

Section Paths.

Lemma is_prefix_app a b : Spec.is_prefix a (a ++ b) = true.
Proof. induction a as [|x a IH]; cbn; [reflexivity | rewrite String.eqb_refl; exact IH]. Qed.

Lemma resolve_plain_parts rest : forall acc,
  ~ In ".." rest ->
  fold_left PurePath.resolve_step rest acc = (rev rest ++ acc)%list.
Proof.
  induction rest as [|c rest IH]; intros acc Hn; cbn; [reflexivity|].
  unfold PurePath.resolve_step at 2.
  destruct (String.eqb c "..") eqn:E.
  - apply String.eqb_eq in E. exfalso. apply Hn. left. exact E.
  - rewrite IH by (intros Hin; apply Hn; right; exact Hin).
    rewrite <- app_assoc. reflexivity.
Qed.

(** Resolving a path extended by plain components: the resolved path,
    extended by the same components. *)
Lemma resolve_join_plain cwd p rest :
  ~ In ".." rest ->
  PurePath.resolve cwd (PurePath.mk (PurePath.absolute p) (PurePath.parts p ++ rest))
  = PurePath.mk true (PurePath.parts (PurePath.resolve cwd p) ++ rest).
Proof.
  intros Hn. unfold PurePath.resolve. cbn [PurePath.absolute PurePath.parts].
  f_equal.
  assert (E : (if PurePath.absolute p then (PurePath.parts p ++ rest)%list
               else (PurePath.parts cwd ++ PurePath.parts p ++ rest)%list)
              = ((if PurePath.absolute p then PurePath.parts p
                  else (PurePath.parts cwd ++ PurePath.parts p)%list) ++ rest)%list).
  { destruct (PurePath.absolute p); [reflexivity | apply app_assoc]. }
  rewrite E, fold_left_app, resolve_plain_parts by exact Hn.
  rewrite rev_app_distr, rev_involutive. reflexivity.
Qed.

(** C9, as the code has it: the constructor checks nothing; [name] and
    [group] are the strings of the declaration and the directory is the
    resolution of [repo_dir / group / name]. It is inside the resolved
    base directory when both strings are relative paths without [..]. *)
Theorem project_dir_inside_for_plain_names cwd data repo_dir action skip_fetch self :
  Project.init cwd data repo_dir action skip_fetch = Ok self ->
  d_name data = Some (Project.name self)
  /\ d_group data = Some (Project.group self)
  /\ Project.dir self
     = PurePath.resolve cwd (repo_dir // Project.group self // Project.name self)
  /\ (Spec.plain (Project.group self) -> Spec.plain (Project.name self) ->
      Project.dir self
      = PurePath.mk true
          (PurePath.parts (PurePath.resolve cwd repo_dir)
           ++ PurePath.parts (PurePath.parse (Project.group self))
           ++ PurePath.parts (PurePath.parse (Project.name self)))
      /\ Spec.inside (PurePath.resolve cwd repo_dir) (Project.dir self) = true).
Proof.
  intros E. apply init_ok in E as (n & g & En & Eg & ->).
  cbn [Project.name Project.group Project.dir].
  split; [exact En|]. split; [exact Eg|]. split; [reflexivity|].
  intros [Hga Hgd] [Hna Hnd].
  assert (Ed : PurePath.resolve cwd (repo_dir // g // n)
               = PurePath.mk true
                   (PurePath.parts (PurePath.resolve cwd repo_dir)
                    ++ PurePath.parts (PurePath.parse g)
                    ++ PurePath.parts (PurePath.parse n))).
  { unfold PurePath.joins, PurePath.join. rewrite Hga. cbn [PurePath.absolute PurePath.parts].
    rewrite Hna. rewrite <- app_assoc.
    apply resolve_join_plain.
    intros Hin. apply in_app_or in Hin as [Hin | Hin]; [exact (Hgd Hin) | exact (Hnd Hin)]. }
  split; [exact Ed|]. rewrite Ed. unfold Spec.inside, PurePath.resolve.
  cbn [PurePath.absolute PurePath.parts Bool.eqb andb]. apply is_prefix_app.
Qed.
End Paths.

(* ################################################################# *)
(** * Dictionaries *)

Section DictLemmas.
Variable V : Type.
Implicit Types d : PyDict.dict V.

Lemma get_set_same k v d : PyDict.get k (PyDict.set k v d) = Some v.
Proof.
  induction d as [|[k' v'] d IH]; cbn.
  - rewrite String.eqb_refl. reflexivity.
  - destruct (String.eqb k k') eqn:E; cbn; rewrite E; [reflexivity | exact IH].
Qed.

Lemma get_set_other k k' v d : k <> k' -> PyDict.get k' (PyDict.set k v d) = PyDict.get k' d.
Proof.
  intros Hne. induction d as [|[k0 v0] d IH]; cbn.
  - destruct (String.eqb k' k) eqn:E; [|reflexivity].
    apply String.eqb_eq in E. congruence.
  - destruct (String.eqb k k0) eqn:E; cbn.
    + apply String.eqb_eq in E. subst k0.
      destruct (String.eqb k' k) eqn:E'; [|reflexivity].
      apply String.eqb_eq in E'. congruence.
    + rewrite IH. reflexivity.
Qed.

(** Setting a key keeps every key and adds none but its own. *)
Lemma keys_set k v d :
  PyDict.keys (PyDict.set k v d)
  = if PyDict.mem k d then PyDict.keys d else (PyDict.keys d ++ [k])%list.
Proof.
  unfold PyDict.mem, PyDict.keys. induction d as [|[k' v'] d IH]; cbn; [reflexivity|].
  destruct (String.eqb k k') eqn:E; cbn; [reflexivity|].
  rewrite IH. destruct (PyDict.get k d); reflexivity.
Qed.

Lemma in_keys_set x k v d :
  In x (PyDict.keys (PyDict.set k v d)) -> x = k \/ In x (PyDict.keys d).
Proof.
  rewrite keys_set. destruct (PyDict.mem k d); [auto|].
  intros Hin. apply in_app_or in Hin as [Hin | [<- | []]]; auto.
Qed.

(** A dictionary that has each key once keeps that when a key is set. *)
Lemma set_keeps_unique k v d :
  NoDup (PyDict.keys d) -> NoDup (PyDict.keys (PyDict.set k v d)).
Proof.
  induction d as [|[k' v'] d IH]; cbn; intros Hd.
  - constructor; [intros [] | constructor].
  - destruct (String.eqb k k') eqn:E; cbn; [exact Hd|].
    inversion Hd as [|? ? Hnin Hd']; subst. constructor; [|apply IH; exact Hd'].
    intros Hin. apply in_keys_set in Hin as [-> | Hin]; [|exact (Hnin Hin)].
    rewrite String.eqb_refl in E. discriminate.
Qed.
End DictLemmas.

(* ################################################################# *)
(** * The discovery *)

Section Discovery.
Context {W : Type} `{System W}.
Hypothesis read_only : Spec.queries_read_only.

(** A computation that leaves the world as it is. *)
Definition stable {A} (m : M W A) : Prop := forall w, snd (fst (m w)) = w.

Lemma stable_eq {A} (m : M W A) w : stable m -> m w = (fst (fst (m w)), w, snd (m w)).
Proof. intros Hm. specialize (Hm w). destruct (m w) as [[r w'] t]. cbn in *. subst. reflexivity. Qed.

Lemma stable_ret {A} (a : A) : stable (ret a).
Proof. intros w. reflexivity. Qed.

Lemma stable_observe {A} (f : W -> A) : stable (observe f).
Proof. intros w. reflexivity. Qed.

Lemma stable_raise {A} e : stable (raise (A := A) e).
Proof. intros w. reflexivity. Qed.

Lemma stable_exit {A} c : stable (exit (A := A) c).
Proof. intros w. reflexivity. Qed.

Lemma stable_bind {A B} (m : M W A) (k : A -> M W B) :
  stable m -> (forall a, stable (k a)) -> stable (bind m k).
Proof.
  intros Hm Hk w. unfold bind. specialize (Hm w).
  destruct (m w) as [[[a|c|e] w1] t1]; cbn in Hm; subst w1; try reflexivity.
  specialize (Hk a w). destruct (k a w) as [[r w2] t2]. exact Hk.
Qed.

Lemma stable_for_each {S X} (l : list X) (body : S -> X -> M W S) :
  (forall s x, stable (body s x)) -> forall s, stable (for_each l body s).
Proof.
  intros Hb. induction l as [|x l IH]; intros s; cbn [for_each].
  - apply stable_ret.
  - apply stable_bind; [apply Hb | intros a; apply IH].
Qed.

Lemma stable_query command argv raise_err cwd :
  util.all_str command = Some argv ->
  Spec.is_query argv = true ->
  stable (util.run_command command raise_err cwd).
Proof.
  intros Ec Hq w. rewrite run_command_eq with (argv := argv) by exact Ec. cbn [fst snd].
  apply read_only. exact Hq.
Qed.

Lemma stable_get_remotes directory : stable (update.get_remotes directory).
Proof.
  unfold update.get_remotes. apply stable_bind.
  - eapply stable_query; reflexivity.
  - intros out. apply stable_for_each. intros s x.
    apply stable_bind; [eapply stable_query; reflexivity | intros u; apply stable_ret].
Qed.

Lemma stable_has_envrc directory : stable (envrc.has_envrc directory).
Proof.
  unfold envrc.has_envrc. apply stable_bind; [apply stable_observe|].
  intros [|]; [|apply stable_ret].
  apply stable_bind; [apply stable_observe|].
  intros [c|]; [apply stable_ret | apply stable_raise].
Qed.

(** The result of a loop whose body leaves the world as it is. *)
Lemma for_each_result {S X} (l : list X) (body : S -> X -> M W S) w :
  (forall s x, stable (body s x)) ->
  forall s,
    fst (fst (for_each l body s w))
    = Spec.fold_res (fun s x => fst (fst (body s x w))) l s.
Proof.
  intros Hb. induction l as [|x l IH]; intros s; cbn [for_each Spec.fold_res].
  - reflexivity.
  - unfold bind. rewrite (stable_eq w (Hb s x)).
    destruct (fst (fst (body s x w))) as [s'|c|e]; try reflexivity.
    cbn [fst snd]. rewrite <- IH.
    destruct (for_each l body s' w) as [[r w2] t2]. reflexivity.
Qed.

(** A visit stores what the scan of the directory reads. *)
Lemma visit_project_result group_dir config project_dir w :
  fst (fst (update.visit_project group_dir config project_dir w))
  = match Spec.scan w group_dir project_dir with
    | Ok entries => Spec.merge entries config
    | Exit c => Exit c
    | Raise e => Raise e
    end.
Proof.
  unfold update.visit_project, util.is_inited, Spec.scan.
  rewrite bind_observe.
  destruct (is_dir (project_dir // ".git") w); [|reflexivity].
  pose proof (stable_get_remotes project_dir w) as Hg.
  pose proof (stable_has_envrc project_dir w) as He.
  unfold update.get_project_info. rewrite bind_assoc. unfold bind at 1.
  destruct (update.get_remotes project_dir w) as [[rg wg] tg].
  cbn [fst snd] in *. subst wg.
  destruct rg as [[|r0 rs]|c|e]; try reflexivity.
  rewrite bind_assoc. unfold bind at 1.
  destruct (envrc.has_envrc project_dir w) as [[re we] te].
  cbn [fst snd] in *. subst we.
  destruct re as [marker|c|e]; try reflexivity.
  rewrite bind_ret. cbn [Spec.merge Spec.fold_res].
  unfold Spec.config_name, Spec.entry.
  destruct (update.set_project _ _ _) as [c'|c|e]; reflexivity.
Qed.

Lemma stable_visit_project group_dir config project_dir :
  stable (update.visit_project group_dir config project_dir).
Proof.
  unfold update.visit_project, util.is_inited.
  apply stable_bind; [apply stable_observe|]. intros [|]; [|apply stable_ret].
  apply stable_bind.
  - unfold update.get_project_info.
    apply stable_bind; [apply stable_get_remotes|]. intros [|r0 rs]; [apply stable_ret|].
    apply stable_bind; [apply stable_has_envrc | intros e; apply stable_ret].
  - intros [name [project|]]; [|apply stable_ret].
    destruct (update.set_project _ _ _); [apply stable_ret | apply stable_exit | apply stable_raise].
Qed.

Lemma stable_visit_group config group_dir : stable (update.visit_group config group_dir).
Proof.
  unfold update.visit_group. apply stable_bind; [apply stable_observe|].
  intros [ps|]; [|apply stable_raise].
  apply stable_for_each. intros c p. apply stable_visit_project.
Qed.

Lemma stable_update_config config repo_dir : stable (update.update_config config repo_dir).
Proof.
  unfold update.update_config. apply stable_bind; [apply stable_observe|].
  intros d. destruct (negb d); [apply stable_exit|].
  apply stable_bind; [apply stable_observe|].
  intros [gs|]; [|apply stable_raise].
  apply stable_for_each. intros c g. apply stable_visit_group.
Qed.
(** ** Folds, readings and stores *)

Lemma merge_app a b config :
  Spec.merge (a ++ b) config
  = match Spec.merge a config with
    | Ok c1 => Spec.merge b c1
    | Exit c => Exit c
    | Raise e => Raise e
    end.
Proof.
  unfold Spec.merge. revert config. induction a as [|[k v] a IH]; intros config; cbn.
  - reflexivity.
  - destruct (update.set_project config k v) as [c1|c|e]; [apply IH | reflexivity | reflexivity].
Qed.

Lemma fold_res_collect {X} (f : Config -> X -> Res Config)
    (rd : X -> option (list (string * ProjectData))) :
  (forall s x s', f s x = Ok s' <-> exists es, rd x = Some es /\ Spec.merge es s = Ok s') ->
  forall l s s',
    Spec.fold_res f l s = Ok s'
    <-> exists es, Spec.collect rd l = Some es /\ Spec.merge es s = Ok s'.
Proof.
  intros Hf. induction l as [|x l IH]; intros s s'; cbn [Spec.fold_res Spec.collect].
  - split.
    + intros E. exists []. split; [reflexivity | exact E].
    + intros (es & E & Hm). injection E as <-. exact Hm.
  - split.
    + destruct (f s x) as [s1|c|e] eqn:E1; try discriminate.
      intros E. apply Hf in E1 as (es & Er & Hm1).
      apply IH in E as (rest & Ec & Hm2).
      exists (es ++ rest)%list. rewrite Er, Ec. split; [reflexivity|].
      rewrite merge_app, Hm1. exact Hm2.
    + intros (ess & E & Hm).
      destruct (rd x) as [es|] eqn:Er; [|discriminate].
      destruct (Spec.collect rd l) as [rest|] eqn:Ec; [|discriminate].
      injection E as <-. rewrite merge_app in Hm.
      destruct (Spec.merge es s) as [s1|c|e] eqn:Hm1; try discriminate.
      assert (E1 : f s x = Ok s1) by (apply Hf; eauto).
      rewrite E1. apply IH. eauto.
Qed.

Lemma collect_values {X E} (rd : X -> option (list E)) l es :
  Spec.collect rd l = Some es ->
  es = flat_map (fun x => match rd x with Some e => e | None => [] end) l.
Proof.
  revert es. induction l as [|x l IH]; intros es; cbn.
  - intros E0. injection E0 as <-. reflexivity.
  - destruct (rd x) as [e|]; [|discriminate].
    destruct (Spec.collect rd l) as [rest|]; [|discriminate].
    intros E0. injection E0 as <-. rewrite (IH rest eq_refl). reflexivity.
Qed.

Lemma collect_total {X E} (rd : X -> option (list E)) l :
  (forall x, In x l -> rd x <> None) -> exists es, Spec.collect rd l = Some es.
Proof.
  induction l as [|x l IH]; intros Hl; cbn.
  - eauto.
  - destruct (rd x) as [e|] eqn:Er; [|exfalso; apply (Hl x); [left; reflexivity | exact Er]].
    destruct IH as (rest & ->); [intros y Hy; apply Hl; right; exact Hy|]. eauto.
Qed.

Lemma flat_map_flat_map {A B C} (f : B -> list C) (h : A -> list B) l :
  flat_map f (flat_map h l) = flat_map (fun x => flat_map f (h x)) l.
Proof.
  induction l as [|x l IH]; cbn; [reflexivity|].
  rewrite flat_map_app, IH. reflexivity.
Qed.

Lemma merge_table es : forall config table,
  cfg_project config = Some table ->
  Spec.merge es config
  = Ok {| cfg_repo_dir := cfg_repo_dir config;
          cfg_project := Some (Spec.store_all es table) |}.
Proof.
  unfold Spec.merge, Spec.store_all.
  induction es as [|[k v] es IH]; intros config table Ht; cbn.
  - destruct config. cbn in *. subst. reflexivity.
  - unfold update.set_project. rewrite Ht. erewrite IH by reflexivity. reflexivity.
Qed.

Lemma get_store_other es : forall k (table : PyDict.dict ProjectData),
  ~ In k (map fst es) ->
  PyDict.get k (Spec.store_all es table) = PyDict.get k table.
Proof.
  unfold Spec.store_all. induction es as [|[k0 v0] es IH]; intros k table Hn; cbn.
  - reflexivity.
  - rewrite IH by (intros Hin; apply Hn; right; exact Hin).
    apply get_set_other. intros ->. apply Hn. left. reflexivity.
Qed.

Lemma get_store_in es : forall k (table : PyDict.dict ProjectData),
  In k (map fst es) ->
  exists v, In (k, v) es /\ PyDict.get k (Spec.store_all es table) = Some v.
Proof.
  unfold Spec.store_all. induction es as [|[k0 v0] es IH]; intros k table Hin; cbn.
  - destruct Hin.
  - destruct (in_dec string_dec k (map fst es)) as [Hl | Hl].
    + destruct (IH k (PyDict.set k0 v0 table) Hl) as (v & Hv & Hg). eauto.
    + destruct Hin as [Hk | Hin]; [|contradiction]. cbn in Hk. subst k0.
      exists v0. split; [left; reflexivity|].
      fold (Spec.store_all es (PyDict.set k v0 table)).
      rewrite get_store_other by exact Hl. apply get_set_same.
Qed.

Lemma get_store_unique es : forall k v (table : PyDict.dict ProjectData),
  NoDup (map fst es) -> In (k, v) es ->
  PyDict.get k (Spec.store_all es table) = Some v.
Proof.
  induction es as [|[k0 v0] es IH]; intros k v table Hd Hin; [destruct Hin|].
  inversion Hd as [|? ? Hn Hd']; subst.
  unfold Spec.store_all. cbn. fold (Spec.store_all es (PyDict.set k0 v0 table)).
  destruct Hin as [E | Hin].
  - injection E as -> ->. rewrite get_store_other by exact Hn. apply get_set_same.
  - apply IH; assumption.
Qed.

(** ** The result of the walk *)

(** What the walk reads below one group directory. *)
Definition read_group (w : W) (group_dir : Path) : option (list (string * ProjectData)) :=
  match iterdir group_dir w with
  | Some projects =>
      Spec.collect (fun p => Spec.ok_value (Spec.scan w group_dir p)) projects
  | None => None
  end.

Lemma visit_project_ok w group_dir config project_dir config' :
  fst (fst (update.visit_project group_dir config project_dir w)) = Ok config'
  <-> exists es, Spec.ok_value (Spec.scan w group_dir project_dir) = Some es
                 /\ Spec.merge es config = Ok config'.
Proof.
  rewrite visit_project_result.
  destruct (Spec.scan w group_dir project_dir) as [es|c|e]; cbn.
  - split; [eauto|]. intros (es' & E & Hm). injection E as <-. exact Hm.
  - split; [discriminate | intros (es & E & _); discriminate].
  - split; [discriminate | intros (es & E & _); discriminate].
Qed.

Lemma visit_group_ok w config group_dir config' :
  fst (fst (update.visit_group config group_dir w)) = Ok config'
  <-> exists es, read_group w group_dir = Some es /\ Spec.merge es config = Ok config'.
Proof.
  unfold update.visit_group, read_group. rewrite bind_observe.
  destruct (iterdir group_dir w) as [ps|].
  - rewrite for_each_result by (intros c p; apply stable_visit_project).
    apply fold_res_collect. intros s x s'. apply visit_project_ok.
  - cbn. split; [discriminate | intros (es & E & _); discriminate].
Qed.

Lemma update_config_ok config repo_dir w config' :
  fst (fst (update.update_config config repo_dir w)) = Ok config'
  <-> is_dir repo_dir w = true
      /\ exists groups es,
           iterdir repo_dir w = Some groups
           /\ Spec.collect (read_group w) groups = Some es
           /\ Spec.merge es (update.or_new_document config) = Ok config'.
Proof.
  unfold update.update_config. cbv zeta. rewrite bind_observe.
  destruct (is_dir repo_dir w); cbn [negb].
  - rewrite bind_observe. destruct (iterdir repo_dir w) as [gs|].
    + rewrite for_each_result by (intros c g; apply stable_visit_group).
      rewrite (fold_res_collect _ (read_group w)) by (intros s x s'; apply visit_group_ok).
      split.
      * intros (es & Ec & Hm). split; [reflexivity|]. exists gs, es. auto.
      * intros (_ & gs' & es & Eg & Ec & Hm). injection Eg as <-. eauto.
    + cbn. split; [discriminate|]. intros (_ & gs & es & Eg & _). discriminate.
  - cbn. split; [discriminate | intros [? _]; discriminate].
Qed.

Lemma read_group_values w group_dir es :
  read_group w group_dir = Some es ->
  es = flat_map (fun '(g, p) => Spec.discovered w g p)
         (match iterdir group_dir w with
          | Some projects => map (pair group_dir) projects
          | None => []
          end).
Proof.
  unfold read_group. destruct (iterdir group_dir w) as [ps|]; [|discriminate].
  intros E. apply collect_values in E. subst es.
  unfold Spec.discovered. induction ps as [|p ps IH]; cbn; [reflexivity|].
  rewrite IH. destruct (Spec.scan w group_dir p); reflexivity.
Qed.

Lemma collect_discoveries w repo_dir groups es :
  iterdir repo_dir w = Some groups ->
  Spec.collect (read_group w) groups = Some es ->
  es = Spec.discoveries w repo_dir.
Proof.
  intros Eg Ec. unfold Spec.discoveries, Spec.candidates. rewrite Eg.
  rewrite flat_map_flat_map. clear Eg. revert es Ec.
  induction groups as [|g gs IH]; intros es; cbn.
  - intros E. injection E as <-. reflexivity.
  - destruct (read_group w g) as [e|] eqn:Er; [|discriminate].
    destruct (Spec.collect (read_group w) gs) as [rest|]; [|discriminate].
    intros E. injection E as <-.
    rewrite (IH rest eq_refl), (read_group_values _ _ Er). reflexivity.
Qed.

(** When the walk returns, the table is the old one with every
    discovered entry stored, in the order of the walk. *)
Lemma update_config_table config repo_dir w config' w' t table :
  update.update_config config repo_dir w = (Ok config', w', t) ->
  cfg_project (update.or_new_document config) = Some table ->
  w' = w /\ cfg_project config' = Some (Spec.store_all (Spec.discoveries w repo_dir) table).
Proof.
  intros E Ht.
  pose proof (stable_update_config config repo_dir w) as Hw.
  rewrite E in Hw. cbn in Hw. split; [exact Hw|].
  assert (E' : fst (fst (update.update_config config repo_dir w)) = Ok config')
    by (rewrite E; reflexivity).
  apply update_config_ok in E' as (_ & gs & es & Eg & Ec & Hm).
  rewrite (merge_table _ _ Ht) in Hm. injection Hm as <-.
  rewrite (collect_discoveries _ _ Eg Ec). reflexivity.
Qed.
Lemma in_discoveries w repo_dir g p k v :
  In (g, p) (Spec.candidates w repo_dir) ->
  In (k, v) (Spec.discovered w g p) ->
  In (k, v) (Spec.discoveries w repo_dir).
Proof.
  intros Hc Hd. unfold Spec.discoveries. apply in_flat_map.
  exists (g, p). split; [exact Hc | exact Hd].
Qed.

(** C7, as the code has it: when the base directory holds directories
    only, the tools answer, the marker files can be read and the
    declaration is missing, empty or has a project table, the walk
    returns; its table is the old one with the entries it found. A
    directory two levels down that is initialized and has a remote gives
    the entry made of its remotes and its marker file, under the key
    [group.name]; the table holds under that key an entry the walk
    found, and the entry of this directory when no other directory gives
    the same key. A directory that is not initialized, or has no remote,
    gives no entry and no error. *)
Theorem discovery_synthesizes_entries config repo_dir w groups table :
  is_dir repo_dir w = true ->
  iterdir repo_dir w = Some groups ->
  (forall g, In g groups -> iterdir g w <> None) ->
  (forall g p, In (g, p) (Spec.candidates w repo_dir) ->
               exists es, Spec.scan w g p = Ok es) ->
  cfg_project (update.or_new_document config) = Some table ->
  (exists config' t,
      update.update_config config repo_dir w = (Ok config', w, t)
      /\ cfg_project config'
         = Some (Spec.store_all (Spec.discoveries w repo_dir) table))
  /\ (forall g p, In (g, p) (Spec.candidates w repo_dir) ->
        (is_dir (p // ".git") w = false ->
         Spec.discovered w g p = []
         /\ update.visit_project g (update.or_new_document config) p w
            = (Ok (update.or_new_document config), w, []))
        /\ (is_dir (p // ".git") w = true ->
            fst (fst (update.get_remotes p w)) = Ok [] ->
            Spec.discovered w g p = [])
        /\ (forall remotes marker,
              is_dir (p // ".git") w = true ->
              fst (fst (update.get_remotes p w)) = Ok remotes ->
              remotes <> [] ->
              fst (fst (envrc.has_envrc p w)) = Ok marker ->
              In (Spec.config_name g p, Spec.entry g p remotes marker)
                 (Spec.discoveries w repo_dir)
              /\ (exists found,
                    In (Spec.config_name g p, found) (Spec.discoveries w repo_dir)
                    /\ PyDict.get (Spec.config_name g p)
                         (Spec.store_all (Spec.discoveries w repo_dir) table)
                       = Some found)
              /\ (NoDup (map fst (Spec.discoveries w repo_dir)) ->
                  PyDict.get (Spec.config_name g p)
                    (Spec.store_all (Spec.discoveries w repo_dir) table)
                  = Some (Spec.entry g p remotes marker)))).
Proof.
  intros Hd Hg Hdirs Hscan Ht. split.
  - assert (Hc : exists es, Spec.collect (read_group w) groups = Some es).
    { apply collect_total. intros g Hin. unfold read_group.
      destruct (iterdir g w) as [ps|] eqn:Ei; [|exfalso; exact (Hdirs g Hin Ei)].
      destruct (collect_total (fun p => Spec.ok_value (Spec.scan w g p)) ps) as (es & ->);
        [|discriminate].
      intros p Hp.
      destruct (Hscan g p) as (es & ->); [|discriminate].
      unfold Spec.candidates. rewrite Hg. apply in_flat_map. exists g.
      split; [exact Hin|]. rewrite Ei. apply in_map. exact Hp. }
    destruct Hc as (es & Hc).
    destruct (update.update_config config repo_dir w) as [[r w'] t] eqn:E.
    assert (Hr : r = Ok {| cfg_repo_dir := cfg_repo_dir (update.or_new_document config);
                           cfg_project := Some (Spec.store_all es table) |}).
    { assert (Hok : fst (fst (update.update_config config repo_dir w))
                    = Ok {| cfg_repo_dir := cfg_repo_dir (update.or_new_document config);
                            cfg_project := Some (Spec.store_all es table) |}).
      { apply update_config_ok. split; [exact Hd|]. exists groups, es.
        split; [exact Hg|]. split; [exact Hc|]. apply merge_table. exact Ht. }
      rewrite E in Hok. exact Hok. }
    subst r. destruct (update_config_table _ _ _ E Ht) as [-> Htab].
    eexists. exists t. split; [reflexivity | exact Htab].
  - intros g p Hin. split; [|split].
    + intros Hi. split.
      * unfold Spec.discovered, Spec.scan. rewrite Hi. reflexivity.
      * unfold update.visit_project, util.is_inited. rewrite bind_observe, Hi. reflexivity.
    + intros Hi Hr. unfold Spec.discovered, Spec.scan. rewrite Hi, Hr. reflexivity.
    + intros remotes marker Hi Hr Hne Hm.
      assert (Hdisc : Spec.discovered w g p
                      = [(Spec.config_name g p, Spec.entry g p remotes marker)]).
      { unfold Spec.discovered, Spec.scan. rewrite Hi, Hr, Hm.
        destruct remotes; [contradiction Hne; reflexivity | reflexivity]. }
      assert (Hind : In (Spec.config_name g p, Spec.entry g p remotes marker)
                        (Spec.discoveries w repo_dir)).
      { apply (in_discoveries _ _ _ _ _ _ Hin). rewrite Hdisc. left. reflexivity. }
      split; [exact Hind|]. split; [|intros Hnd; apply get_store_unique; assumption].
      apply get_store_in. apply in_map_iff.
      exists (Spec.config_name g p, Spec.entry g p remotes marker).
      split; [reflexivity | exact Hind].
Qed.

(** C8: when the walk returns, every key of the declaration it was given
    is still there; a key the walk did not find keeps its entry as it
    was, a key it found holds an entry the walk made. *)
Theorem discovery_merge_keeps_entries config repo_dir w config' w' t table :
  update.update_config (Some config) repo_dir w = (Ok config', w', t) ->
  cfg_project config = Some table ->
  exists table',
    cfg_project config' = Some table'
    /\ table' = Spec.store_all (Spec.discoveries w repo_dir) table
    /\ forall k v, PyDict.get k table = Some v ->
         (exists v', PyDict.get k table' = Some v')
         /\ (~ In k (map fst (Spec.discoveries w repo_dir)) ->
             PyDict.get k table' = Some v)
         /\ (In k (map fst (Spec.discoveries w repo_dir)) ->
             exists v', In (k, v') (Spec.discoveries w repo_dir)
                        /\ PyDict.get k table' = Some v').
Proof.
  intros E Ht.
  assert (Hnew : update.or_new_document (Some config) = config).
  { unfold update.or_new_document, truthy. rewrite Ht.
    destruct (cfg_repo_dir config); reflexivity. }
  assert (Ht' : cfg_project (update.or_new_document (Some config)) = Some table)
    by (rewrite Hnew; exact Ht).
  destruct (update_config_table _ _ _ E Ht') as [_ Htab].
  exists (Spec.store_all (Spec.discoveries w repo_dir) table).
  split; [exact Htab|]. split; [reflexivity|].
  intros k v Hk.
  assert (Hother : ~ In k (map fst (Spec.discoveries w repo_dir)) ->
                   PyDict.get k (Spec.store_all (Spec.discoveries w repo_dir) table) = Some v).
  { intros Hn. rewrite get_store_other by exact Hn. exact Hk. }
  split; [|split; [exact Hother | apply get_store_in]].
  destruct (in_dec string_dec k (map fst (Spec.discoveries w repo_dir))) as [Hin | Hn].
  - destruct (get_store_in _ _ table Hin) as (v' & _ & Hg). eauto.
  - eauto.
Qed.
End Discovery.

(* ################################################################# *)
(** * Steps with a condition on the world, the events and the value *)

Section Hoare.
Context {W : Type} `{System W}.

(** [m] leaves the world as it is when [keep] is set, causes only events
    that satisfy [P], and returns only values that satisfy [Q]. *)
Definition hoare {A} (keep : bool) (P : Event -> bool) (Q : A -> Prop) (m : M W A) : Prop :=
  forall w r w' t, m w = (r, w', t) ->
    (keep = true -> w' = w) /\ forallb P t = true /\ (forall a, r = Ok a -> Q a).

Lemma hoare_ret {A} keep P (Q : A -> Prop) a : Q a -> hoare keep P Q (ret a).
Proof.
  intros HQ w r w' t E. injection E as <- <- <-.
  split; [reflexivity|]. split; [reflexivity|]. intros a' E. injection E as <-. exact HQ.
Qed.

Lemma hoare_observe {A} keep P (Q : A -> Prop) (f : W -> A) :
  (forall a, Q a) -> hoare keep P Q (observe f).
Proof.
  intros HQ w r w' t E. injection E as <- <- <-.
  split; [reflexivity|]. split; [reflexivity|]. intros a' _. apply HQ.
Qed.

Lemma hoare_raise {A} keep P (Q : A -> Prop) e : hoare keep P Q (raise e).
Proof.
  intros w r w' t E. injection E as <- <- <-.
  split; [reflexivity|]. split; [reflexivity|]. discriminate.
Qed.

Lemma hoare_exit {A} keep P (Q : A -> Prop) c : hoare keep P Q (exit c).
Proof.
  intros w r w' t E. injection E as <- <- <-.
  split; [reflexivity|]. split; [reflexivity|]. discriminate.
Qed.

Lemma hoare_act P (Q : unit -> Prop) f e : P e = true -> Q tt -> hoare false P Q (act f e).
Proof.
  intros He HQ w r w' t E. injection E as <- <- <-.
  split; [discriminate|]. split; [cbn; rewrite He; reflexivity|].
  intros [] _. exact HQ.
Qed.

Lemma hoare_emit keep P (Q : unit -> Prop) e : P e = true -> Q tt -> hoare keep P Q (emit e).
Proof.
  intros He HQ w r w' t E. injection E as <- <- <-.
  split; [reflexivity|]. split; [cbn; rewrite He; reflexivity|].
  intros [] _. exact HQ.
Qed.

Lemma hoare_bind {A B} keep P (Q1 : A -> Prop) (Q2 : B -> Prop) (m : M W A) (k : A -> M W B) :
  hoare keep P Q1 m -> (forall a, Q1 a -> hoare keep P Q2 (k a)) -> hoare keep P Q2 (bind m k).
Proof.
  intros Hm Hk w r w' t E. unfold bind in E.
  destruct (m w) as [[r1 w1] t1] eqn:Em.
  destruct (Hm _ _ _ _ Em) as (Hw1 & Ht1 & HQ1).
  destruct r1 as [a|c|e].
  - destruct (k a w1) as [[r2 w2] t2] eqn:Ek. injection E as <- <- <-.
    destruct (Hk a (HQ1 a eq_refl) _ _ _ _ Ek) as (Hw2 & Ht2 & HQ2).
    split; [intros Hkeep; rewrite (Hw2 Hkeep); apply Hw1; exact Hkeep|].
    split; [rewrite forallb_app, Ht1, Ht2; reflexivity | exact HQ2].
  - injection E as <- <- <-. split; [exact Hw1|]. split; [exact Ht1 | discriminate].
  - injection E as <- <- <-. split; [exact Hw1|]. split; [exact Ht1 | discriminate].
Qed.

Lemma hoare_weaken {A} keep P (Q Q' : A -> Prop) (m : M W A) :
  hoare keep P Q m -> (forall a, Q a -> Q' a) -> hoare keep P Q' m.
Proof.
  intros Hm HQ w r w' t E. destruct (Hm _ _ _ _ E) as (Hw & Ht & Ha).
  split; [exact Hw|]. split; [exact Ht|]. intros a Er. apply HQ, Ha, Er.
Qed.

Lemma hoare_for_each {S X} keep P (I : S -> Prop) (l : list X) (body : S -> X -> M W S) :
  (forall s x, I s -> hoare keep P I (body s x)) ->
  forall s, I s -> hoare keep P I (for_each l body s).
Proof.
  intros Hb. induction l as [|x l IH]; intros s Hs; cbn [for_each].
  - apply hoare_ret. exact Hs.
  - eapply hoare_bind; [apply Hb; exact Hs | intros a Ha; apply IH; exact Ha].
Qed.

Lemma hoare_try_except {A} keep P (Q : A -> Prop) (m h : M W A) e :
  hoare keep P Q m -> hoare keep P Q h -> hoare keep P Q (try_except m e h).
Proof.
  intros Hm Hh w r w' t E. unfold try_except in E.
  destruct (m w) as [[r1 w1] t1] eqn:Em.
  destruct (Hm _ _ _ _ Em) as (Hw1 & Ht1 & HQ1).
  destruct r1 as [a|c|e'].
  - injection E as <- <- <-. auto.
  - injection E as <- <- <-. auto.
  - destruct (match e with TypeError => _ | _ => _ end).
    + destruct (h w1) as [[r2 w2] t2] eqn:Eh. injection E as <- <- <-.
      destruct (Hh _ _ _ _ Eh) as (Hw2 & Ht2 & HQ2).
      split; [intros Hkeep; rewrite (Hw2 Hkeep); apply Hw1; exact Hkeep|].
      split; [rewrite forallb_app, Ht1, Ht2; reflexivity | exact HQ2].
    + injection E as <- <- <-. auto.
Qed.

(** A command: its event satisfies [P], and it is a query when the world
    has to stay as it is. *)
Lemma hoare_run_command keep P (Q : string -> Prop) command argv raise_err cwd :
  util.all_str command = Some argv ->
  (keep = true -> Spec.queries_read_only /\ Spec.is_query argv = true) ->
  (forall rc, P (Ran argv raise_err cwd rc) = true) ->
  (forall out, Q out) ->
  hoare keep P Q (util.run_command command raise_err cwd).
Proof.
  intros Ec Hk HP HQ w r w' t E.
  rewrite run_command_eq with (argv := argv) in E by exact Ec.
  injection E as <- <- <-.
  split; [intros Hkeep; destruct (Hk Hkeep) as [Hro Hq]; apply Hro; exact Hq|].
  split; [cbn; rewrite HP; reflexivity|]. intros a _. apply HQ.
Qed.
End Hoare.

(* ################################################################# *)
(** * Plan mode *)

(** [s] is [self] with lines added to its plan. *)
Definition same (self s : Project.t) : Prop :=
  exists lines, s = Spec.append_lines self lines.

Lemma same_refl self : same self self.
Proof. exists []. symmetry. apply append_lines_nil. Qed.

Lemma same_append self s line : same self s -> same self (Project.plan_append s line).
Proof.
  intros (lines & ->). exists (lines ++ [line])%list.
  rewrite plan_append_lines, append_lines_app. reflexivity.
Qed.

Lemma same_trans self s s' : same self s -> same s s' -> same self s'.
Proof.
  intros (l1 & ->) (l2 & ->). exists (l1 ++ l2)%list. apply append_lines_app.
Qed.

Lemma same_fields self s :
  same self s ->
  Project.apply s = Project.apply self /\ Project.dir s = Project.dir self
  /\ Project.remotes s = Project.remotes self /\ Project.skip_fetch s = Project.skip_fetch self
  /\ Project.envrc s = Project.envrc self /\ Project.name s = Project.name self.
Proof. intros (lines & ->). repeat split. Qed.

Section PlanMode.
Context {W : Type} `{System W}.
Hypothesis read_only : Spec.queries_read_only.

Lemma plan_get_remote_url self remote :
  hoare true Spec.read_only (fun _ : option string => True)
    (Project.get_remote_url self remote).
Proof.
  unfold Project.get_remote_url. apply hoare_try_except; [|apply hoare_ret; exact I].
  eapply hoare_bind with (Q1 := fun _ => True).
  - eapply hoare_run_command; [reflexivity | | intros rc; reflexivity | intros; exact I].
    intros _. split; [exact read_only | reflexivity].
  - intros out _. apply hoare_ret. exact I.
Qed.

Lemma plan_set_up_remote self name url :
  Project.apply self = false ->
  hoare true Spec.read_only (same self) (Project.set_up_remote self name url).
Proof.
  intros Ha. unfold Project.set_up_remote.
  eapply hoare_bind; [apply plan_get_remote_url|].
  intros [actual|] _; rewrite ?Ha.
  - destruct (String.eqb actual url); apply hoare_ret;
      [apply same_refl | repeat apply same_append; apply same_refl].
  - apply hoare_ret. apply same_append, same_refl.
Qed.

Lemma plan_set_up_remotes self :
  Project.apply self = false ->
  hoare true Spec.read_only (same self) (Project.set_up_remotes self).
Proof.
  intros Ha. unfold Project.set_up_remotes.
  apply hoare_for_each with (I := same self); [|apply same_refl].
  intros s [n u] Hs.
  eapply hoare_weaken; [apply plan_set_up_remote|].
  - destruct (same_fields Hs) as (E & _). rewrite E. exact Ha.
  - intros s' Hs'. exact (same_trans Hs Hs').
Qed.

Lemma plan_setup_envrc self :
  Project.apply self = false ->
  hoare true Spec.read_only (same self) (Project.setup_envrc self).
Proof.
  intros Ha. unfold Project.setup_envrc.
  eapply hoare_bind with (Q1 := fun _ => True); [apply hoare_observe; intros; exact I|].
  intros e _.
  eapply hoare_bind with (Q1 := fun c => c = None \/ c = Some self).
  - destruct (negb e); [rewrite Ha|]; apply hoare_ret; auto.
  - intros c [-> | ->]; [apply hoare_ret; apply same_append, same_refl|].
    eapply hoare_bind with (Q1 := fun _ => True).
    + unfold envrc.is_envrc_setup.
      eapply hoare_bind with (Q1 := fun _ => True); [|intros; apply hoare_ret; exact I].
      eapply hoare_run_command; [reflexivity | | intros rc; reflexivity | intros; exact I].
      intros _. split; [exact read_only | reflexivity].
    + intros ok _. destruct ok; [apply hoare_ret; apply same_refl|].
      rewrite Ha. apply hoare_ret. apply same_append, same_refl.
Qed.

Lemma plan_setup_venv self :
  Project.apply self = false ->
  hoare true Spec.read_only (same self) (Project.setup_venv self).
Proof.
  intros Ha. unfold Project.setup_venv.
  eapply hoare_bind with (Q1 := fun _ => True); [apply hoare_observe; intros; exact I|].
  intros e _. destruct (negb e); [rewrite Ha|]; apply hoare_ret;
    [apply same_append, same_refl | apply same_refl].
Qed.

Lemma plan_run_steps self :
  Project.apply self = false ->
  hoare true Spec.read_only (fun _ : list string => True) (Project.run_steps self).
Proof.
  intros Ha. unfold Project.run_steps.
  eapply hoare_bind with (Q1 := same self).
  - destruct (Project.envrc self); [|apply hoare_ret; apply same_refl].
    eapply hoare_bind; [apply plan_setup_envrc; exact Ha|].
    intros s1 H1. eapply hoare_weaken; [apply plan_setup_venv|].
    + destruct (same_fields H1) as (E & _). rewrite E. exact Ha.
    + intros s2 H2. exact (same_trans H1 H2).
  - intros s1 H1. destruct (same_fields H1) as (E1 & _).
    eapply hoare_bind with (Q1 := same s1);
      [apply plan_set_up_remotes; rewrite E1; exact Ha|].
    intros s2 H2. destruct (same_fields H2) as (E2 & _).
    rewrite E2, E1, Ha. cbn [andb].
    eapply hoare_bind with (Q1 := fun _ => True); [apply hoare_ret; exact I|].
    intros _ _. apply hoare_ret. exact I.
Qed.

Lemma plan_run self :
  Project.apply self = false ->
  hoare true Spec.read_only (fun _ : list string => True) (Project.run self).
Proof.
  intros Ha. unfold Project.run, Project.run_inited, util.dir_exists, util.is_inited.
  eapply hoare_bind with (Q1 := fun _ => True); [apply hoare_observe; intros; exact I|].
  intros e _. destruct (negb e); rewrite ?Ha; [apply hoare_ret; exact I|].
  eapply hoare_bind with (Q1 := fun _ => True); [apply hoare_observe; intros; exact I|].
  intros i _. destruct (negb i); rewrite ?Ha; [apply hoare_ret; exact I|].
  apply plan_run_steps. exact Ha.
Qed.

(** X2: in plan mode a run changes nothing, however it ends: the world is
    as before, and every event of the run is a command that only asks
    (the lookup of a remote or [direnv status]); no directory is made, no
    file written, no command that changes a repository started. *)
Theorem plan_mode_changes_nothing self w r w' t :
  Project.apply self = false ->
  Project.run self w = (r, w', t) ->
  w' = w /\ forallb Spec.read_only t = true.
Proof.
  intros Ha E.
  destruct (plan_run self Ha _ E) as (Hw & Ht & _).
  split; [apply Hw; reflexivity | exact Ht].
Qed.
End PlanMode.

(* ################################################################# *)
(** * The gates, the clone and the remote commands *)

Section Steps.
Context {W : Type} `{System W}.

(** X1: the directory is missing, in plan mode: the plan is the one line of
    the clone, whatever else is declared, and nothing is run or changed. *)
Theorem plan_missing_directory_is_one_entry self w :
  Project.apply self = false ->
  Project.plan self = [] ->
  is_dir (Project.dir self) w = false ->
  Project.run self w = (Ok [Project.line_clone_new (Project.name self)], w, []).
Proof.
  intros Ha Hp Hd. unfold Project.run, util.dir_exists.
  rewrite bind_observe, Hd. cbn [negb]. rewrite Ha.
  unfold ret, Project.plan_append. cbn [Project.plan]. rewrite Hp. reflexivity.
Qed.

(** A command of the reconciler in apply mode: [self] comes back, or the
    process stops. *)
Definition commanded (self : Project.t) (argv : list string) (cwd : option Path) (w : W)
    : Res Project.t * W * list Event :=
  let c := fst (subprocess_run argv cwd w) in
  (if (returncode c =? 0)%Z then Ok self else Exit EX_OSERR,
   snd (subprocess_run argv cwd w),
   [Ran argv false cwd (returncode c)]).

Lemma run_then_self self command argv cwd w :
  util.all_str command = Some argv ->
  (util.run_command command false cwd ;; ret self) w = commanded self argv cwd w.
Proof.
  intros Ec. unfold bind, commanded.
  rewrite run_command_eq with (argv := argv) by exact Ec. cbv zeta.
  destruct (returncode _ =? 0)%Z; [|reflexivity].
  cbn. reflexivity.
Qed.

(** X4: the directory is missing, in apply mode, and [origin] is declared:
    the parents are made, then [git clone] is run with the URL of
    [origin] and the directory; when it fails the process stops there,
    otherwise the run goes on with the initialization gate. *)
Theorem apply_missing_directory_clones_origin self w url :
  Project.apply self = true ->
  is_dir (Project.dir self) w = false ->
  PyDict.get "origin" (Project.remotes self) = Some url ->
  let parent := PurePath.parent (Project.dir self) in
  let clone := ["git"; "clone"; url; PurePath.to_str (Project.dir self)] in
  let c := fst (subprocess_run clone None (mkdir_parents parent w)) in
  let w2 := snd (subprocess_run clone None (mkdir_parents parent w)) in
  Project.run self w
  = after [MadeDirs parent; Ran clone false None (returncode c)]
      (if (returncode c =? 0)%Z then Project.run_inited self w2
       else (Exit EX_OSERR, w2, [])).
Proof.
  intros Ha Hd Ho. cbv zeta. unfold Project.run, util.dir_exists.
  rewrite bind_observe, Hd. cbn [negb]. rewrite Ha.
  unfold util.create_parent_dir. erewrite bind_ok by reflexivity.
  unfold Project.clone_repo. rewrite Ho. rewrite bind_assoc. unfold bind at 1.
  rewrite run_command_eq
    with (argv := ["git"; "clone"; url; PurePath.to_str (Project.dir self)])
    by reflexivity.
  cbv zeta. destruct (returncode _ =? 0)%Z.
  - rewrite bind_ret.
    destruct (Project.run_inited self _) as [[r2 w3] t2]. reflexivity.
  - reflexivity.
Qed.

(** X5: one declared remote in apply mode: after the lookup, the command of
    the comparator's action is run, [remote add] for a missing remote and
    [remote set-url] for another URL, and none when the URL is the same. *)
Theorem apply_remote_runs_the_action self name url w :
  Project.apply self = true ->
  let w1 := snd (subprocess_run (Spec.get_url_argv (Project.dir self) name) None w) in
  let observed :=
    Spec.answer (fst (subprocess_run (Spec.get_url_argv (Project.dir self) name) None w)) in
  Project.set_up_remote self name url w
  = after [Spec.lookup_event (Project.dir self) w name]
      (match Spec.remote_action name url observed with
       | [] => (Ok self, w1, [])
       | Spec.AddRemote n u :: _ =>
           commanded self
             ["git"; "-C"; PurePath.to_str (Project.dir self); "remote"; "add"; n; u] None w1
       | Spec.UpdateRemoteUrl n _ new :: _ =>
           commanded self
             ["git"; "-C"; PurePath.to_str (Project.dir self); "remote"; "set-url"; n; new]
             None w1
       end).
Proof.
  intros Ha. cbv zeta. unfold Project.set_up_remote.
  erewrite bind_ok by apply get_remote_url_eq.
  destruct (Spec.answer _) as [actual|]; cbn [Spec.remote_action].
  - destruct (String.eqb actual url); [reflexivity|]. rewrite Ha.
    unfold Project.update_remote. f_equal.
    rewrite <- run_then_self
      with (command := Project.git_C (Project.dir self)
                         [Some "remote"; Some "set-url"; Some name; Some url])
      by reflexivity.
    rewrite bind_assoc. unfold bind. destruct (util.run_command _ _ _ _) as [[[x|c|e] w2] t2];
      reflexivity.
  - rewrite Ha. unfold Project.add_remote. f_equal.
    rewrite <- run_then_self
      with (command := Project.git_C (Project.dir self)
                         [Some "remote"; Some "add"; Some name; Some url])
      by reflexivity.
    rewrite bind_assoc. unfold bind. destruct (util.run_command _ _ _ _) as [[[x|c|e] w2] t2];
      reflexivity.
Qed.

(** ** The sync step runs only when it is asked for *)

Definition no_sync (dir : Path) (e : Event) : bool := negb (Spec.is_sync dir e).

Lemma no_sync_command dir argv raise_err cwd rc :
  argv <> Spec.fetch_argv dir -> argv <> Spec.submodule_argv dir ->
  no_sync dir (Ran argv raise_err cwd rc) = true.
Proof.
  intros H1 H2. unfold no_sync, Spec.is_sync.
  destruct (list_eq_dec string_dec argv (Spec.fetch_argv dir)); [contradiction|].
  destruct (list_eq_dec string_dec argv (Spec.submodule_argv dir)); [contradiction|].
  reflexivity.
Qed.

Ltac other_command :=
  eapply hoare_run_command;
  [ reflexivity
  | discriminate
  | intros ?; apply no_sync_command; discriminate
  | intros; exact I ].

Lemma quiet_sync_set_up_remote dir self name url :
  hoare false (no_sync dir) (same self) (Project.set_up_remote self name url).
Proof.
  unfold Project.set_up_remote, Project.get_remote_url.
  eapply hoare_bind with (Q1 := fun _ => True).
  - apply hoare_try_except; [|apply hoare_ret; exact I].
    eapply hoare_bind with (Q1 := fun _ => True); [other_command|].
    intros; apply hoare_ret; exact I.
  - intros [actual|] _.
    + destruct (String.eqb actual url); [apply hoare_ret; apply same_refl|].
      destruct (Project.apply self).
      * unfold Project.update_remote.
        eapply hoare_bind with (Q1 := fun _ => True);
          [|intros; apply hoare_ret; apply same_refl].
        eapply hoare_bind with (Q1 := fun _ => True); [other_command|].
        intros; apply hoare_ret; exact I.
      * apply hoare_ret. repeat apply same_append. apply same_refl.
    + destruct (Project.apply self).
      * unfold Project.add_remote.
        eapply hoare_bind with (Q1 := fun _ => True);
          [|intros; apply hoare_ret; apply same_refl].
        eapply hoare_bind with (Q1 := fun _ => True); [other_command|].
        intros; apply hoare_ret; exact I.
      * apply hoare_ret. apply same_append, same_refl.
Qed.

Lemma quiet_sync_env dir self :
  hoare false (no_sync dir) (same self)
    (self0 <- Project.setup_envrc self;; Project.setup_venv self0).
Proof.
  eapply hoare_bind with (Q1 := same self).
  - unfold Project.setup_envrc.
    eapply hoare_bind with (Q1 := fun _ => True); [apply hoare_observe; intros; exact I|].
    intros e _.
    eapply hoare_bind with (Q1 := fun c => c = None \/ c = Some self).
    + destruct (negb e); [|apply hoare_ret; auto].
      destruct (Project.apply self); [|apply hoare_ret; auto].
      eapply hoare_bind with (Q1 := fun _ => True);
        [apply hoare_act; [reflexivity | exact I] | intros; apply hoare_ret; auto].
    + intros c [-> | ->]; [apply hoare_ret; apply same_append, same_refl|].
      eapply hoare_bind with (Q1 := fun _ => True).
      * unfold envrc.is_envrc_setup.
        eapply hoare_bind with (Q1 := fun _ => True); [other_command|].
        intros; apply hoare_ret; exact I.
      * intros ok _. destruct ok; [apply hoare_ret; apply same_refl|].
        destruct (Project.apply self).
        -- eapply hoare_bind with (Q1 := fun _ => True); [other_command|].
           intros; apply hoare_ret; apply same_refl.
        -- apply hoare_ret. apply same_append, same_refl.
  - intros s1 H1. unfold Project.setup_venv.
    eapply hoare_bind with (Q1 := fun _ => True); [apply hoare_observe; intros; exact I|].
    intros e _. destruct (negb e); [|apply hoare_ret; exact H1].
    destruct (Project.apply s1).
    + eapply hoare_bind with (Q1 := fun _ => True); [other_command|].
      intros; apply hoare_ret; exact H1.
    + apply hoare_ret. apply same_append. exact H1.
Qed.

Lemma quiet_sync_run_steps self :
  Project.apply self = false \/ Project.skip_fetch self = true
  \/ PyDict.mem "origin" (Project.remotes self) = false ->
  hoare false (no_sync (Project.dir self)) (fun _ : list string => True)
    (Project.run_steps self).
Proof.
  intros Hno. unfold Project.run_steps.
  eapply hoare_bind with (Q1 := same self).
  - destruct (Project.envrc self); [apply quiet_sync_env | apply hoare_ret; apply same_refl].
  - intros s1 H1.
    eapply hoare_bind with (Q1 := same self).
    + unfold Project.set_up_remotes.
      apply hoare_for_each with (I := same self).
      * intros s [n u] Hs. eapply hoare_weaken; [apply quiet_sync_set_up_remote|].
        intros s' Hs'. exact (same_trans Hs Hs').
      * exact H1.
    + intros s2 H2. destruct (same_fields H2) as (Ea & _ & Er & Es & _).
      eapply hoare_bind with (Q1 := fun _ => True); [|intros; apply hoare_ret; exact I].
      rewrite Ea, Es. unfold Project.setup_origin. rewrite Er.
      destruct Hno as [-> | [-> | ->]]; cbn [andb negb];
        rewrite ?andb_false_r; try (apply hoare_ret; exact I).
      destruct (Project.apply self && negb (Project.skip_fetch self)); apply hoare_ret; exact I.
Qed.

(** X6: [git fetch origin] and [git submodule update] are never run in plan
    mode, nor when fetching is skipped, nor when no [origin] is declared. *)
Theorem sync_runs_only_when_asked self w r w' t :
  Project.apply self = false \/ Project.skip_fetch self = true
  \/ PyDict.mem "origin" (Project.remotes self) = false ->
  Project.run self w = (r, w', t) ->
  forallb (fun e => negb (Spec.is_sync (Project.dir self) e)) t = true.
Proof.
  intros Hno E.
  pose proof (quiet_sync_run_steps self Hno) as Hs. clear Hno.
  assert (Hrun : hoare false (no_sync (Project.dir self)) (fun _ : list string => True)
                   (Project.run self)).
  { assert (Hi : hoare false (no_sync (Project.dir self)) (fun _ : list string => True)
                   (Project.run_inited self)).
    { unfold Project.run_inited, util.is_inited.
      eapply hoare_bind with (Q1 := fun _ => True); [apply hoare_observe; intros; exact I|].
      intros i _. destruct (negb i); [|exact Hs].
      destruct (Project.apply self); [|apply hoare_ret; exact I].
      eapply hoare_bind with (Q1 := fun _ => True); [|intros; exact Hs].
      unfold Project.init_repo.
      eapply hoare_bind with (Q1 := fun _ => True); [other_command|].
      intros; apply hoare_ret; exact I. }
    unfold Project.run, util.dir_exists.
    eapply hoare_bind with (Q1 := fun _ => True); [apply hoare_observe; intros; exact I|].
    intros e _. destruct (negb e); [|exact Hi].
    destruct (Project.apply self); [|apply hoare_ret; exact I].
    eapply hoare_bind with (Q1 := fun _ => True);
      [apply hoare_act; [reflexivity | exact I]|].
    intros _ _. eapply hoare_bind with (Q1 := fun _ => True); [|intros; exact Hi].
    unfold Project.clone_repo.
    eapply hoare_bind with (Q1 := fun _ => True); [|intros; apply hoare_ret; exact I].
    destruct (PyDict.get "origin" (Project.remotes self)) as [url|].
    - other_command.
    - intros w0 r0 w0' t0 E0. injection E0 as <- <- <-.
      split; [discriminate|]. split; [reflexivity | discriminate]. }
  destruct (Hrun _ _ _ _ E) as (_ & Ht & _). exact Ht.
Qed.
End Steps.

(* ################################################################# *)
(** * Every lookup is made once *)

Section Lookups.
Context {W : Type} `{System W}.

(** The lookups of [m] are a prefix of [expected], and all of it when [m]
    returns; the values it returns satisfy [Q]. *)
Definition looks {A} (expected : list (list string)) (Q : A -> Prop) (m : M W A) : Prop :=
  forall w r w' t, m w = (r, w', t) ->
    (exists k, Spec.lookups t = firstn k expected)
    /\ (forall a, r = Ok a -> Spec.lookups t = expected /\ Q a).

Lemma lookups_app t1 t2 :
  Spec.lookups (t1 ++ t2) = (Spec.lookups t1 ++ Spec.lookups t2)%list.
Proof. apply flat_map_app. Qed.

Lemma lookups_none t : forallb Spec.no_lookup t = true -> Spec.lookups t = [].
Proof.
  induction t as [|e t IH]; [reflexivity|]. cbn [forallb]. intros Ht.
  apply andb_prop in Ht as [He Ht]. unfold Spec.lookups. cbn [flat_map].
  fold (Spec.lookups t). rewrite (IH Ht).
  destruct e as [argv raise_err cwd rc| | |]; [|reflexivity..].
  cbn in He. apply negb_true_iff in He. rewrite He. reflexivity.
Qed.

Lemma looks_quiet {A} (Q : A -> Prop) (m : M W A) :
  hoare false Spec.no_lookup Q m -> looks [] Q m.
Proof.
  intros Hm w r w' t E. destruct (Hm _ _ _ _ E) as (_ & Ht & HQ).
  rewrite (lookups_none _ Ht). split; [exists 0; reflexivity|].
  intros a Ea. split; [reflexivity | exact (HQ a Ea)].
Qed.

Lemma looks_bind {A B} e1 e2 (Q1 : A -> Prop) (Q2 : B -> Prop) (m : M W A) (k : A -> M W B) :
  looks e1 Q1 m -> (forall a, Q1 a -> looks e2 Q2 (k a)) -> looks (e1 ++ e2) Q2 (bind m k).
Proof.
  intros Hm Hk w r w' t E. unfold bind in E.
  destruct (m w) as [[r1 w1] t1] eqn:Em.
  destruct (Hm _ _ _ _ Em) as ((k1 & Hk1) & Hok).
  assert (Hstop : exists k0, Spec.lookups t1 = firstn k0 (e1 ++ e2)).
  { exists (Nat.min k1 (length e1)). rewrite Hk1, firstn_app.
    replace (Nat.min k1 (length e1) - length e1) with 0 by lia.
    cbn [firstn]. rewrite app_nil_r.
    destruct (Nat.le_ge_cases k1 (length e1)) as [Hle | Hge].
    - rewrite Nat.min_l by exact Hle. reflexivity.
    - rewrite Nat.min_r by exact Hge. rewrite !firstn_all2 by lia. reflexivity. }
  destruct r1 as [a|c|e].
  - destruct (k a w1) as [[r2 w2] t2] eqn:Ek. injection E as <- <- <-.
    destruct (Hok a eq_refl) as [E1 HQ1].
    destruct (Hk a HQ1 _ _ _ _ Ek) as ((k2 & Hk2) & Hok2).
    rewrite lookups_app, E1. split.
    + exists (length e1 + k2). rewrite firstn_app_2, Hk2. reflexivity.
    + intros b Eb. destruct (Hok2 b Eb) as [E2 HQ2]. rewrite E2. auto.
  - injection E as <- <- <-. split; [exact Hstop | discriminate].
  - injection E as <- <- <-. split; [exact Hstop | discriminate].
Qed.

Lemma looks_for_each {S X} (f : X -> list (list string)) (I : S -> Prop) (l : list X)
    (body : S -> X -> M W S) :
  (forall s x, I s -> looks (f x) I (body s x)) ->
  forall s, I s -> looks (flat_map f l) I (for_each l body s).
Proof.
  intros Hb. induction l as [|x l IH]; intros s Hs; cbn [for_each flat_map].
  - intros w r w' t E. injection E as <- <- <-. split; [exists 0; reflexivity|].
    intros a Ea. injection Ea as <-. auto.
  - eapply looks_bind; [apply Hb; exact Hs | intros a Ha; apply IH; exact Ha].
Qed.

Ltac no_lookup_command :=
  eapply hoare_run_command;
  [ reflexivity | discriminate | intros ?; reflexivity | intros; exact I ].

(** One declared remote: its lookup and no other. *)
Lemma looks_set_up_remote self s name url :
  same self s ->
  looks [Spec.get_url_argv (Project.dir self) name] (same self)
    (Project.set_up_remote s name url).
Proof.
  intros Hs. destruct (same_fields Hs) as (_ & Ed & _).
  unfold Project.set_up_remote.
  change [Spec.get_url_argv (Project.dir self) name]
    with ([Spec.get_url_argv (Project.dir self) name] ++ [])%list.
  eapply looks_bind with (Q1 := fun _ => True).
  - intros w r w' t E. rewrite get_remote_url_eq in E. injection E as <- <- <-.
    rewrite Ed. split; [exists 1; reflexivity|]. intros a _. split; [reflexivity | exact I].
  - intros actual _. apply looks_quiet. destruct actual as [actual|].
    + destruct (String.eqb actual url); [apply hoare_ret; exact Hs|].
      destruct (Project.apply s).
      * unfold Project.update_remote.
        eapply hoare_bind with (Q1 := fun _ => True);
          [|intros; apply hoare_ret; exact Hs].
        eapply hoare_bind with (Q1 := fun _ => True); [no_lookup_command|].
        intros; apply hoare_ret; exact I.
      * apply hoare_ret. repeat apply same_append. exact Hs.
    + destruct (Project.apply s).
      * unfold Project.add_remote.
        eapply hoare_bind with (Q1 := fun _ => True);
          [|intros; apply hoare_ret; exact Hs].
        eapply hoare_bind with (Q1 := fun _ => True); [no_lookup_command|].
        intros; apply hoare_ret; exact I.
      * apply hoare_ret. apply same_append. exact Hs.
Qed.

(** The environment steps make no lookup. *)
Lemma no_lookup_env self :
  hoare false Spec.no_lookup (same self)
    (self0 <- Project.setup_envrc self;; Project.setup_venv self0).
Proof.
  eapply hoare_bind with (Q1 := same self).
  - unfold Project.setup_envrc.
    eapply hoare_bind with (Q1 := fun _ => True); [apply hoare_observe; intros; exact I|].
    intros e _.
    eapply hoare_bind with (Q1 := fun c => c = None \/ c = Some self).
    + destruct (negb e); [|apply hoare_ret; auto].
      destruct (Project.apply self); [|apply hoare_ret; auto].
      eapply hoare_bind with (Q1 := fun _ => True);
        [apply hoare_act; [reflexivity | exact I] | intros; apply hoare_ret; auto].
    + intros c [-> | ->]; [apply hoare_ret; apply same_append, same_refl|].
      eapply hoare_bind with (Q1 := fun _ => True).
      * unfold envrc.is_envrc_setup.
        eapply hoare_bind with (Q1 := fun _ => True); [no_lookup_command|].
        intros; apply hoare_ret; exact I.
      * intros ok _. destruct ok; [apply hoare_ret; apply same_refl|].
        destruct (Project.apply self).
        -- eapply hoare_bind with (Q1 := fun _ => True); [no_lookup_command|].
           intros; apply hoare_ret; apply same_refl.
        -- apply hoare_ret. apply same_append, same_refl.
  - intros s1 H1. unfold Project.setup_venv.
    eapply hoare_bind with (Q1 := fun _ => True); [apply hoare_observe; intros; exact I|].
    intros e _. destruct (negb e); [|apply hoare_ret; exact H1].
    destruct (Project.apply s1).
    + eapply hoare_bind with (Q1 := fun _ => True); [no_lookup_command|].
      intros; apply hoare_ret; exact H1.
    + apply hoare_ret. apply same_append. exact H1.
Qed.

(** The sync step makes no lookup. *)
Lemma no_lookup_setup_origin self :
  hoare false Spec.no_lookup (fun _ : unit => True) (Project.setup_origin self).
Proof.
  unfold Project.setup_origin. destruct (PyDict.mem _ _); [|apply hoare_ret; exact I].
  eapply hoare_bind with (Q1 := fun _ => True); [no_lookup_command|].
  intros _ _. eapply hoare_bind with (Q1 := fun _ => True); [no_lookup_command|].
  intros; apply hoare_ret; exact I.
Qed.

(** The lookups of a run: the declared remotes, in the order of the
    declaration, each once. *)
Definition declared_lookups (self : Project.t) : list (list string) :=
  map (Spec.get_url_argv (Project.dir self)) (PyDict.keys (Project.remotes self)).

Lemma declared_lookups_flat dir (l : PyDict.dict string) :
  flat_map (fun x : string * string => [Spec.get_url_argv dir (fst x)]) l
  = map (Spec.get_url_argv dir) (PyDict.keys l).
Proof.
  unfold PyDict.keys. induction l as [|x l IH]; [reflexivity|].
  cbn [flat_map map app]. rewrite IH. reflexivity.
Qed.

Lemma looks_run_steps self :
  looks (declared_lookups self) (fun _ : list string => True) (Project.run_steps self).
Proof.
  unfold Project.run_steps.
  change (declared_lookups self) with ([] ++ declared_lookups self)%list.
  eapply looks_bind with (Q1 := same self).
  - apply looks_quiet.
    destruct (Project.envrc self); [apply no_lookup_env | apply hoare_ret; apply same_refl].
  - intros s1 H1. destruct (same_fields H1) as (_ & _ & Er & _).
    rewrite <- (app_nil_r (declared_lookups self)).
    eapply looks_bind with (Q1 := same self).
    + unfold Project.set_up_remotes, declared_lookups. rewrite Er.
      rewrite <- declared_lookups_flat.
      apply looks_for_each with (I := same self); [|exact H1].
      intros s [n u] Hs. apply looks_set_up_remote. exact Hs.
    + intros s2 H2. apply looks_quiet.
      eapply hoare_bind with (Q1 := fun _ => True); [|intros; apply hoare_ret; exact I].
      destruct (_ && _); [apply no_lookup_setup_origin | apply hoare_ret; exact I].
Qed.

Lemma no_lookup_init_repo self :
  hoare false Spec.no_lookup (fun _ : unit => True) (Project.init_repo self).
Proof.
  unfold Project.init_repo.
  eapply hoare_bind with (Q1 := fun _ => True); [no_lookup_command|].
  intros; apply hoare_ret; exact I.
Qed.

Lemma no_lookup_clone_repo self :
  hoare false Spec.no_lookup (fun _ : unit => True) (Project.clone_repo self).
Proof.
  unfold Project.clone_repo.
  eapply hoare_bind with (Q1 := fun _ => True); [|intros; apply hoare_ret; exact I].
  destruct (PyDict.get "origin" (Project.remotes self)) as [url|].
  - no_lookup_command.
  - intros w0 r0 w0' t0 E0. injection E0 as <- <- <-.
    split; [discriminate|]. split; [reflexivity | discriminate].
Qed.

(** A step without lookups before [k]: the lookups are those of [k]. *)
Lemma lookups_after_quiet {A B} (Q : A -> Prop) (m : M W A) (k : A -> M W B) expected :
  hoare false Spec.no_lookup Q m ->
  (forall a w r w' t, k a w = (r, w', t) -> exists n, Spec.lookups t = firstn n expected) ->
  forall w r w' t, bind m k w = (r, w', t) ->
  exists n, Spec.lookups t = firstn n expected.
Proof.
  intros Hm Hk w r w' t. unfold bind.
  destruct (m w) as [[r1 w1] t1] eqn:E1.
  destruct (Hm _ _ _ _ E1) as (_ & Ht & _). apply lookups_none in Ht.
  destruct r1 as [a|c|e].
  - destruct (k a w1) as [[r2 w2] t2] eqn:E2. intros E. injection E as <- <- <-.
    rewrite lookups_app, Ht. exact (Hk _ _ _ _ _ E2).
  - intros E. injection E as <- <- <-. exists 0. rewrite Ht. reflexivity.
  - intros E. injection E as <- <- <-. exists 0. rewrite Ht. reflexivity.
Qed.

Lemma lookups_run_inited self w r w' t :
  Project.run_inited self w = (r, w', t) ->
  exists n, Spec.lookups t = firstn n (declared_lookups self).
Proof.
  unfold Project.run_inited, util.is_inited. rewrite bind_observe.
  destruct (negb _); [|apply (looks_run_steps self)].
  destruct (Project.apply self).
  - apply lookups_after_quiet with (Q := fun _ => True); [apply no_lookup_init_repo|].
    intros _ w0 r0 w0' t0. apply (looks_run_steps self).
  - intros E. injection E as <- <- <-. exists 0. reflexivity.
Qed.

(** The lookups of a run are those of the declared remotes, in the order
    of the declaration, up to where the run ended. *)
Lemma lookups_run self w r w' t :
  Project.run self w = (r, w', t) ->
  exists n, Spec.lookups t = firstn n (declared_lookups self).
Proof.
  unfold Project.run, util.dir_exists. rewrite bind_observe.
  destruct (negb _); [|apply lookups_run_inited].
  destruct (Project.apply self).
  - apply lookups_after_quiet with (Q := fun _ => True).
    + unfold util.create_parent_dir. apply hoare_act; [reflexivity | exact I].
    + intros _ w0 r0 w0' t0.
      apply lookups_after_quiet with (Q := fun _ => True); [apply no_lookup_clone_repo|].
      intros _ w1 r1 w1' t1. apply lookups_run_inited.
  - intros E. injection E as <- <- <-. exists 0. reflexivity.
Qed.

Lemma NoDup_firstn {A} (l : list A) : forall n, NoDup l -> NoDup (firstn n l).
Proof.
  induction l as [|x l IH]; intros n Hd; destruct n; cbn [firstn]; try constructor.
  - inversion Hd as [|? ? Hx Hl]; subst. intros Hin. apply Hx.
    rewrite <- (firstn_skipn n l). apply in_or_app. left. exact Hin.
  - inversion Hd; subst. apply IH. assumption.
Qed.

Lemma NoDup_lookups self n :
  NoDup (PyDict.keys (Project.remotes self)) ->
  NoDup (firstn n (declared_lookups self)).
Proof.
  intros Hd. apply NoDup_firstn. unfold declared_lookups.
  induction (PyDict.keys (Project.remotes self)) as [|x l IH]; cbn [map]; [constructor|].
  inversion Hd as [|? ? Hx Hl]; subst. constructor; [|apply IH; exact Hl].
  intros Hin. apply in_map_iff in Hin as (y & Ey & Hy).
  injection Ey as ->. exact (Hx Hy).
Qed.

Lemma in_lookups argv raise_err cwd rc t :
  Spec.is_get_url argv = true ->
  In (Ran argv raise_err cwd rc) t -> In argv (Spec.lookups t).
Proof.
  intros Hg Hin. unfold Spec.lookups. apply in_flat_map.
  exists (Ran argv raise_err cwd rc). split; [exact Hin|]. rewrite Hg. left. reflexivity.
Qed.

(** A tolerated lookup is not made again in a run whose lookups are all
    different. *)
Lemma tolerated_once pre e post :
  NoDup (Spec.lookups (pre ++ e :: post)) ->
  Spec.tolerated e = true ->
  forallb (fun e' => negb (Spec.same_command e e')) post = true.
Proof.
  intros Hd Ht. apply forallb_forall. intros e' Hin.
  destruct (Spec.same_command e e') eqn:Es; [|reflexivity]. exfalso.
  destruct e as [argv raise_err cwd rc| | |]; try discriminate Ht.
  destruct e' as [argv' raise_err' cwd' rc'| | |]; try discriminate Es.
  cbn in Es. destruct (list_eq_dec string_dec argv argv') as [<-|]; [|discriminate Es].
  assert (Hg : Spec.is_get_url argv = true).
  { destruct raise_err; [|discriminate Ht]. cbn in Ht.
    apply andb_prop in Ht as [_ Hg]. exact Hg. }
  rewrite lookups_app in Hd.
  unfold Spec.lookups at 2 in Hd. cbn [flat_map] in Hd. rewrite Hg in Hd.
  cbn [app] in Hd. fold (Spec.lookups post) in Hd.
  apply NoDup_remove_2 in Hd. apply Hd. apply in_or_app. right.
  apply (in_lookups _ _ _ _ _ Hg Hin).
Qed.

(** C6, as the code has it: a command that ends with a non-zero status
    stops the process with [EX_OSERR] at once, after its output was
    captured; the one call site that lives with a failure is the
    reconciler's remote-URL lookup, which answers [None]. The same lookup
    made by the discovery is fatal like every other call. No call is made
    again: a fatal call is the last event of the run, and in a run of the
    reconciler the lookups are those of the declared remotes, in order
    and each once, so that the command line of a failed lookup does not
    occur again after it. *)
Theorem failed_command_is_fatal_but_reconciler_lookup :
  (forall argv cwd w,
      returncode (fst (subprocess_run argv cwd w)) <> 0%Z ->
      util.run_command (map Some argv) false cwd w
      = (Exit EX_OSERR, snd (subprocess_run argv cwd w),
         [Ran argv false cwd (returncode (fst (subprocess_run argv cwd w)))]))
  /\ (forall self remote w,
        returncode (fst (subprocess_run (Spec.get_url_argv (Project.dir self) remote) None w))
        <> 0%Z ->
        Project.get_remote_url self remote w
        = (Ok None,
           snd (subprocess_run (Spec.get_url_argv (Project.dir self) remote) None w),
           [Spec.lookup_event (Project.dir self) w remote]))
  /\ (forall self w r w' t pre e post,
        Project.run self w = (r, w', t) ->
        t = (pre ++ e :: post)%list ->
        Spec.failed e = true ->
        Spec.tolerated e = true
        \/ (post = [] /\ Spec.fatal e = true /\ r = Exit EX_OSERR))
  /\ (forall config repo_dir w r w' t pre e post,
        update.update_config config repo_dir w = (r, w', t) ->
        t = (pre ++ e :: post)%list ->
        Spec.failed e = true ->
        post = [] /\ Spec.fatal e = true /\ r = Exit EX_OSERR)
  /\ (forall self w r w' t,
        Project.run self w = (r, w', t) ->
        exists n,
          Spec.lookups t
          = map (Spec.get_url_argv (Project.dir self))
              (firstn n (PyDict.keys (Project.remotes self))))
  /\ (forall self w r w' t pre e post,
        NoDup (PyDict.keys (Project.remotes self)) ->
        Project.run self w = (r, w', t) ->
        t = (pre ++ e :: post)%list ->
        Spec.failed e = true ->
        forallb (fun e' => negb (Spec.same_command e e')) post = true).
Proof.
  split; [|split; [|split; [|split; [|split]]]].
  - intros argv cwd w Hrc.
    rewrite run_command_eq with (argv := argv).
    + cbv zeta. apply Z.eqb_neq in Hrc. rewrite Hrc. reflexivity.
    + apply all_str_map.
  - intros self remote w Hrc. rewrite get_remote_url_eq.
    unfold Spec.answer. apply Z.eqb_neq in Hrc. rewrite Hrc. reflexivity.
  - intros self w r w' t pre e post E Et He.
    destruct (triple_run self w E) as [Hf _].
    destruct (@fail_stop_failed_event _ _ _ _ _ _ _ Hf Et He) as [[_ Ht] | Hx]; auto.
  - intros config repo_dir w r w' t pre e post E Et He.
    destruct (sound_update_config config repo_dir w E) as [Hf _].
    destruct (@fail_stop_failed_event _ _ _ _ _ _ _ Hf Et He) as [[Ht _] | Hx];
      [discriminate | exact Hx].
  - intros self w r w' t E. destruct (lookups_run self w E) as (n & Hn).
    exists n. rewrite Hn. unfold declared_lookups. apply firstn_map.
  - intros self w r w' t pre e post Hd E Et He.
    destruct (triple_run self w E) as [Hf _].
    destruct (@fail_stop_failed_event _ _ _ _ _ _ _ Hf Et He) as [[_ Ht] | (-> & _)];
      [|reflexivity].
    apply tolerated_once with (pre := pre); [|exact Ht].
    rewrite <- Et. destruct (lookups_run self w E) as (n & ->).
    apply NoDup_lookups. exact Hd.
Qed.
End Lookups.

(* ################################################################# *)
(** * More on the discovery *)

(** A query of the discovery: the list of the remotes or the URL of one,
    made with [raise_err=False] in the working directory. *)
Definition discovery_query (e : Event) : bool :=
  match e with
  | Ran argv false None _ => Spec.is_list_remotes argv || Spec.is_get_url argv
  | _ => false
  end.

Section RemotesOfRepository.
Context {W : Type} `{System W}.

Lemma get_remotes_loop directory (names : list string) : forall acc w remotes w' t,
  for_each names
    (fun remotes remote =>
       remote_url <- util.run_command
                       (Project.git_C directory [Some "remote"; Some "get-url"; Some remote])
                       false None ;;
       ret (PyDict.set remote remote_url remotes))
    acc w = (Ok remotes, w', t) ->
  (NoDup (PyDict.keys acc) -> NoDup (PyDict.keys remotes))
  /\ (forall n, In n (PyDict.keys remotes) <-> In n (PyDict.keys acc) \/ In n names)
  /\ t = map (fun n => Ran (Spec.get_url_argv directory n) false None 0) names.
Proof.
  induction names as [|n names IH]; intros acc w remotes w' t E; cbn [for_each] in E.
  - injection E as <- <- <-. split; [auto|]. split; [|reflexivity].
    intros n. split; [auto | intros [Hn | []]; exact Hn].
  - rewrite bind_assoc in E. unfold bind at 1 in E.
    rewrite run_command_eq with (argv := Spec.get_url_argv directory n) in E by reflexivity.
    cbv zeta in E.
    destruct (returncode _ =? 0)%Z eqn:Erc; [|discriminate].
    rewrite bind_ret in E.
    destruct (for_each names _ _ _) as [[r2 w2] t2] eqn:E2.
    injection E as -> <- <-.
    destruct (IH _ _ _ _ _ E2) as (Hnd & Hkeys & ->).
    apply Z.eqb_eq in Erc. rewrite Erc.
    split; [intros Hd; apply Hnd, set_keeps_unique, Hd|].
    split; [|reflexivity].
    intros x. rewrite Hkeys, keys_set. cbn [In].
    destruct (PyDict.mem n acc) eqn:Em.
    + split; [intros [Hx | Hx]; auto|].
      intros [Hx | [<- | Hx]]; auto. left.
      unfold PyDict.mem in Em. destruct (PyDict.get n acc) eqn:Eg; [|discriminate].
      clear -Eg. unfold PyDict.keys. induction acc as [|[k v] acc IHa]; [discriminate|].
      cbn in *. destruct (String.eqb n k) eqn:Ek.
      * left. symmetry. apply String.eqb_eq. exact Ek.
      * right. apply IHa. exact Eg.
    + rewrite in_app_iff. cbn [In]. tauto.
Qed.

(** X11: when [get_remotes] returns, the table has each name that
    [git remote] printed, once, and nothing else; the tool was called
    once for the list and once for each printed line. *)
Theorem get_remotes_has_each_listed_name_once directory w remotes w' t :
  update.get_remotes directory w = (Ok remotes, w', t) ->
  let listing := fst (subprocess_run (Spec.list_remotes_argv directory) None w) in
  let names := PyStr.splitlines_from "" (PyStr.strip (stdout listing)) in
  returncode listing = 0%Z
  /\ NoDup (PyDict.keys remotes)
  /\ (forall n, In n (PyDict.keys remotes) <-> In n names)
  /\ t = (Ran (Spec.list_remotes_argv directory) false None 0
          :: map (fun n => Ran (Spec.get_url_argv directory n) false None 0) names)%list.
Proof.
  intros E. cbv zeta. unfold update.get_remotes in E. unfold bind at 1 in E.
  rewrite run_command_eq with (argv := Spec.list_remotes_argv directory) in E by reflexivity.
  cbv zeta in E.
  destruct (returncode _ =? 0)%Z eqn:Erc; [|discriminate].
  apply Z.eqb_eq in Erc.
  destruct (for_each _ _ _ _) as [[r2 w2] t2] eqn:E2.
  injection E as -> <- <-.
  destruct (get_remotes_loop _ _ _ _ E2) as (Hnd & Hkeys & ->).
  split; [exact Erc|]. split; [apply Hnd; constructor|].
  split; [|rewrite Erc; reflexivity].
  intros n. rewrite Hkeys. cbn. tauto.
Qed.
End RemotesOfRepository.

Section DiscoveryEdges.
Context {W : Type} `{System W}.
Hypothesis read_only : Spec.queries_read_only.

Lemma discovery_query_run_command (Q : string -> Prop) command argv :
  util.all_str command = Some argv ->
  Spec.is_list_remotes argv || Spec.is_get_url argv = true ->
  (forall out, Q out) ->
  hoare true discovery_query Q (util.run_command command false None).
Proof.
  intros Ec Hq HQ. eapply hoare_run_command; [exact Ec | | | exact HQ].
  - intros _. split; [exact read_only|]. unfold Spec.is_query.
    apply orb_prop in Hq as [-> | ->]; [|reflexivity]. rewrite orb_true_r. reflexivity.
  - intros rc. exact Hq.
Qed.

Lemma discovery_hoare config repo_dir :
  hoare true discovery_query (fun _ : Config => True) (update.update_config config repo_dir).
Proof.
  unfold update.update_config. cbv zeta.
  eapply hoare_bind with (Q1 := fun _ => True); [apply hoare_observe; intros; exact I|].
  intros d _. destruct (negb d); [apply hoare_exit|].
  eapply hoare_bind with (Q1 := fun _ => True); [apply hoare_observe; intros; exact I|].
  intros [groups|] _; [|apply hoare_raise].
  apply hoare_for_each with (I := fun _ => True); [|exact I].
  intros c g _. unfold update.visit_group.
  eapply hoare_bind with (Q1 := fun _ => True); [apply hoare_observe; intros; exact I|].
  intros [projects|] _; [|apply hoare_raise].
  apply hoare_for_each with (I := fun _ => True); [|exact I].
  intros c' p _. unfold update.visit_project, util.is_inited.
  eapply hoare_bind with (Q1 := fun _ => True); [apply hoare_observe; intros; exact I|].
  intros [|] _; [|apply hoare_ret; exact I].
  eapply hoare_bind with (Q1 := fun _ => True).
  - unfold update.get_project_info.
    eapply hoare_bind with (Q1 := fun _ => True).
    + unfold update.get_remotes.
      eapply hoare_bind with (Q1 := fun _ => True);
        [eapply discovery_query_run_command; [reflexivity | reflexivity | intros; exact I]|].
      intros out _. apply hoare_for_each with (I := fun _ => True); [|exact I].
      intros acc n _.
      eapply hoare_bind with (Q1 := fun _ => True);
        [eapply discovery_query_run_command; [reflexivity | reflexivity | intros; exact I]|].
      intros; apply hoare_ret; exact I.
    + intros [|r0 rs] _; [apply hoare_ret; exact I|].
      eapply hoare_bind with (Q1 := fun _ => True); [|intros; apply hoare_ret; exact I].
      unfold envrc.has_envrc.
      eapply hoare_bind with (Q1 := fun _ => True); [apply hoare_observe; intros; exact I|].
      intros [|] _; [|apply hoare_ret; exact I].
      eapply hoare_bind with (Q1 := fun _ => True); [apply hoare_observe; intros; exact I|].
      intros [content|] _; [apply hoare_ret; exact I | apply hoare_raise].
  - intros [name [project|]] _; [|apply hoare_ret; exact I].
    destruct (update.set_project c' name project);
      [apply hoare_ret; exact I | apply hoare_exit | apply hoare_raise].
Qed.

(** X12: the discovery changes nothing: whatever the tree and however it ends,
    the world is as before and the only commands started are
    [git -C dir remote] and [git -C dir remote get-url name]. *)
Theorem discovery_changes_nothing config repo_dir w r w' t :
  update.update_config config repo_dir w = (r, w', t) ->
  w' = w /\ forallb discovery_query t = true.
Proof.
  intros E. destruct (discovery_hoare config repo_dir _ E) as (Hw & Ht & _).
  split; [apply Hw; reflexivity | exact Ht].
Qed.

Lemma collect_each {X E} (rd : X -> option (list E)) l es x :
  Spec.collect rd l = Some es -> In x l -> rd x <> None.
Proof.
  revert es. induction l as [|y l IH]; intros es Ec Hin; [destruct Hin|].
  cbn in Ec. destruct (rd y) as [e|] eqn:Ey; [|discriminate].
  destruct (Spec.collect rd l) as [rest|]; [|discriminate].
  destruct Hin as [<- | Hin]; [rewrite Ey; discriminate | exact (IH rest eq_refl Hin)].
Qed.

(** X13: the inputs the discovery refuses: without the base directory the
    process exits with [EX_NOINPUT] before anything is read; with an
    entry of the base directory that is no directory (a plain file next
    to the groups) the walk never returns a declaration. *)
Theorem discovery_refuses_missing_base_and_stray_files config repo_dir w :
  (is_dir repo_dir w = false ->
   update.update_config config repo_dir w = (Exit EX_NOINPUT, w, []))
  /\ (forall groups g config',
        iterdir repo_dir w = Some groups ->
        In g groups ->
        iterdir g w = None ->
        fst (fst (update.update_config config repo_dir w)) <> Ok config').
Proof.
  split.
  - intros Hd. unfold update.update_config. cbv zeta. rewrite bind_observe, Hd. reflexivity.
  - intros groups g config' Hg Hin Hfile E.
    apply (update_config_ok read_only) in E as (_ & gs & es & Eg & Ec & _).
    rewrite Hg in Eg. injection Eg as <-.
    apply (collect_each _ _ _ Ec Hin). unfold read_group. rewrite Hfile. reflexivity.
Qed.

Lemma merge_without_table es config config' :
  cfg_project config = None ->
  Spec.merge es config = Ok config' -> es = [] /\ config' = config.
Proof.
  intros Hn. destruct es as [|[k v] es]; cbn.
  - intros E. injection E as <-. auto.
  - unfold update.set_project. rewrite Hn. discriminate.
Qed.

(** X14: a declaration that has no [project] table is never extended: the walk
    returns only when it found no repository with a remote, and then it
    returns the declaration as it was. *)
Theorem discovery_without_table_finds_nothing config repo_dir w config' w' t :
  cfg_project (update.or_new_document config) = None ->
  update.update_config config repo_dir w = (Ok config', w', t) ->
  Spec.discoveries w repo_dir = [] /\ config' = update.or_new_document config.
Proof.
  intros Hn E.
  assert (E' : fst (fst (update.update_config config repo_dir w)) = Ok config')
    by (rewrite E; reflexivity).
  apply (update_config_ok read_only) in E' as (_ & gs & es & Eg & Ec & Hm).
  destruct (merge_without_table _ _ Hn Hm) as [-> ->].
  split; [|reflexivity]. symmetry. eapply collect_discoveries; eassumption.
Qed.
End DiscoveryEdges.

(* ################################################################# *)
(** * Running the discovery again *)

Section Again.
Variable V : Type.
Implicit Types d : PyDict.dict V.

Lemma get_absent k d : ~ In k (PyDict.keys d) -> PyDict.get k d = None.
Proof.
  induction d as [|[k' v'] d IH]; cbn; intros Hn; [reflexivity|].
  destruct (String.eqb k k') eqn:E.
  - apply String.eqb_eq in E. exfalso. apply Hn. left. symmetry. exact E.
  - apply IH. intros Hin. apply Hn. right. exact Hin.
Qed.

Lemma get_present k d : PyDict.mem k d = true -> In k (PyDict.keys d).
Proof.
  unfold PyDict.mem. induction d as [|[k' v'] d IH]; cbn; [discriminate|].
  destruct (String.eqb k k') eqn:E.
  - intros _. left. symmetry. apply String.eqb_eq. exact E.
  - intros Hm. right. apply IH. exact Hm.
Qed.

(** Two dictionaries with the same keys in the same order and the same
    value at each key are the same. *)
Lemma dict_ext d1 : forall d2,
  NoDup (PyDict.keys d1) ->
  PyDict.keys d1 = PyDict.keys d2 ->
  (forall k, PyDict.get k d1 = PyDict.get k d2) ->
  d1 = d2.
Proof.
  induction d1 as [|[k v] d1 IH]; intros [|[k2 v2] d2] Hd Hk Hg; try discriminate.
  - reflexivity.
  - cbn in Hk. injection Hk as <- Hk.
    inversion Hd as [|? ? Hn Hd']; subst.
    pose proof (Hg k) as Hgk. cbn in Hgk. rewrite String.eqb_refl in Hgk.
    injection Hgk as <-. f_equal. apply IH; [exact Hd' | exact Hk|].
    intros k'. destruct (String.eqb k' k) eqn:E.
    + apply String.eqb_eq in E. subst k'.
      rewrite (get_absent _ _ Hn). symmetry. apply get_absent.
      unfold PyDict.keys in *. rewrite <- Hk. exact Hn.
    + specialize (Hg k'). cbn in Hg. rewrite E in Hg. exact Hg.
Qed.
End Again.

(** The value of the last entry of a key. *)
Fixpoint last_value (k : string) (es : list (string * ProjectData)) : option ProjectData :=
  match es with
  | [] => None
  | (k', v) :: r =>
      match last_value k r with
      | Some v' => Some v'
      | None => if String.eqb k k' then Some v else None
      end
  end.

Lemma get_store_last es : forall k (table : PyDict.dict ProjectData),
  PyDict.get k (Spec.store_all es table)
  = match last_value k es with
    | Some v => Some v
    | None => PyDict.get k table
    end.
Proof.
  unfold Spec.store_all. induction es as [|[k0 v0] es IH]; intros k table; cbn.
  - reflexivity.
  - rewrite IH. destruct (last_value k es); [reflexivity|].
    destruct (String.eqb k k0) eqn:E.
    + apply String.eqb_eq in E. subst. apply get_set_same.
    + apply get_set_other. intros ->. rewrite String.eqb_refl in E. discriminate.
Qed.

Lemma store_keeps_unique es : forall (table : PyDict.dict ProjectData),
  NoDup (PyDict.keys table) -> NoDup (PyDict.keys (Spec.store_all es table)).
Proof.
  unfold Spec.store_all. induction es as [|[k v] es IH]; intros table Hd; cbn [fold_left].
  - exact Hd.
  - apply IH, set_keeps_unique, Hd.
Qed.

Lemma key_last_value k es : In k (map fst es) -> exists v, last_value k es = Some v.
Proof.
  induction es as [|[k' v'] es IH]; cbn; [intros []|].
  intros [<- | Hin].
  - destruct (last_value k' es); [eauto|]. rewrite String.eqb_refl. eauto.
  - destruct (IH Hin) as (v & ->). eauto.
Qed.

(** Storing entries whose keys are all there keeps the keys and their
    order. *)
Lemma store_present_keys es : forall (table : PyDict.dict ProjectData),
  (forall k, In k (map fst es) -> PyDict.mem k table = true) ->
  PyDict.keys (Spec.store_all es table) = PyDict.keys table.
Proof.
  unfold Spec.store_all. induction es as [|[k v] es IH]; intros table Hall; cbn [fold_left].
  - reflexivity.
  - rewrite IH.
    + rewrite keys_set, (Hall k) by (left; reflexivity). reflexivity.
    + intros k' Hin. unfold PyDict.mem.
      destruct (String.eqb k k') eqn:E.
      * apply String.eqb_eq in E. subst. rewrite get_set_same. reflexivity.
      * rewrite get_set_other by (intros ->; rewrite String.eqb_refl in E; discriminate).
        apply (Hall k'). right. exact Hin.
Qed.

(** Storing the same entries a second time changes nothing. *)
Lemma store_all_twice es (table : PyDict.dict ProjectData) :
  NoDup (PyDict.keys table) ->
  Spec.store_all es (Spec.store_all es table) = Spec.store_all es table.
Proof.
  intros Hd. apply dict_ext.
  - apply store_keeps_unique, store_keeps_unique, Hd.
  - apply store_present_keys. intros k Hin. unfold PyDict.mem.
    rewrite get_store_last. destruct (key_last_value _ _ Hin) as (v & ->). reflexivity.
  - intros k. rewrite (get_store_last es k (Spec.store_all es table)).
    destruct (last_value k es) as [v|] eqn:E; [|reflexivity].
    rewrite get_store_last, E. reflexivity.
Qed.

Section DiscoveryAgain.
Context {W : Type} `{System W}.
Hypothesis read_only : Spec.queries_read_only.

(** The declaration the walk returns, in full. *)
Lemma update_config_value config repo_dir w config' w' t table :
  update.update_config config repo_dir w = (Ok config', w', t) ->
  cfg_project (update.or_new_document config) = Some table ->
  w' = w
  /\ config' = {| cfg_repo_dir := cfg_repo_dir (update.or_new_document config);
                  cfg_project := Some (Spec.store_all (Spec.discoveries w repo_dir) table) |}.
Proof.
  intros E Ht.
  destruct (discovery_changes_nothing read_only _ _ _ E) as [-> _].
  split; [reflexivity|].
  assert (E' : fst (fst (update.update_config config repo_dir w)) = Ok config')
    by (rewrite E; reflexivity).
  apply (update_config_ok read_only) in E' as (_ & gs & es & Eg & Ec & Hm).
  rewrite (merge_table _ _ Ht) in Hm. injection Hm as <-.
  assert (Ed : es = Spec.discoveries w repo_dir) by (eapply collect_discoveries; eassumption).
  rewrite Ed. reflexivity.
Qed.

(** X15: the discovery run a second time, on the declaration it returned and
    the same tree, returns that declaration again: nothing is added,
    moved or changed. *)
Theorem discovery_again_returns_the_same config repo_dir w table c1 w1 t1 c2 w2 t2 :
  cfg_project (update.or_new_document config) = Some table ->
  NoDup (PyDict.keys table) ->
  update.update_config config repo_dir w = (Ok c1, w1, t1) ->
  update.update_config (Some c1) repo_dir w1 = (Ok c2, w2, t2) ->
  c2 = c1 /\ w2 = w.
Proof.
  intros Ht Hd E1 E2.
  destruct (update_config_value _ _ _ E1 Ht) as [-> ->].
  set (D := Spec.discoveries w repo_dir) in *.
  assert (Hnew : update.or_new_document
                   (Some {| cfg_repo_dir := cfg_repo_dir (update.or_new_document config);
                            cfg_project := Some (Spec.store_all D table) |})
                 = {| cfg_repo_dir := cfg_repo_dir (update.or_new_document config);
                      cfg_project := Some (Spec.store_all D table) |}).
  { unfold update.or_new_document at 1, truthy. cbn.
    destruct (cfg_repo_dir (update.or_new_document config)); reflexivity. }
  destruct (update_config_value _ _ _ E2 (table := Spec.store_all D table)) as [-> ->].
  - rewrite Hnew. reflexivity.
  - split; [|reflexivity]. rewrite Hnew. cbn [cfg_repo_dir]. f_equal. f_equal.
    apply store_all_twice. exact Hd.
Qed.
End DiscoveryAgain.

(* ################################################################# *)
(** * The caller and the declaration *)

Section Caller.
Context {W : Type} `{System W}.

Lemma print_all (plan : list string) (w : W) :
  for_each plan (fun _ item => emit (Printed item)) tt w = (Ok tt, w, map Printed plan).
Proof.
  induction plan as [|line plan IH]; cbn [for_each map]; [reflexivity|].
  erewrite bind_ok by reflexivity. rewrite IH. reflexivity.
Qed.

(** X8: one project in plan mode: after the events of the run, the caller
    prints the header and every line of the plan in order, or the one
    line [no changes] when the plan is empty. *)
Theorem plan_report_lists_the_plan repo_dir skip_fetch name data w prj plan w1 t1 :
  Project.init (getcwd w) data repo_dir "plan" skip_fetch = Ok prj ->
  Project.run prj w = (Ok plan, w1, t1) ->
  main.run_one repo_dir "plan" skip_fetch tt (name, data) w
  = (Ok tt, w1,
     t1 ++ match plan with
           | [] => [Printed (main.line_no_changes name)]
           | _ => Printed (main.line_plan_for name) :: map Printed plan
           end)%list.
Proof.
  intros Ei Er. unfold main.run_one. rewrite bind_observe, Ei.
  cbn [String.eqb Ascii.eqb Bool.eqb andb].
  rewrite bind_ret. erewrite bind_ok by exact Er.
  destruct plan as [|line plan]; cbn [negb andb].
  - reflexivity.
  - erewrite bind_ok by reflexivity. rewrite print_all. reflexivity.
Qed.

Lemma for_each_app {S X} (body : S -> X -> M W S) (l1 l2 : list X) (s : S) (w : W) :
  for_each (l1 ++ l2) body s w
  = match for_each l1 body s w with
    | (Ok s1, w1, t1) => after t1 (for_each l2 body s1 w1)
    | other => other
    end.
Proof.
  revert s w. induction l1 as [|x l1 IH]; intros s w; cbn [for_each app].
  - unfold ret. destruct (for_each l2 body s w) as [[r w2] t2]. reflexivity.
  - unfold bind. destruct (body s x w) as [[[s1|c|e] w1] t1]; [|reflexivity..].
    rewrite IH. destruct (for_each l1 body s1 w1) as [[[s2|c|e] w2] t2]; [|reflexivity..].
    destruct (for_each l2 body s2 w2) as [[r3 w3] t3]. cbn [after].
    rewrite app_assoc. reflexivity.
Qed.

(** X9: an entry of the declaration without [name] or without [group] stops
    the run with a [KeyError] when the loop reaches it, in every mode and
    at every position of the declaration: the entries before it are
    processed as usual, nothing is printed or run for the entry itself,
    and the entries after it are not looked at. When an entry before it
    ends the run, the run ends there and the entry is not reached. *)
Theorem entry_without_name_or_group_raises done name data rest repo_dir action skip_fetch w :
  d_name data = None \/ d_group data = None ->
  main.run (done ++ (name, data) :: rest)%list repo_dir action skip_fetch w
  = match main.run done repo_dir action skip_fetch w with
    | (Ok _, w1, t1) => (Raise KeyError, w1, t1)
    | stopped => stopped
    end.
Proof.
  intros Hmiss. unfold main.run. rewrite for_each_app.
  destruct (for_each done (main.run_one repo_dir action skip_fetch) tt w)
    as [[[u|c|e] w1] t1]; [|reflexivity..].
  cbn [for_each]. unfold main.run_one.
  rewrite bind_assoc, bind_observe.
  assert (Ei : Project.init (getcwd w1) data repo_dir action skip_fetch = Raise KeyError).
  { unfold Project.init. destruct Hmiss as [-> | Hg]; [reflexivity|].
    rewrite Hg. destruct (d_name data); reflexivity. }
  rewrite Ei. unfold bind, raise, after. rewrite app_nil_r. reflexivity.
Qed.

(** X10: the branch of [main()] for [plan] and [apply]. Without a
    declaration, with an empty one or with one that has no project it ends
    with [EX_DATAERR] after one message, before any project is looked at.
    With projects, [apply] runs them with the flag of the command line;
    [plan], whose sub-parser has no [--skip-fetch], raises
    [AttributeError] on reading [args.skip_fetch], before any project is
    looked at. *)
Theorem reconcile_needs_projects args cfg repo_dir w c e r :
  cfg = Some c ->
  cfg_project c = Some (e :: r) ->
  (forall skip_fetch, cli.skip_fetch args = Some skip_fetch ->
     app.reconcile args cfg repo_dir w
     = main.run (e :: r) repo_dir (cli.command args) skip_fetch w)
  /\ (cli.skip_fetch args = None ->
      app.reconcile args cfg repo_dir w = (Raise AttributeError, w, []))
  /\ (forall flag,
        app.reconcile (cli.namespace "apply" flag) cfg repo_dir w
        = main.run (e :: r) repo_dir "apply" flag w)
  /\ (forall flag,
        app.reconcile (cli.namespace "plan" flag) cfg repo_dir w
        = (Raise AttributeError, w, []))
  /\ (forall cfg',
        match cfg' with
        | Some c' => truthy cfg' = false \/ cfg_project c' = None \/ cfg_project c' = Some []
        | None => True
        end ->
        exists message,
          app.reconcile args cfg' repo_dir w = (Exit EX_DATAERR, w, [Printed message])).
Proof.
  intros -> Hp.
  assert (Ht : truthy (Some c) = true).
  { unfold truthy. rewrite Hp. destruct (cfg_repo_dir c); reflexivity. }
  assert (Hs : forall a b, cli.skip_fetch a = Some b ->
            app.reconcile a (Some c) repo_dir w
            = main.run (e :: r) repo_dir (cli.command a) b w).
  { intros a b E. unfold app.reconcile. rewrite Ht. unfold config.get_projects.
    rewrite Hp, bind_ret, E. reflexivity. }
  assert (Hn : forall a, cli.skip_fetch a = None ->
            app.reconcile a (Some c) repo_dir w = (Raise AttributeError, w, [])).
  { intros a E. unfold app.reconcile. rewrite Ht. unfold config.get_projects.
    rewrite Hp, bind_ret, E. reflexivity. }
  split; [exact (Hs args)|]. split; [exact (Hn args)|].
  split; [intros flag; apply (Hs (cli.namespace "apply" flag)); reflexivity|].
  split; [intros flag; apply (Hn (cli.namespace "plan" flag)); reflexivity|].
  intros [c'|] Hc; unfold app.reconcile; [|eexists; reflexivity].
  destruct (truthy (Some c')) eqn:Et; [|eexists; reflexivity].
  destruct Hc as [Hc|[Hc|Hc]]; [discriminate| |];
    unfold config.get_projects; rewrite Hc; eexists; reflexivity.
Qed.

(** X7: the activation file that apply mode writes is the one the discovery
    recognizes: [setup_envrc] starts by writing the file, and on a
    filesystem that gives back what was written [has_envrc] answers
    [True] right after. *)
Theorem written_envrc_is_recognized self w :
  let file := Project.dir self // ".envrc" in
  let w1 := write_text file "source .venv/bin/activate" w in
  Project.apply self = true ->
  path_exists file w = false ->
  path_exists file w1 = true ->
  read_text file w1 = Some "source .venv/bin/activate" ->
  Project.setup_envrc self w
  = after [Wrote file "source .venv/bin/activate"]
      ((ok <- envrc.is_envrc_setup (Project.dir self) ;;
        if ok then ret self
        else util.run_command
               [Some "direnv"; Some "allow"; Some (PurePath.to_str (Project.dir self))]
               false None ;;
             ret self) w1)
  /\ envrc.has_envrc (Project.dir self) w1 = (Ok true, w1, []).
Proof.
  cbv zeta. intros Ha Hf He Hr. split.
  - unfold Project.setup_envrc. rewrite bind_observe, Hf. cbn [negb]. rewrite Ha.
    rewrite bind_assoc. erewrite bind_ok by reflexivity.
    rewrite bind_ret. rewrite Ha. reflexivity.
  - unfold envrc.has_envrc. rewrite bind_observe, He, bind_observe, Hr. reflexivity.
Qed.

(** X16: the entry the discovery makes of a repository leads the reconciler
    back to it: for a project directory [repo_dir/g/p], the project built
    from its entry has that name and group, the remotes and the flag of
    the entry, and the resolved directory of the repository. *)
Theorem discovered_entry_leads_back cwd repo_dir group_dir project_dir g p remotes marker
    action skip_fetch :
  group_dir = PurePath.mk (PurePath.absolute repo_dir) (PurePath.parts repo_dir ++ [g]) ->
  project_dir = PurePath.mk (PurePath.absolute repo_dir) (PurePath.parts repo_dir ++ [g; p]) ->
  PurePath.parse g = PurePath.mk false [g] ->
  PurePath.parse p = PurePath.mk false [p] ->
  Project.init cwd (Spec.entry group_dir project_dir remotes marker) repo_dir action skip_fetch
  = Ok (Project.mk p g marker remotes (PurePath.resolve cwd project_dir) skip_fetch
          (String.eqb action "apply") []).
Proof.
  intros -> -> Hg Hp. unfold Project.init, Spec.entry. cbn [d_name d_group d_envrc d_remotes].
  unfold PurePath.name. cbn [PurePath.parts].
  rewrite !last_last.
  replace (last (PurePath.parts repo_dir ++ [g; p]) "") with p
    by (change [g; p] with ([g] ++ [p])%list; rewrite app_assoc, last_last; reflexivity).
  f_equal. f_equal.
  - destruct marker; reflexivity.
  - unfold PurePath.joins, PurePath.join. rewrite Hg, Hp.
    cbn [PurePath.absolute PurePath.parts]. rewrite <- app_assoc. reflexivity.
Qed.
End Caller.

(* ################################################################# *)
(** * The plan as a function of the observed state *)

Section ExpectedPlan.
Context {W : Type} `{System W}.
Hypothesis read_only : Spec.queries_read_only.

(** What [direnv status] says in [dir]. *)
Definition status_of (dir : Path) (w : W) : Completed :=
  fst (subprocess_run Spec.status_argv (Some dir) w).

(** The lines of the environment steps in plan mode, when the status
    query succeeds where it is made. *)
Definition env_lines (self : Project.t) (w : W) : list string :=
  if Project.envrc self then
    ((if path_exists (Project.dir self // ".envrc") w then
        if PyStr.contains "Found RC allowed true"
             (PyStr.strip (stdout (status_of (Project.dir self) w)))
        then []
        else [Project.line_allow_envrc (Project.name self)]
      else [Project.line_create_envrc (Project.name self)])
     ++ (if path_exists (Project.dir self // ".venv") w then []
         else [Project.line_create_venv (Project.name self)]))%list
  else [].

(** The plan of a project in the world [w], where [observed] holds the
    URLs of the remotes. *)
Definition expected_plan (self : Project.t) (w : W) (observed : PyDict.dict string)
    : list string :=
  if negb (is_dir (Project.dir self) w) then [Project.line_clone_new (Project.name self)]
  else if negb (is_dir (Project.dir self // ".git") w)
       then [Project.line_clone_existing (Project.name self)]
       else (env_lines self w
             ++ flat_map Spec.show_action
                  (Spec.compare_remotes (Project.remotes self) observed))%list.

Lemma env_steps_plan self w :
  Project.apply self = false ->
  Project.envrc self = true ->
  (path_exists (Project.dir self // ".envrc") w = true ->
   returncode (status_of (Project.dir self) w) = 0%Z) ->
  exists t,
    (self0 <- Project.setup_envrc self;; Project.setup_venv self0) w
    = (Ok (Spec.append_lines self (env_lines self w)), w, t).
Proof.
  intros Ha He Hst. unfold env_lines. rewrite He.
  destruct (path_exists (Project.dir self // ".envrc") w) eqn:Hf.
  - specialize (Hst eq_refl). unfold status_of in *.
    assert (Erc : util.run_command [Some "direnv"; Some "status"] false
                    (Some (Project.dir self)) w
                  = (Ok (PyStr.strip (stdout (fst (subprocess_run Spec.status_argv
                                                     (Some (Project.dir self)) w)))),
                     w,
                     [Ran Spec.status_argv false (Some (Project.dir self)) 0])).
    { rewrite run_command_eq with (argv := Spec.status_argv) by reflexivity.
      cbv zeta. rewrite (read_only Spec.status_argv (Some (Project.dir self)) w eq_refl).
      rewrite Hst. reflexivity. }
    assert (E1 : Project.setup_envrc self w
                 = (Ok (Spec.append_lines self
                          (if PyStr.contains "Found RC allowed true"
                                (PyStr.strip (stdout (fst (subprocess_run Spec.status_argv
                                                             (Some (Project.dir self)) w))))
                           then [] else [Project.line_allow_envrc (Project.name self)])),
                    w, [Ran Spec.status_argv false (Some (Project.dir self)) 0])).
    { unfold Project.setup_envrc. rewrite bind_observe, Hf. cbn [negb].
      rewrite bind_ret. unfold envrc.is_envrc_setup. rewrite bind_assoc.
      erewrite bind_ok by exact Erc. rewrite bind_ret.
      destruct (PyStr.contains _ _).
      - rewrite append_lines_nil. reflexivity.
      - rewrite Ha. reflexivity. }
    eexists. erewrite bind_ok by exact E1.
    rewrite setup_venv_plan by exact Ha. cbn [after].
    rewrite append_lines_app. reflexivity.
  - eexists.
    erewrite bind_ok by (apply setup_envrc_plan_missing; assumption).
    rewrite setup_venv_plan by exact Ha. cbn [after app].
    rewrite append_lines_app. reflexivity.
Qed.

(** X3: in plan mode the plan is a function of the observed state: the clone
    line without the directory, the initialization line without the
    repository, and otherwise the lines of the missing pieces of the
    environment followed by the lines of the remote actions; the world is
    left as it was. *)
Theorem plan_is_the_difference self w observed :
  Project.apply self = false ->
  Project.plan self = [] ->
  Spec.observes self w observed ->
  (Project.envrc self = true ->
   path_exists (Project.dir self // ".envrc") w = true ->
   returncode (status_of (Project.dir self) w) = 0%Z) ->
  exists t, Project.run self w = (Ok (expected_plan self w observed), w, t).
Proof.
  intros Ha Hp Hobs Hst. unfold expected_plan.
  destruct (is_dir (Project.dir self) w) eqn:Hd; cbn [negb].
  2:{ eexists. apply plan_missing_directory_is_one_entry; assumption. }
  destruct (is_dir (Project.dir self // ".git") w) eqn:Hg; cbn [negb].
  2:{ eexists. unfold Project.run, Project.run_inited, util.dir_exists, util.is_inited.
      rewrite bind_observe, Hd. cbn [negb]. rewrite bind_observe, Hg. cbn [negb].
      rewrite Ha. unfold ret, Project.plan_append. cbn [Project.plan]. rewrite Hp.
      reflexivity. }
  rewrite (run_past_gates _ _ Hd Hg). unfold Project.run_steps.
  assert (E1 : exists t,
             (if Project.envrc self
              then self0 <- Project.setup_envrc self;; Project.setup_venv self0
              else ret self) w = (Ok (Spec.append_lines self (env_lines self w)), w, t)).
  { destruct (Project.envrc self) eqn:He.
    - apply env_steps_plan; auto.
    - exists []. unfold env_lines. rewrite He, append_lines_nil. reflexivity. }
  destruct E1 as (t1 & E1). erewrite bind_ok by exact E1.
  set (s1 := Spec.append_lines self (env_lines self w)).
  assert (E2 : Project.set_up_remotes s1 w
               = (Ok (Spec.append_lines s1
                        (flat_map Spec.show_action
                           (Spec.compare_remotes (Project.remotes self) observed))),
                  w,
                  map (fun '(n, _) => Spec.lookup_event (Project.dir self) w n)
                      (Project.remotes self))).
  { unfold Project.set_up_remotes.
    apply remotes_loop_plan with (observed := observed) (self := s1); [exact Ha|].
    intros n u Hin. split; [apply read_only, get_url_is_query | exact (Hobs n u Hin)]. }
  erewrite bind_ok by exact E2.
  change (Project.apply (Spec.append_lines s1 _)) with (Project.apply self).
  rewrite Ha. cbn [andb]. rewrite bind_ret. unfold ret, s1.
  cbn [after Project.plan Spec.append_lines]. rewrite Hp. cbn [app].
  eexists. reflexivity.
Qed.
End ExpectedPlan.

Ltac split_andb H :=
  repeat match type of H with
         | (_ && _ = true) => let H' := fresh H in apply andb_prop in H as [H H']
         end.

Ltac eqb_subst :=
  repeat match goal with
         | E : String.eqb _ _ = true |- _ => apply String.eqb_eq in E; subst
         end.

(** The fake tools answer queries without changing anything. *)
Lemma fake_queries_read_only : Spec.queries_read_only (W := Fake.World).
Proof.
  intros argv cwd w Hq. cbn. unfold Fake.run_tool.
  destruct (existsb _ _); [reflexivity|].
  unfold Spec.is_query, Spec.is_get_url, Spec.is_list_remotes, Spec.is_status in Hq.
  destruct argv as [|a [|b [|c [|d [|e [|f [|g r]]]]]]]; cbn in Hq; try discriminate;
    rewrite ?orb_false_r in Hq; split_andb Hq; eqb_subst; cbn.
  - (* direnv status *)
    destruct (existsb _ _); reflexivity.
  - (* git -C d remote *)
    unfold Fake.git_in. destruct (negb _); reflexivity.
  - (* git -C d remote get-url n *)
    unfold Fake.git_in. destruct (negb _); [reflexivity|]. cbn.
    destruct (PyDict.get _ _); reflexivity.
Qed.

(** C3 as stated fails in apply mode: [a] and [b] are declared, [a] is
    there with another URL and [b] is missing; the [set-url] of [a]
    fails, the process stops, and [b] is neither looked up nor added. In
    plan mode, in the same world, both remotes are handled. *)
Lemma mismatch_stops_later_remotes :
  let w := Scenario.world [Scenario.repo; Scenario.repo // ".git"] []
             [("a", "u9")] []
             [Spec.action_argv Scenario.repo (Spec.UpdateRemoteUrl "a" "u9" "u1")] in
  Project.set_up_remotes (Scenario.project "apply" false false [("a", "u1"); ("b", "u2")]) w
  = (Exit EX_OSERR, w,
     [Ran (Spec.get_url_argv Scenario.repo "a") true None 0;
      Ran ["git"; "-C"; "/base/g/p"; "remote"; "set-url"; "a"; "u1"] false None 1])
  /\ fst (fst (Project.set_up_remotes
                (Scenario.project "plan" false false [("a", "u1"); ("b", "u2")]) w))
     = Ok (Spec.append_lines (Scenario.project "plan" false false [("a", "u1"); ("b", "u2")])
             [Project.line_update_remote "a"; Project.line_from "u9"; Project.line_to "u1";
              Project.line_add_remote "b" "u2"]).
Proof. split; reflexivity. Qed.

Lemma remotes_compared_one_by_one_witness :
  let plan := Scenario.project "plan" false false [("a", "u1"); ("b", "u2")] in
  let self := Scenario.project "apply" false false [("a", "u1"); ("b", "u2")] in
  let w := Scenario.world [Scenario.repo; Scenario.repo // ".git"] []
             [("a", "u1"); ("b", "u3")] [] [] in
  fst (fst (Project.set_up_remotes plan w))
  = Ok (Spec.append_lines plan
          (flat_map Spec.show_action [Spec.UpdateRemoteUrl "b" "u3" "u2"]))
  /\ Project.set_up_remotes self w
     = (Ok self,
        Scenario.world [Scenario.repo; Scenario.repo // ".git"] []
          [("a", "u1"); ("b", "u2")] [] [],
        [Ran (Spec.get_url_argv Scenario.repo "a") true None 0;
         Ran (Spec.get_url_argv Scenario.repo "b") true None 0;
         Ran ["git"; "-C"; "/base/g/p"; "remote"; "set-url"; "b"; "u2"] false None 0]).
Proof.
  intros plan self w. split.
  - destruct (@remotes_compared_one_by_one Fake.World _ plan w [("a", "u1"); ("b", "u3")])
      as [E _].
    rewrite E.
    + reflexivity.
    + reflexivity.
    + exact fake_queries_read_only.
    + intros n u [X | [X | []]]; injection X as <- <-; reflexivity.
  - destruct (@remotes_compared_one_by_one Fake.World _ self w []) as (_ & E & _).
    rewrite (E eq_refl). vm_compute. reflexivity.
Defined.

Lemma scenario_converged action skip_fetch :
  Spec.converged
    (Scenario.project action skip_fetch true [("origin", "https://x/p.git")])
    Scenario.w_converged.
Proof.
  split; [reflexivity|]. split; [reflexivity|]. split.
  - intros n u [E | []]. injection E as <- <-. reflexivity.
  - intros _. repeat split; reflexivity.
Qed.

(** C1 as stated fails: the project is converged and the apply run still
    starts [git fetch origin] and then the update of the submodules, two
    commands that are no queries. *)
Lemma converged_apply_still_fetches :
  let self := Scenario.project "apply" false true [("origin", "https://x/p.git")] in
  Spec.converged self Scenario.w_converged
  /\ Project.run self Scenario.w_converged
     = (Ok [], Scenario.w_converged,
        [Ran Spec.status_argv false (Some Scenario.repo) 0;
         Ran (Spec.get_url_argv Scenario.repo "origin") true None 0;
         Ran (Spec.fetch_argv Scenario.repo) false None 0;
         Ran (Spec.submodule_argv Scenario.repo) false None 0])
  /\ Spec.mutating_call (Ran (Spec.fetch_argv Scenario.repo) false None 0) = true
  /\ Spec.mutating_call (Ran (Spec.submodule_argv Scenario.repo) false None 0) = true
  /\ Spec.read_only (Ran (Spec.fetch_argv Scenario.repo) false None 0) = false.
Proof.
  split; [apply scenario_converged|]. repeat split; reflexivity.
Qed.

Lemma converged_run_only_syncs_witness :
  let self := Scenario.project "apply" false true [("origin", "https://x/p.git")] in
  let plan := Scenario.project "plan" false true [("origin", "https://x/p.git")] in
  snd (Project.run self Scenario.w_converged)
  = [Ran Spec.status_argv false (Some Scenario.repo) 0;
     Ran (Spec.get_url_argv Scenario.repo "origin") true None 0;
     Ran (Spec.fetch_argv Scenario.repo) false None 0;
     Ran (Spec.submodule_argv Scenario.repo) false None 0]
  /\ fst (fst (Project.run self Scenario.w_converged)) = Ok []
  /\ Project.run plan Scenario.w_converged
     = (Ok [], Scenario.w_converged,
        [Ran Spec.status_argv false (Some Scenario.repo) 0;
         Ran (Spec.get_url_argv Scenario.repo "origin") true None 0]).
Proof.
  intros self plan. split; [|split].
  - destruct (Project.run self Scenario.w_converged) as [[r w'] t] eqn:E.
    destruct (@converged_run_only_syncs Fake.World _ self Scenario.w_converged r w' t
                fake_queries_read_only (scenario_converged "apply" false) eq_refl E)
      as (_ & _ & _ & Ht & _).
    exact Ht.
  - destruct (Project.run self Scenario.w_converged) as [[r w'] t] eqn:E.
    destruct (@converged_run_only_syncs Fake.World _ self Scenario.w_converged r w' t
                fake_queries_read_only (scenario_converged "apply" false) eq_refl E)
      as (_ & _ & _ & _ & _ & Hr).
    exact Hr.
  - destruct (Project.run plan Scenario.w_converged) as [[r w'] t] eqn:E.
    destruct (@converged_run_only_syncs Fake.World _ plan Scenario.w_converged r w' t
                fake_queries_read_only (scenario_converged "plan" false) eq_refl E)
      as (_ & _ & _ & -> & -> & ->).
    reflexivity.
Defined.

(** C6 as stated fails: the discovery makes the same remote-URL lookup
    and its failure stops the process; it is not read as a missing
    remote. The reconciler's lookup of the same remote answers [None]. *)
Lemma discovery_lookup_failure_is_fatal :
  update.get_remotes Scenario.repo Scenario.w_faulty
  = (Exit EX_OSERR, Scenario.w_faulty,
     [Ran (Spec.list_remotes_argv Scenario.repo) false None 0;
      Ran (Spec.get_url_argv Scenario.repo "origin") false None 1])
  /\ fst (fst (update.update_config None Scenario.base Scenario.w_faulty)) = Exit EX_OSERR
  /\ Project.get_remote_url (Scenario.project "plan" false true []) "origin" Scenario.w_faulty
     = (Ok None, Scenario.w_faulty,
        [Ran (Spec.get_url_argv Scenario.repo "origin") true None 1]).
Proof. repeat split; reflexivity. Qed.

Lemma failed_command_is_fatal_but_reconciler_lookup_witness :
  util.run_command (map Some (Spec.get_url_argv Scenario.repo "origin")) false None
    Scenario.w_faulty
  = (Exit EX_OSERR, Scenario.w_faulty,
     [Ran (Spec.get_url_argv Scenario.repo "origin") false None 1])
  /\ Project.get_remote_url (Scenario.project "plan" false true []) "origin" Scenario.w_faulty
     = (Ok None, Scenario.w_faulty,
        [Ran (Spec.get_url_argv Scenario.repo "origin") true None 1])
  /\ snd (Project.run (Scenario.project "plan" false true
                         [("origin", "https://x/p.git"); ("up", "https://z/p.git")])
            Scenario.w_faulty)
     = [Ran Spec.status_argv false (Some Scenario.repo) 0;
        Ran (Spec.get_url_argv Scenario.repo "origin") true None 1;
        Ran (Spec.get_url_argv Scenario.repo "up") true None 2]
  /\ forallb (fun e' => negb (Spec.same_command
                                (Ran (Spec.get_url_argv Scenario.repo "origin") true None 1) e'))
       [Ran (Spec.get_url_argv Scenario.repo "up") true None 2] = true.
Proof.
  destruct (@failed_command_is_fatal_but_reconciler_lookup Fake.World _)
    as (H1 & H2 & _ & _ & _ & H6).
  split; [|split; [|split]].
  - apply (H1 (Spec.get_url_argv Scenario.repo "origin") None Scenario.w_faulty).
    discriminate.
  - apply (H2 (Scenario.project "plan" false true []) "origin" Scenario.w_faulty).
    discriminate.
  - vm_compute. reflexivity.
  - destruct (Project.run (Scenario.project "plan" false true
                             [("origin", "https://x/p.git"); ("up", "https://z/p.git")])
                Scenario.w_faulty) as [[r w'] t] eqn:E.
    apply (H6 _ _ _ _ _ [Ran Spec.status_argv false (Some Scenario.repo) 0%Z]
             (Ran (Spec.get_url_argv Scenario.repo "origin") true None 1%Z)
             [Ran (Spec.get_url_argv Scenario.repo "up") true None 2%Z]) in E.
    + exact E.
    + constructor; [intros [X | []]; discriminate X|].
      constructor; [intros []|]. constructor.
    + apply (f_equal snd) in E. vm_compute in E. symmetry. exact E.
    + reflexivity.
Defined.

Lemma apply_returns_empty_plan_witness :
  let self := Scenario.project "apply" false true [("origin", "https://x/p.git")] in
  fst (fst (Project.run self Scenario.w_absent)) = Ok []
  /\ Spec.printed
       (snd (main.run [("g.p", Scenario.data true [("origin", "https://x/p.git")])]
               Scenario.base "apply" false Scenario.w_absent))
     = ["[bold underline]Applying plan for g.p:[/bold underline]";
        main.line_no_changes "g.p"].
Proof.
  intros self.
  destruct (@apply_returns_empty_plan Fake.World _) as [H1 H2].
  split.
  - destruct (Project.run self Scenario.w_absent) as [[r w'] t] eqn:E.
    destruct (H1 self Scenario.w_absent r w' t eq_refl eq_refl E)
      as [[-> _] | [[-> _] | [-> _]]].
    + reflexivity.
    + vm_compute in E. discriminate E.
    + vm_compute in E. discriminate E.
  - destruct (main.run _ _ _ _ _) as [[r w'] t] eqn:E.
    assert (Hr : r = Ok tt).
    { apply (f_equal (fun x => fst (fst x))) in E. vm_compute in E. destruct r; try discriminate E. destruct a. reflexivity. }
    subst r. exact (H2 _ _ _ _ _ _ E).
Defined.

(** C7 as stated fails: the directory is two levels below the base and
    initialized, it has no remote, and the discovery makes no entry of it.
    The walk does not always come to an entry either: a plain file in the
    base directory and a declaration with the [repo-dir] table only end
    it with an exception, and of two repositories with the same key one
    entry is kept. *)
Lemma initialized_without_remote_gives_no_entry :
  In (Scenario.group, Scenario.repo) (Spec.candidates Scenario.w_bare Scenario.base)
  /\ is_dir (Scenario.repo // ".git") Scenario.w_bare = true
  /\ update.update_config None Scenario.base Scenario.w_bare
     = (Ok {| cfg_repo_dir := None; cfg_project := Some [] |}, Scenario.w_bare,
        [Ran (Spec.list_remotes_argv Scenario.repo) false None 0])
  /\ update.update_config None Scenario.base Scenario.w_stray
     = (Raise NotADirectoryError, Scenario.w_stray, [])
  /\ fst (fst (update.update_config (Some Scenario.only_repo_dir) Scenario.base
                 Scenario.w_converged))
     = Raise KeyError
  /\ fst (fst (update.update_config None Scenario.base Scenario.w_collide))
     = Ok {| cfg_repo_dir := None;
             cfg_project :=
               Some [("a.b.c",
                      Spec.entry (PurePath.parse "/base/a") (PurePath.parse "/base/a/b.c")
                        [("origin", "u2")] false)] |}.
Proof. split; [left; reflexivity|]. repeat split; reflexivity. Qed.

Lemma discovery_synthesizes_entries_witness :
  exists config' t,
    update.update_config None Scenario.base Scenario.w_converged
    = (Ok config', Scenario.w_converged, t)
    /\ cfg_project config'
       = Some [("g.p", Spec.entry Scenario.group Scenario.repo
                         [("origin", "https://x/p.git")] true)].
Proof.
  destruct (@discovery_synthesizes_entries Fake.World _ fake_queries_read_only
              None Scenario.base Scenario.w_converged [Scenario.group] [])
    as [(config' & t & E & Ht) _].
  - reflexivity.
  - reflexivity.
  - intros g [<- | []]. discriminate.
  - intros g p [E | []]. injection E as <- <-. eexists. reflexivity.
  - reflexivity.
  - exists config', t. split; [exact E | exact Ht].
Defined.

Lemma discovery_merge_keeps_entries_witness :
  exists table',
    cfg_project (match fst (fst (update.update_config (Some Scenario.declared)
                                   Scenario.base Scenario.w_converged)) with
                 | Ok c => c
                 | _ => Scenario.declared
                 end) = Some table'
    /\ PyDict.get "attic.old" table' = Some Scenario.gone
    /\ PyDict.get "g.p" table'
       = Some (Spec.entry Scenario.group Scenario.repo [("origin", "https://x/p.git")] true).
Proof.
  destruct (update.update_config (Some Scenario.declared) Scenario.base Scenario.w_converged)
    as [[r w'] t] eqn:E.
  destruct r as [config'|c|e]; [|vm_compute in E; discriminate E|vm_compute in E; discriminate E].
  destruct (@discovery_merge_keeps_entries Fake.World _ fake_queries_read_only
              Scenario.declared Scenario.base Scenario.w_converged config' w' t
              [("attic.old", Scenario.gone); ("g.p", Scenario.data false [])] E eq_refl)
    as (table' & Ht & Etab & Hkeys).
  exists table'. cbn [fst]. split; [exact Ht|].
  split.
  - destruct (Hkeys "attic.old" Scenario.gone eq_refl) as (_ & Hkeep & _).
    apply Hkeep. intros [Hin | []]. vm_compute in Hin. discriminate Hin.
  - subst table'. reflexivity.
Defined.

(** C9 as stated fails: the constructor takes an empty group and a name
    that climbs out of the base directory. *)
Lemma project_dir_escapes_base :
  exists self,
    Project.init Scenario.root
      {| d_name := Some ".."; d_group := Some ""; d_envrc := None; d_remotes := None |}
      (PurePath.parse "/home/u/dev") "plan" false = Ok self
    /\ Project.group self = ""
    /\ Project.dir self = PurePath.parse "/home/u"
    /\ Spec.inside (PurePath.resolve Scenario.root (PurePath.parse "/home/u/dev"))
         (Project.dir self) = false.
Proof. eexists. repeat split; reflexivity. Qed.

Lemma project_dir_inside_for_plain_names_witness :
  Project.dir (Scenario.project "plan" false true [])
  = PurePath.mk true ["base"; "g"; "p"]
  /\ Spec.inside (PurePath.resolve Scenario.root Scenario.base)
       (Project.dir (Scenario.project "plan" false true [])) = true.
Proof.
  destruct (@project_dir_inside_for_plain_names Scenario.root (Scenario.data true [])
              Scenario.base "plan" false (Scenario.project "plan" false true []) eq_refl)
    as (_ & _ & _ & Hin).
  apply Hin; split; try reflexivity; cbn; intros [E | []]; discriminate E.
Defined.

Lemma apply_without_origin_raises_type_error_witness :
  Project.run (Scenario.project "apply" false false []) Scenario.w_absent
  = (Raise TypeError,
     Fake.make_dirs (PurePath.parse "/base/g") Scenario.w_absent,
     [MadeDirs (PurePath.parse "/base/g")]).
Proof.
  exact (@apply_without_origin_raises_type_error Fake.World _
           (Scenario.project "apply" false false []) Scenario.w_absent
           eq_refl eq_refl eq_refl).
Defined.

(** C4 as stated fails: the activation file is missing, the plan records
    its creation and, after it, the creation of the virtual environment. *)
Lemma plan_missing_envrc_still_records_venv :
  let self := Scenario.project "plan" false true [] in
  Project.apply self = false /\
  Project.envrc self = true /\
  path_exists (Project.dir self // ".envrc") Scenario.w_bare = false /\
  Project.run self Scenario.w_bare
  = (Ok [Project.line_create_envrc "p"; Project.line_create_venv "p"], Scenario.w_bare, []) /\
  In (Project.line_create_venv "p")
     [Project.line_create_envrc "p"; Project.line_create_venv "p"].
Proof.
  cbv zeta. repeat split; try reflexivity. right. left. reflexivity.
Qed.

Lemma plan_missing_envrc_skips_allow_only_witness :
  exists actions w' t,
    Project.run (Scenario.project "plan" false true []) Scenario.w_bare
    = (Ok ("[bold yellow]   will create .envrc in 'p'[/bold yellow]"
           :: ["[bold yellow]   will create venv in 'p'[/bold yellow]"]
           ++ flat_map Spec.show_action actions)%list, w', t)
    /\ forallb Spec.is_lookup t = true.
Proof.
  destruct (@plan_missing_envrc_skips_allow_only Fake.World _
              (Scenario.project "plan" false true []) Scenario.w_bare)
    as (actions & w' & t & E & Ht & _); try reflexivity.
  exists actions, w', t. split; [exact E | exact Ht].
Defined.

Lemma plan_uninitialized_is_one_entry_witness :
  Project.run (Scenario.project "plan" false true [("origin", "https://x/p.git")])
    Scenario.w_plain_dir
  = (Ok ["[bold yellow]   will clone 'p' in an existing dir[/bold yellow]"],
     Scenario.w_plain_dir, []).
Proof.
  apply (@plan_uninitialized_is_one_entry Fake.World _
           Scenario.root (Scenario.data true [("origin", "https://x/p.git")])
           Scenario.base false);
    reflexivity.
Defined.

(* ################################################################# *)
(** * Concrete runs of the further properties *)

Lemma plan_missing_directory_is_one_entry_witness :
  Project.run (Scenario.project "plan" false true [("origin", "https://x/p.git")])
    Scenario.w_absent
  = (Ok ["[bold yellow]   will clone 'p' in a new directory[/bold yellow]"],
     Scenario.w_absent, []).
Proof.
  exact (@plan_missing_directory_is_one_entry Fake.World _
           (Scenario.project "plan" false true [("origin", "https://x/p.git")])
           Scenario.w_absent eq_refl eq_refl eq_refl).
Defined.

Lemma plan_mode_changes_nothing_witness :
  let run := Project.run (Scenario.project "plan" false true [("origin", "https://y/p.git")])
               Scenario.w_converged in
  snd (fst run) = Scenario.w_converged /\ forallb Spec.read_only (snd run) = true.
Proof.
  cbv zeta.
  destruct (Project.run _ Scenario.w_converged) as [[r w'] t] eqn:E.
  exact (@plan_mode_changes_nothing Fake.World _ fake_queries_read_only
           (Scenario.project "plan" false true [("origin", "https://y/p.git")])
           Scenario.w_converged r w' t eq_refl E).
Defined.

Lemma plan_is_the_difference_witness :
  exists t,
    Project.run (Scenario.project "plan" false true
                   [("origin", "https://y/p.git"); ("up", "https://z/p.git")])
      Scenario.w_converged
    = (Ok [Project.line_update_remote "origin"; Project.line_from "https://x/p.git";
           Project.line_to "https://y/p.git";
           Project.line_add_remote "up" "https://z/p.git"],
       Scenario.w_converged, t).
Proof.
  destruct (@plan_is_the_difference Fake.World _ fake_queries_read_only
              (Scenario.project "plan" false true
                 [("origin", "https://y/p.git"); ("up", "https://z/p.git")])
              Scenario.w_converged [("origin", "https://x/p.git")])
    as (t & E).
  - reflexivity.
  - reflexivity.
  - intros n u [E | [E | []]]; injection E as <- <-; reflexivity.
  - intros _ _. reflexivity.
  - exists t. exact E.
Defined.

Lemma apply_missing_directory_clones_origin_witness :
  let self := Scenario.project "apply" true false [("origin", "https://x/p.git")] in
  let clone := ["git"; "clone"; "https://x/p.git"; "/base/g/p"] in
  Project.run self Scenario.w_absent
  = after [MadeDirs Scenario.group; Ran clone false None 0]
      (Project.run_inited self
         (snd (subprocess_run clone None (mkdir_parents Scenario.group Scenario.w_absent)))).
Proof.
  exact (@apply_missing_directory_clones_origin Fake.World _
           (Scenario.project "apply" true false [("origin", "https://x/p.git")])
           Scenario.w_absent "https://x/p.git" eq_refl eq_refl eq_refl).
Defined.

Lemma apply_remote_runs_the_action_witness :
  let self := Scenario.project "apply" true false [("origin", "https://x/p.git")] in
  Project.set_up_remote self "origin" "https://x/p.git" Scenario.w_bare
  = (Ok self,
     Fake.set_remotes Scenario.repo [("origin", "https://x/p.git")] Scenario.w_bare,
     [Ran (Spec.get_url_argv Scenario.repo "origin") true None 2;
      Ran ["git"; "-C"; "/base/g/p"; "remote"; "add"; "origin"; "https://x/p.git"]
          false None 0]).
Proof.
  exact (@apply_remote_runs_the_action Fake.World _
           (Scenario.project "apply" true false [("origin", "https://x/p.git")])
           "origin" "https://x/p.git" Scenario.w_bare eq_refl).
Defined.

Lemma sync_runs_only_when_asked_witness :
  forallb (fun e => negb (Spec.is_sync Scenario.repo e))
    (snd (Project.run (Scenario.project "apply" true true [("origin", "https://x/p.git")])
            Scenario.w_converged)) = true.
Proof.
  destruct (Project.run _ Scenario.w_converged) as [[r w'] t] eqn:E.
  apply (@sync_runs_only_when_asked Fake.World _
           (Scenario.project "apply" true true [("origin", "https://x/p.git")])
           Scenario.w_converged r w' t); [|exact E].
  right. left. reflexivity.
Defined.

Lemma written_envrc_is_recognized_witness :
  envrc.has_envrc Scenario.repo
    (write_text (Scenario.repo // ".envrc") "source .venv/bin/activate" Scenario.w_bare)
  = (Ok true,
     write_text (Scenario.repo // ".envrc") "source .venv/bin/activate" Scenario.w_bare, []).
Proof.
  exact (proj2 (@written_envrc_is_recognized Fake.World _
                  (Scenario.project "apply" true true []) Scenario.w_bare
                  eq_refl eq_refl eq_refl eq_refl)).
Defined.

Lemma plan_report_lists_the_plan_witness :
  main.run_one Scenario.base "plan" false tt ("g.p", Scenario.data false []) Scenario.w_plain_dir
  = (Ok tt, Scenario.w_plain_dir,
     [Printed (main.line_plan_for "g.p");
      Printed (Project.line_clone_existing "p")]).
Proof.
  exact (@plan_report_lists_the_plan Fake.World _ Scenario.base false "g.p"
           (Scenario.data false []) Scenario.w_plain_dir
           (Scenario.project "plan" false false [])
           [Project.line_clone_existing "p"] Scenario.w_plain_dir [] eq_refl eq_refl).
Defined.

Lemma entry_without_name_or_group_raises_witness :
  main.run ([("g.p", Scenario.data false [])]
            ++ ("nameless", {| d_name := None; d_group := Some "g"; d_envrc := None;
                               d_remotes := None |})
               :: [("g.q", Scenario.data false [])])%list
    Scenario.base "plan" false Scenario.w_absent
  = (Raise KeyError, Scenario.w_absent,
     [Printed (main.line_plan_for "g.p"); Printed (Project.line_clone_new "p")]).
Proof.
  rewrite (@entry_without_name_or_group_raises Fake.World _
             [("g.p", Scenario.data false [])] "nameless"
             {| d_name := None; d_group := Some "g"; d_envrc := None; d_remotes := None |}
             [("g.q", Scenario.data false [])] Scenario.base "plan" false
             Scenario.w_absent (or_introl eq_refl)).
  vm_compute. reflexivity.
Defined.

Lemma reconcile_needs_projects_witness :
  app.reconcile (cli.namespace "plan" false) (Some Scenario.declared) Scenario.base
    Scenario.w_absent
  = (Raise AttributeError, Scenario.w_absent, [])
  /\ app.reconcile (cli.namespace "apply" true) (Some Scenario.declared) Scenario.base
       Scenario.w_absent
     = main.run [("attic.old", Scenario.gone); ("g.p", Scenario.data false [])]
         Scenario.base "apply" true Scenario.w_absent.
Proof.
  destruct (@reconcile_needs_projects Fake.World _ (cli.namespace "plan" false)
              (Some Scenario.declared) Scenario.base Scenario.w_absent
              Scenario.declared ("attic.old", Scenario.gone)
              [("g.p", Scenario.data false [])] eq_refl eq_refl)
    as (_ & _ & Ha & Hp & _).
  split; [exact (Hp false) | exact (Ha true)].
Defined.

Lemma get_remotes_has_each_listed_name_once_witness :
  NoDup (PyDict.keys [("origin", "https://x/p.git")])
  /\ (forall n, In n (PyDict.keys [("origin", "https://x/p.git")]) <-> In n ["origin"]).
Proof.
  assert (E : update.get_remotes Scenario.repo Scenario.w_converged
              = (Ok [("origin", "https://x/p.git")], Scenario.w_converged,
                 [Ran (Spec.list_remotes_argv Scenario.repo) false None 0;
                  Ran (Spec.get_url_argv Scenario.repo "origin") false None 0]))
    by (vm_compute; reflexivity).
  destruct (@get_remotes_has_each_listed_name_once Fake.World _ Scenario.repo
              Scenario.w_converged _ _ _ E)
    as (_ & Hd & Hk & _).
  split; [exact Hd | exact Hk].
Defined.

Lemma discovery_changes_nothing_witness :
  let run := update.update_config None Scenario.base Scenario.w_converged in
  snd (fst run) = Scenario.w_converged /\ forallb discovery_query (snd run) = true.
Proof.
  cbv zeta.
  destruct (update.update_config None Scenario.base Scenario.w_converged)
    as [[r w'] t] eqn:E.
  exact (@discovery_changes_nothing Fake.World _ fake_queries_read_only
           None Scenario.base Scenario.w_converged r w' t E).
Defined.

Lemma discovery_refuses_missing_base_and_stray_files_witness :
  update.update_config None (PurePath.parse "/nowhere") Scenario.w_absent
  = (Exit EX_NOINPUT, Scenario.w_absent, [])
  /\ fst (fst (update.update_config None Scenario.base Scenario.w_stray))
     <> Ok {| cfg_repo_dir := None; cfg_project := Some [] |}.
Proof.
  split.
  - apply (proj1 (@discovery_refuses_missing_base_and_stray_files Fake.World _
                    fake_queries_read_only None (PurePath.parse "/nowhere") Scenario.w_absent)).
    reflexivity.
  - apply (proj2 (@discovery_refuses_missing_base_and_stray_files Fake.World _
                    fake_queries_read_only None Scenario.base Scenario.w_stray)
             [PurePath.parse "/base/README"] (PurePath.parse "/base/README")).
    + reflexivity.
    + left. reflexivity.
    + reflexivity.
Defined.

Lemma discovery_without_table_finds_nothing_witness :
  Spec.discoveries Scenario.w_bare Scenario.base = []
  /\ fst (fst (update.update_config (Some Scenario.only_repo_dir) Scenario.base
                 Scenario.w_bare)) = Ok Scenario.only_repo_dir.
Proof.
  destruct (update.update_config (Some Scenario.only_repo_dir) Scenario.base Scenario.w_bare)
    as [[r w'] t] eqn:E.
  destruct r as [config'|c|e];
    [|vm_compute in E; discriminate E|vm_compute in E; discriminate E].
  destruct (@discovery_without_table_finds_nothing Fake.World _ fake_queries_read_only
              (Some Scenario.only_repo_dir) Scenario.base Scenario.w_bare config' w' t
              eq_refl E) as [Hd ->].
  split; [exact Hd | reflexivity].
Defined.

Lemma discovery_again_returns_the_same_witness :
  let found := {| cfg_repo_dir := None;
                  cfg_project :=
                    Some [("g.p", Spec.entry Scenario.group Scenario.repo
                                    [("origin", "https://x/p.git")] true)] |} in
  fst (fst (update.update_config (Some found) Scenario.base Scenario.w_converged)) = Ok found.
Proof.
  intros found.
  destruct (update.update_config None Scenario.base Scenario.w_converged)
    as [[r1 w1] t1] eqn:E1.
  assert (Hr1 : r1 = Ok found /\ w1 = Scenario.w_converged).
  { apply (f_equal fst) in E1. cbn [fst] in E1. vm_compute in E1.
    injection E1 as <- <-. split; reflexivity. }
  destruct Hr1 as [-> ->].
  destruct (update.update_config (Some found) Scenario.base Scenario.w_converged)
    as [[r2 w2] t2] eqn:E2.
  destruct r2 as [c2|c|e];
    [|vm_compute in E2; discriminate E2|vm_compute in E2; discriminate E2].
  destruct (@discovery_again_returns_the_same Fake.World _ fake_queries_read_only
              None Scenario.base Scenario.w_converged [] found Scenario.w_converged t1
              c2 w2 t2 eq_refl (NoDup_nil _) E1 E2) as [-> _].
  reflexivity.
Defined.

Lemma discovered_entry_leads_back_witness :
  Project.init Scenario.root
    (Spec.entry Scenario.group Scenario.repo [("origin", "https://x/p.git")] true)
    Scenario.base "plan" false
  = Ok (Scenario.project "plan" false true [("origin", "https://x/p.git")]).
Proof.
  exact (@discovered_entry_leads_back Scenario.root Scenario.base Scenario.group Scenario.repo
           "g" "p" [("origin", "https://x/p.git")] true "plan" false
           eq_refl eq_refl eq_refl eq_refl).
Defined.
